(** * gosqs: a shallow embedding of the consumer, the envelope and the publisher

    The Go package [gosqs] wraps AWS SQS/SNS.  This development embeds the
    parts of it that carry the message life cycle, file by file:

    - [src/errs.go]            the package's error values;
    - [src/unnamed/part_003]   the envelope [message] around a raw
                               [sqs.Message]: [Route], [Attribute],
                               [Decode], [DecodeModified], the completion
                               signals;
    - [src/adapters.go]        handlers and the adapters that wrap them;
    - [src/unnamed/part_002]   the [consumer]: [RegisterHandler], [Consume],
                               [run], [delete], [extend],
                               [sendDirectMessage];
    - [src/config.go]          custom attributes and, in its second half,
                               the [publisher]: [send], [sendDirectMessage],
                               [Modify] and the other operations.

    Go code is effectful.  Every function that talks to the backend, sleeps,
    logs or starts a goroutine is a computation in the monad [M] below: it
    transforms a [World] and ends in a value or in a Go panic; recursion that
    Go leaves unbounded is bounded by fuel, and running out of it is a third
    way to end.  The backend is an external collaborator: its answers are
    scripted inside the [World], and so are the moments at which a concurrent
    completion signal is seen, so that a theorem quantified over all worlds
    holds for every behaviour of the backend and every interleaving of the
    signal with the lease-extension task. *)

From Stdlib Require Import ZArith Lia Ascii String.
From stdpp Require Import base option list gmap strings pretty.

Local Open Scope string_scope.

(** ** Machine integers *)

(** Go's [int64] (and [int] on the 64-bit targets the package is built for):
    arithmetic wraps around modulo 2^64 into the signed range. *)
Definition min_int64 : Z := (- 2 ^ 63)%Z.
Definition max_int64 : Z := (2 ^ 63 - 1)%Z.

Definition wrap64 (z : Z) : Z := ((z + 2 ^ 63) mod 2 ^ 64 - 2 ^ 63)%Z.

(** [time.Second], in the nanoseconds of [time.Duration]. *)
Definition Second : Z := 1000000000%Z.

(** ** Pointers *)

(** A Go pointer is either nil or points to a value. *)
Abbreviation ptr := option (only parsing).

(** ** Outcomes of Go code *)

(** A Go call returns, panics, or (in the model) exhausts its fuel. *)
Inductive outcome (A : Type) : Type :=
| Done (a : A)
| Panicked (v : string)
| OutOfFuel.
Arguments Done {A} a.
Arguments Panicked {A} v.
Arguments OutOfFuel {A}.

Definition outcome_bind {A B} (o : outcome A) (k : A -> outcome B) : outcome B :=
  match o with
  | Done a => k a
  | Panicked v => Panicked v
  | OutOfFuel => OutOfFuel
  end.

(** The value the Go runtime panics with on a nil dereference. *)
Definition nilDereference : string :=
  "runtime error: invalid memory address or nil pointer dereference".

(** [*p] *)
Definition deref {A} (p : ptr A) : outcome A :=
  match p with
  | Some a => Done a
  | None => Panicked nilDereference
  end.

(** ** src/errs.go *)

(** Go's [error] interface.  Two implementations occur: plain error strings
    (the backend's errors, [errors.New]) and the package's [*SQSError], which
    may carry a contextual error. *)
#[warnings="-register-all"]
Inductive error : Type :=
| errorString (s : string)
| sqsError (Err : string) (contextErr : option error).

Record SQSError : Type := mkSQSError {
  Err : string;
  contextErr : option error
}.

Definition SQSError_error (e : SQSError) : error :=
  sqsError (Err e) (contextErr e).
Coercion SQSError_error : SQSError >-> error.

(** [func (e *SQSError) Error() string] and its counterpart on plain errors. *)
Fixpoint Error (e : error) : string :=
  match e with
  | errorString s => s
  | sqsError msg None => msg
  | sqsError msg (Some ctx) => msg ++ ": " ++ Error ctx
  end.

(** [func (e *SQSError) Context(err error) *SQSError] *)
Definition Context (e : SQSError) (err : error) : SQSError :=
  {| Err := Err e; contextErr := Some err |}.

Definition newSQSErr (msg : string) : SQSError :=
  {| Err := msg; contextErr := None |}.

Definition ErrUnableToDelete := newSQSErr "unable to delete item in queue".
Definition ErrUnableToExtend := newSQSErr "unable to extend message processing time".
Definition ErrMarshal := newSQSErr "unable to marshal request".
Definition ErrGetMessage := newSQSErr "unable to retrieve message".
Definition ErrMessageProcessing := newSQSErr "processing time exceeding limit".
Definition ErrBodyOverflow :=
  newSQSErr "message surpasses sqs limit of 262144, please truncate body".
Definition ErrPublish := newSQSErr "message publish failure. Retrying...".

(** ** The backend's data (aws-sdk-go) *)

(** [sqs.MessageAttributeValue] and [sns.MessageAttributeValue]: the package
    reads and writes the two pointer fields below; a Binary attribute arrives
    with a nil [StringValue]. *)
Record MessageAttributeValue : Type := {
  DataType : ptr string;
  StringValue : ptr string
}.

(** A Go map may be nil; its values are pointers. *)
Abbreviation attribute_map :=
  (option (gmap string (ptr MessageAttributeValue))) (only parsing).

(** [v, ok := m[key]]; reading a nil map finds nothing. *)
Definition map_lookup_ok (attrs : attribute_map) (key : string)
  : option (ptr MessageAttributeValue) :=
  match attrs with
  | None => None
  | Some mp => mp !! key
  end.

(** [m[key]]: the zero value (a nil pointer) when the key is absent. *)
Definition map_index (attrs : attribute_map) (key : string)
  : ptr MessageAttributeValue :=
  match map_lookup_ok attrs key with
  | Some p => p
  | None => None
  end.

(** [sqs.Message], with the fields the package uses. *)
Record sqs_Message : Type := {
  Body : ptr string;
  MessageAttributes : attribute_map;
  ReceiptHandle : ptr string
}.

(** [sqs.SendMessageInput] *)
Record SendMessageInput : Type := {
  MessageBody : ptr string;
  send_MessageAttributes : attribute_map;
  QueueUrl : ptr string
}.

(** [sns.PublishInput] *)
Record PublishInput : Type := {
  pub_Message : ptr string;
  pub_MessageAttributes : attribute_map;
  TopicArn : ptr string
}.

(** [context.Context]; the package only passes contexts along. *)
Inductive context_Context : Type :=
| context_Background
| context_TODO.

(** ** src/unnamed/part_003: the envelope *)

(** [type message struct { *sqs.Message; err chan error }].  The embedded
    pointer is never nil: [newMessage] is only given messages of a receive
    result.  The one-slot channel [err] is the envelope's completion signal;
    what is sent on it is recorded in the world's trace, and what the
    lease-extension task reads from it is scripted by the world (see
    [select_err]). *)
Record message : Type := {
  Message : sqs_Message
}.

(** [func newMessage(m *sqs.Message) *message] *)
Definition newMessage (m : sqs_Message) : message := {| Message := m |}.

(** [func (m *message) Route() string]:
    [return *m.MessageAttributes["route"].StringValue] *)
Definition Route (m : message) : outcome string :=
  outcome_bind (deref (map_index (MessageAttributes (Message m)) "route"))
    (fun v => deref (StringValue v)).

(** [func (m *message) Attribute(key string) string] *)
Definition Attribute (m : message) (key : string) : outcome string :=
  match map_lookup_ok (MessageAttributes (Message m)) key with
  | None => Done ""
  | Some id => outcome_bind (deref id) (fun v => deref (StringValue v))
  end.

(** [func (m *message) body() []byte] *)
Definition body (m : message) : outcome string := deref (Body (Message m)).

(** ** The world *)

(** A script answers successive requests: first the [upcoming] answers in
    order, then [thereafter] for ever. *)
Record script (A : Type) : Type := {
  upcoming : list A;
  thereafter : A
}.
Arguments upcoming {A} _.
Arguments thereafter {A} _.

Definition next {A} (s : script A) : A * script A :=
  match upcoming s with
  | a :: rest => (a, {| upcoming := rest; thereafter := thereafter s |})
  | [] => (thereafter s, s)
  end.

(** Goroutines started with [go]. *)
Inductive goroutine : Type :=
| GoExtend (m : message)                     (* go c.extend(ctx, m) *)
| GoSignal (m : message) (e : option error)  (* go func() { m.err <- e }() *)
| GoWorker (id : Z).                         (* go c.worker(id, jobs) *)

(** What the code does to its environment, in order. *)
Inductive event : Type :=
| EvReceiveMessage (queueURL : string)
| EvSendMessage (input : SendMessageInput)
| EvPublish (input : PublishInput)
| EvDeleteMessage (queueURL : string) (receipt : ptr string)
| EvChangeMessageVisibility (queueURL : string) (receipt : ptr string) (timeout : Z)
| EvSleep (d : Z)
| EvLog (args : list string)
| EvGo (g : goroutine)
| EvJob (m : message).                       (* jobs <- m *)

Record World : Type := {
  (** receipt handles of the messages the backend queue still holds *)
  queue : list string;
  (** the backend's answers to successive send, publish, delete and
      extend-lease requests: nil or an error *)
  backend : script (option error);
  (** the backend's answers to successive receive requests *)
  inbox : script (error + list sqs_Message);
  (** what successive non-blocking reads of a completion channel find:
      [true] when the signal has arrived *)
  signals : script bool;
  (** everything done so far, oldest first *)
  trace : list event
}.

Definition emits (es : list event) (w : World) : World :=
  {| queue := queue w; backend := backend w; inbox := inbox w;
     signals := signals w; trace := trace w ++ es |}.

Definition emit (e : event) (w : World) : World := emits [e] w.

(** The lease durations requested by the extend-lease calls of a trace. *)
Definition extensions (tr : list event) : list Z :=
  omap (fun e => match e with
                 | EvChangeMessageVisibility _ _ timeout => Some timeout
                 | _ => None
                 end) tr.

(** The number of send and publish requests of a trace. *)
Definition is_send (e : event) : bool :=
  match e with
  | EvSendMessage _ | EvPublish _ => true
  | _ => false
  end.

Definition send_count (tr : list event) : nat := length (filter is_send tr).

(** The sleeps of a trace. *)
Definition sleeps (tr : list event) : list Z :=
  omap (fun e => match e with
                 | EvSleep d => Some d
                 | _ => None
                 end) tr.

(** ** The monad of Go code *)

Definition M (A : Type) : Type := World -> outcome A * World.

#[global] Instance M_ret : MRet M := fun A a w => (Done a, w).

#[global] Instance M_bind : MBind M := fun A B k c w =>
  match c w with
  | (Done a, w') => k a w'
  | (Panicked v, w') => (Panicked v, w')
  | (OutOfFuel, w') => (OutOfFuel, w')
  end.

(** a pure call that may panic *)
Definition lift {A} (o : outcome A) : M A := fun w => (o, w).

(** [panic(v)] *)
Definition panic {A} (v : string) : M A := fun w => (Panicked v, w).

Definition out_of_fuel {A} : M A := fun w => (OutOfFuel, w).

Definition tell (e : event) : M unit := fun w => (Done tt, emit e w).

(** [time.Sleep(d)] *)
Definition Sleep (d : Z) : M unit := tell (EvSleep d).

(** [log.Println], [log.Printf], [log.Print] and [Logger.Println]: the
    arguments, already rendered as strings. *)
Definition Println (args : list string) : M unit := tell (EvLog args).

(** [go f()] *)
Definition go (g : goroutine) : M unit := tell (EvGo g).

(** One request to the backend: it is recorded and answered by the script. *)
Definition request (e : event) : M (option error) := fun w =>
  let (answer, rest) := next (backend w) in
  (Done answer,
   {| queue := queue w; backend := rest; inbox := inbox w;
      signals := signals w; trace := trace w ++ [e] |}).

(** [sqs.SendMessage] *)
Definition SendMessage (input : SendMessageInput) : M (option error) :=
  request (EvSendMessage input).

(** [sns.Publish] *)
Definition Publish (input : PublishInput) : M (option error) :=
  request (EvPublish input).

(** [sqs.ChangeMessageVisibility] *)
Definition ChangeMessageVisibility (queueURL : string) (receipt : ptr string)
    (timeout : Z) : M (option error) :=
  request (EvChangeMessageVisibility queueURL receipt timeout).

(** Removing a receipt handle from the queue. *)
Definition remove_receipt (receipt : ptr string) (q : list string) : list string :=
  match receipt with
  | Some r => filter (fun x => x ≠ r) q
  | None => q
  end.

(** [sqs.DeleteMessage]: when the backend accepts the request the message
    leaves the queue. *)
Definition DeleteMessage (queueURL : string) (receipt : ptr string)
  : M (option error) := fun w =>
  let (answer, rest) := next (backend w) in
  (Done answer,
   {| queue := match answer with
               | None => remove_receipt receipt (queue w)
               | Some _ => queue w
               end;
      backend := rest; inbox := inbox w; signals := signals w;
      trace := trace w ++ [EvDeleteMessage queueURL receipt] |}).

(** [sqs.ReceiveMessage] *)
Definition ReceiveMessage (queueURL : string) : M (error + list sqs_Message) :=
  fun w =>
  let (answer, rest) := next (inbox w) in
  (Done answer,
   {| queue := queue w; backend := backend w; inbox := rest;
      signals := signals w; trace := trace w ++ [EvReceiveMessage queueURL] |}).

(** [select { case <-m.err: ... default: ... }]: [true] when a completion
    signal was waiting on the envelope's channel. *)
Definition select_err (m : message) : M bool := fun w =>
  let (answer, rest) := next (signals w) in
  (Done answer,
   {| queue := queue w; backend := backend w; inbox := inbox w;
      signals := rest; trace := trace w |}).

(** [func (m *message) ErrorResponse(ctx, err) error] *)
Definition ErrorResponse (m : message) (ctx : context_Context) (err : error)
  : M (option error) :=
  go (GoSignal m (Some err));; mret (Some err).

(** [func (m *message) Success(ctx) error] *)
Definition Success (m : message) (ctx : context_Context) : M (option error) :=
  go (GoSignal m None);; mret None.

(** ** src/adapters.go *)

(** [type Handler func(context.Context, Message) error] *)
Definition Handler : Type := context_Context -> message -> M (option error).

(** [type Adapter func(Handler) Handler] *)
Definition Adapter : Type := Handler -> Handler.

(** [func WithMiddleware(f func(ctx, m) error) Adapter]: runs [f], drops its
    result, then delegates. *)
Definition WithMiddleware (f : context_Context -> message -> M (option error))
  : Adapter :=
  fun fn ctx m => f ctx m;; fn ctx m.

(** A deferred [recovery func()]: it is handed what [recover()] would return
    (the panic in flight, if any) and answers whether it called [recover()]. *)
Definition Recovery : Type := option string -> M bool.

(** [func WithRecovery(recovery func()) Adapter]: [defer recovery()] and
    delegate.  The deferred call runs when the handler returns and when it
    panics; a recovered panic makes the wrapper return the zero value, nil. *)
Definition WithRecovery (recovery : Recovery) : Adapter :=
  fun fn ctx m w =>
    match fn ctx m w with
    | (Done r, w1) =>
        match recovery None w1 with
        | (Done _, w2) => (Done r, w2)
        | (Panicked v, w2) => (Panicked v, w2)
        | (OutOfFuel, w2) => (OutOfFuel, w2)
        end
    | (Panicked v, w1) =>
        match recovery (Some v) w1 with
        | (Done true, w2) => (Done None, w2)
        | (Done false, w2) => (Panicked v, w2)
        | (Panicked v', w2) => (Panicked v', w2)
        | (OutOfFuel, w2) => (OutOfFuel, w2)
        end
    | (OutOfFuel, w1) => (OutOfFuel, w1)
    end.

(** ** src/config.go: custom attributes *)

Record customAttribute : Type := {
  Title : string;
  ca_DataType : string;
  Value : string
}.

(** [func defaultSQSAttributes(event string, ca ...customAttribute)] and its
    twin [defaultSNSAttributes]: the route, then one entry per custom
    attribute, each pointing at its own attribute's type and value. *)
Definition defaultSQSAttributes (event : string) (ca : list customAttribute)
  : gmap string (ptr MessageAttributeValue) :=
  foldl (fun m attr =>
           <[Title attr :=
               Some {| DataType := Some (ca_DataType attr);
                       StringValue := Some (Value attr) |}]> m)
        {["route" := Some {| DataType := Some "String"; StringValue := Some event |}]}
        ca.

Definition defaultSNSAttributes := defaultSQSAttributes.

(** ** src/unnamed/part_002: the consumer *)

Record consumer : Type := {
  (** [map[string]Handler]; the nil map reads like the empty one *)
  handlers : gmap string Handler;
  env : string;
  QueueURL : string;
  VisibilityTimeout : Z;
  workerPool : Z;
  extensionLimit : Z;
  attributes : list customAttribute
}.

Module Consumer.

(** The loop of [RegisterHandler]:
    [for i := len(adapters) - 1; i >= 0; i-- { h = adapters[i](h) }],
    entered with [n = len(adapters)]; the index [i = n - 1] is in range. *)
Fixpoint wrap (adapters : list Adapter) (n : nat) (h : Handler) : Handler :=
  match n with
  | O => h
  | S i =>
      wrap adapters i
        (match adapters !! i with
         | Some a => a h
         | None => h
         end)
  end.

(** [func (c *consumer) RegisterHandler(name string, h Handler, adapters ...Adapter)] *)
Definition RegisterHandler (c : consumer) (name : string) (h : Handler)
    (adapters : list Adapter) : consumer :=
  let h := wrap adapters (length adapters) h in
  {| handlers := <[name := fun ctx m => h ctx m]> (handlers c);
     env := env c; QueueURL := QueueURL c;
     VisibilityTimeout := VisibilityTimeout c; workerPool := workerPool c;
     extensionLimit := extensionLimit c; attributes := attributes c |}.

(** [func (c *consumer) delete(m *message) error] *)
Definition delete (c : consumer) (m : message) : M (option error) :=
  err ← DeleteMessage (QueueURL c) (ReceiptHandle (Message m));
  match err with
  | Some e =>
      Println [Error (Context ErrUnableToDelete e)];;
      mret (Some (SQSError_error (Context ErrUnableToDelete e)))
  | None => mret None
  end.

(** The loop of [func (c *consumer) extend(ctx, m)], from the state
    ([count], [extension]).  [count] stays below [extensionLimit], so
    [count++] does not overflow; [extension] is an [int64]. *)
Fixpoint extend_loop (fuel : nat) (c : consumer) (m : message)
    (count extension : Z) : M unit :=
  match fuel with
  | O => out_of_fuel
  | S fuel' =>
      if (extensionLimit c <=? count)%Z then
        route ← lift (Route m);
        Println [Error ErrMessageProcessing; route]
      else
        let count := (count + 1)%Z in
        Sleep (wrap64 (wrap64 (VisibilityTimeout c - 10) * Second));;
        finished ← select_err m;
        if (finished : bool) then mret tt
        else
          let extension := wrap64 (extension + VisibilityTimeout c) in
          err ← ChangeMessageVisibility (QueueURL c) (ReceiptHandle (Message m))
                  extension;
          match err with
          | Some e => Println [Error ErrUnableToExtend; Error e]
          | None => extend_loop fuel' c m count extension
          end
  end.

(** [func (c *consumer) extend(ctx context.Context, m *message)] *)
Definition extend (fuel : nat) (c : consumer) (ctx : context_Context)
    (m : message) : M unit :=
  extend_loop fuel c m 0 (VisibilityTimeout c).

(** [func (c *consumer) run(m *message) error].  The handler's error is
    returned from inside the [if]; only the other two paths reach the final
    [return c.delete(m)]. *)
Definition run (c : consumer) (m : message) : M (option error) :=
  route ← lift (Route m);
  match handlers c !! route with
  | Some h =>
      let ctx := context_Background in
      go (GoExtend m);;
      err ← h ctx m;
      match err with
      | Some e => ErrorResponse m ctx e
      | None => Success m ctx;; delete c m
      end
  | None => delete c m
  end.

(** One job of [func (c *consumer) worker(id int, messages <-chan *message)]. *)
Definition worker_job (c : consumer) (m : message) : M unit :=
  err ← run c m;
  match err with
  | Some e => Println [Error e]
  | None => mret tt
  end.

(** [m.MessageAttributes["route"] = v]: assigning into a nil map panics. *)
Definition map_assign (attrs : attribute_map) (key : string)
    (v : ptr MessageAttributeValue) : outcome attribute_map :=
  match attrs with
  | None => Panicked "assignment to entry in nil map"
  | Some mp => Done (Some (<[key := v]> mp))
  end.

Definition set_attributes (m : sqs_Message) (attrs : attribute_map) : sqs_Message :=
  {| Body := Body m; MessageAttributes := attrs; ReceiptHandle := ReceiptHandle m |}.

(** The body of the inner loop of [Consume], up to the hand-off: the default
    route for a message that has none. *)
Definition normalize (m : sqs_Message) : outcome sqs_Message :=
  let m :=
    match MessageAttributes m with
    | None => set_attributes m (Some (defaultSQSAttributes "" []))
    | Some _ => m
    end in
  match map_lookup_ok (MessageAttributes m) "route" with
  | None =>
      outcome_bind
        (map_assign (MessageAttributes m) "route"
           (Some {| DataType := Some "String"; StringValue := Some "" |}))
        (fun attrs => Done (set_attributes m attrs))
  | Some _ => Done m
  end.

(** [for _, m := range output.Messages { ...; jobs <- newMessage(m) }] *)
Fixpoint enqueue (msgs : list sqs_Message) : M unit :=
  match msgs with
  | [] => mret tt
  | m :: rest =>
      m' ← lift (normalize m);
      tell (EvJob (newMessage m'));;
      enqueue rest
  end.

(** One turn of the endless loop of [Consume]. *)
Definition poll (c : consumer) : M unit :=
  output ← ReceiveMessage (QueueURL c);
  match output with
  | inl err =>
      Println ["%s , retrying in 10s"; Error (Context ErrGetMessage err)];;
      Sleep (10 * Second)
  | inr msgs => enqueue msgs
  end.

(** [for w := 1; w <= c.workerPool; w++ { go c.worker(w, jobs) }] *)
Fixpoint start_workers (n : nat) (w : Z) : M unit :=
  match n with
  | O => mret tt
  | S n' => go (GoWorker w);; start_workers n' (w + 1)%Z
  end.

Fixpoint poll_loop (fuel : nat) (c : consumer) : M unit :=
  match fuel with
  | O => out_of_fuel
  | S fuel' => poll c;; poll_loop fuel' c
  end.

(** [func (c *consumer) Consume()]: it never returns; [fuel] bounds the
    number of polls that are followed. *)
Definition Consume (fuel : nat) (c : consumer) : M unit :=
  start_workers (Z.to_nat (workerPool c)) 1;;
  poll_loop fuel c.

(** [func (c *consumer) sendDirectMessage(ctx, input, event)] *)
Fixpoint sendDirectMessage (fuel : nat) (c : consumer) (ctx : context_Context)
    (input : SendMessageInput) (event : string) : M unit :=
  match fuel with
  | O => out_of_fuel
  | S fuel' =>
      err ← SendMessage input;
      match err with
      | Some e =>
          Println [Error (Context ErrPublish e); event];;
          Sleep (10 * Second);;
          sendDirectMessage fuel' c ctx input event
      | None => mret tt
      end
  end.

End Consumer.

(** ** encoding/json, as far as the package relies on it *)

(** JSON documents. *)
#[warnings="-register-all"]
Inductive json : Type :=
| JNull
| JBool (b : bool)
| JNumber (n : Z)
| JString (s : string)
| JArray (items : list json)
| JObject (members : list (string * json)).

(** What [json.Marshal] makes of a Go value of type [T]: a document, or an
    error for a value it cannot encode. *)
Class Marshaler (T : Type) : Type :=
  MarshalJSON : T -> json + error.

(** What [json.Unmarshal] does with a document and a destination of type
    [T]: the updated destination, or an error. *)
Class Unmarshaler (T : Type) : Type :=
  UnmarshalJSON : json -> T -> T + error.

(** ASCII case folding, for the decoder's match of object keys against
    field names. *)
Definition lower (a : ascii) : ascii :=
  let n := nat_of_ascii a in
  if (65 <=? n)%nat && (n <=? 90)%nat then ascii_of_nat (n + 32) else a.

Fixpoint fold_case (s : string) : string :=
  match s with
  | EmptyString => EmptyString
  | String a rest => String (lower a) (fold_case rest)
  end.

Definition equalFold (a b : string) : bool :=
  String.eqb (fold_case a) (fold_case b).

(** The struct field an object key is decoded into: an exact match of the
    field's JSON name first, a case-insensitive one otherwise. *)
Definition field_for (fields : list string) (key : string) : option string :=
  match List.find (String.eqb key) fields with
  | Some f => Some f
  | None => List.find (equalFold key) fields
  end.

(** The anonymous [struct { Body interface{}; Changes interface{} }] of
    [DecodeModified]; its fields hold the caller's two destinations. *)
Record modified (B C : Type) : Type := {
  s_Body : B;
  s_Changes : C
}.
Arguments s_Body {B C} _.
Arguments s_Changes {B C} _.

(** Decoding one object member into the struct: the fields have no tags, so
    their JSON names are [Body] and [Changes]; unknown keys are skipped. *)
Definition decode_member {B C} `{Unmarshaler B} `{Unmarshaler C}
    (s : modified B C) (member : string * json) : modified B C + error :=
  match field_for ["Body"; "Changes"] (fst member) with
  | Some "Body" =>
      match UnmarshalJSON (snd member) (s_Body s) with
      | inl b => inl {| s_Body := b; s_Changes := s_Changes s |}
      | inr e => inr e
      end
  | Some "Changes" =>
      match UnmarshalJSON (snd member) (s_Changes s) with
      | inl c => inl {| s_Body := s_Body s; s_Changes := c |}
      | inr e => inr e
      end
  | _ => inl s
  end.

Fixpoint decode_members {B C} `{Unmarshaler B} `{Unmarshaler C}
    (s : modified B C) (members : list (string * json)) : modified B C + error :=
  match members with
  | [] => inl s
  | member :: rest =>
      match decode_member s member with
      | inl s' => decode_members s' rest
      | inr e => inr e
      end
  end.

#[global] Instance modified_Unmarshaler {B C} `{Unmarshaler B} `{Unmarshaler C}
  : Unmarshaler (modified B C) := fun j s =>
  match j with
  | JObject members => decode_members s members
  | JNull => inl s
  | _ => inr (errorString "json: cannot unmarshal into Go value of type struct")
  end.

(** [type Notifier interface { ModelName() string }] *)
Class Notifier (T : Type) : Type :=
  ModelName : T -> string.

(** [type modify struct { Notifier `json:"body"`; Changes interface{} `json:"changes"` }] *)
Record modify (N C : Type) : Type := {
  m_Notifier : N;
  m_Changes : C
}.
Arguments m_Notifier {N C} _.
Arguments m_Changes {N C} _.

(** [func newModify(n Notifier, changes interface{}) *modify] *)
Definition newModify {N C} (n : N) (changes : C) : modify N C :=
  {| m_Notifier := n; m_Changes := changes |}.

(** The encoder writes the fields in order under their tagged names. *)
#[global] Instance modify_Marshaler {N C} `{Marshaler N} `{Marshaler C}
  : Marshaler (modify N C) := fun m =>
  match MarshalJSON (m_Notifier m) with
  | inr e => inr e
  | inl b =>
      match MarshalJSON (m_Changes m) with
      | inr e => inr e
      | inl c => inl (JObject [("body", b); ("changes", c)])
      end
  end.

(** [strings.Title] on ASCII: the first letter of every word in upper case. *)
Definition upper (a : ascii) : ascii :=
  let n := nat_of_ascii a in
  if (97 <=? n)%nat && (n <=? 122)%nat then ascii_of_nat (n - 32) else a.

Definition is_letter (a : ascii) : bool :=
  let n := nat_of_ascii (lower a) in (97 <=? n)%nat && (n <=? 122)%nat.

Fixpoint title_from (start : bool) (s : string) : string :=
  match s with
  | EmptyString => EmptyString
  | String a rest =>
      String (if start then upper a else a) (title_from (negb (is_letter a)) rest)
  end.

Definition strings_Title (s : string) : string := title_from true s.

Record publisher : Type := {
  arn : string;
  p_env : string;
  sqsURL : string;
  camelCase : bool;
  p_attributes : list customAttribute;
  (** the [Logger] interface value; nil unless one was set *)
  logger : ptr unit
}.

(** [const maxRetryCount = 5] *)
Definition maxRetryCount : Z := 5.

Definition errDataLimit : error :=
  errorString "InvalidParameterValue: One or more parameters are invalid. Reason: Message must be shorter than 262144 bytes".

(** A send failure other than the payload-too-large one: its text differs
    from [errDataLimit]'s. *)
Definition transient (e : error) : Prop :=
  String.eqb (Error e) (Error errDataLimit) = false.

Section JSONText.

(** The text of a document and its reading back: the two halves of
    [encoding/json], which is not part of the package. *)
Variable encode : json -> string.
Variable decode : string -> option json.

(** [json.Marshal(v)] *)
Definition json_Marshal {T} `{Marshaler T} (v : T) : string + error :=
  match MarshalJSON v with
  | inl j => inl (encode j)
  | inr e => inr e
  end.

(** [json.Unmarshal(data, &out)]: the error and the destination afterwards. *)
Definition json_Unmarshal {T} `{Unmarshaler T} (data : string) (out : T)
  : option error * T :=
  match decode data with
  | None =>
      (Some (errorString "invalid character looking for beginning of value"), out)
  | Some j =>
      match UnmarshalJSON j out with
      | inl out' => (None, out')
      | inr e => (Some e, out)
      end
  end.

(** *** src/unnamed/part_003: decoding *)

(** [func (m *message) Decode(out interface{}) error] *)
Definition Decode {T} `{Unmarshaler T} (m : message) (out : T)
  : outcome (option error * T) :=
  outcome_bind (body m) (fun data => Done (json_Unmarshal data out)).

(** [func (m *message) DecodeModified(body, changes interface{}) error]: the
    error, and the two destinations afterwards. *)
Definition DecodeModified {B C} `{Unmarshaler B} `{Unmarshaler C}
    (m : message) (body : B) (changes : C) : outcome (option error * B * C) :=
  let s := {| s_Body := body; s_Changes := changes |} in
  outcome_bind (Decode m s)
    (fun r => Done (fst r, s_Body (snd r), s_Changes (snd r))).

End JSONText.

Module Publisher.

Section Sending.

(** [json.Marshal]'s rendering of a document as text. *)
Variable encode : json -> string.

(** [func (p *publisher) event(n Notifier, action string) string] *)
Definition event {N} `{Notifier N} (p : publisher) (n : N) (action : string)
  : string :=
  if camelCase p then ModelName n ++ strings_Title action
  else ModelName n ++ "_" ++ action.

(** [func (p *publisher) sendDirectMessage(input, event string, retryCount ...int)] *)
Fixpoint sendDirectMessage (fuel : nat) (p : publisher) (input : SendMessageInput)
    (event : string) (retryCount : list Z) : M unit :=
  match fuel with
  | O => out_of_fuel
  | S fuel' =>
      let c := match retryCount with
               | [] => 0%Z
               | r :: _ => r
               end in
      if (maxRetryCount <? c)%Z then mret tt
      else
        err ← SendMessage input;
        match err with
        | Some e =>
            if String.eqb (Error e) (Error errDataLimit)
            then panic (Error (Context ErrBodyOverflow e))
            else
              Println [Error ErrPublish];;
              Sleep (10 * Second);;
              sendDirectMessage fuel' p input event [wrap64 (c + 1)]
        | None => mret tt
        end
  end.

(** The closure [retrier] of [send].  It captures [c] and [snsInput] from
    [send]; its own parameters are [input] and [retryCount]. *)
Fixpoint retrier (fuel : nat) (p : publisher) (c : Z) (snsInput : PublishInput)
    (input : PublishInput) (retryCount : Z) : M unit :=
  match fuel with
  | O => out_of_fuel
  | S fuel' =>
      if (maxRetryCount <? c)%Z then mret tt
      else
        err ← Publish snsInput;
        match err with
        | Some e =>
            if String.eqb (Error e) (Error errDataLimit)
            then panic (Error (Context ErrBodyOverflow e))
            else
              Println [Error (Context ErrPublish e); " retrying in 10s"];;
              Sleep (10 * Second);;
              retrier fuel' p c snsInput input (wrap64 (retryCount + 1))
        | None => mret tt
        end
  end.

(** [func (p *publisher) send(body interface{}, event string, retryCount ...int)] *)
Definition send {T} `{Marshaler T} (fuel : nat) (p : publisher) (body : T)
    (event : string) (retryCount : list Z) : M unit :=
  let c := match retryCount with
           | [] => 0%Z
           | r :: _ => r
           end in
  if (maxRetryCount <? c)%Z then mret tt
  else
    match json_Marshal encode body with
    | inr err => panic (Error (Context ErrMarshal err))
    | inl out =>
        let snsInput :=
          {| pub_Message := Some out;
             pub_MessageAttributes :=
               Some (defaultSNSAttributes event (p_attributes p));
             TopicArn := Some (arn p) |} in
        retrier fuel p c snsInput snsInput 0
    end.

(** The publishing operations start their send with [go]; the caller gets
    nothing back.  Each is given here as the goroutine it starts. *)

(** [func (p *publisher) Create(n Notifier)] *)
Definition Create {N} `{Notifier N} `{Marshaler N} (fuel : nat) (p : publisher)
    (n : N) : M unit :=
  send fuel p n (event p n "created") [].

(** [func (p *publisher) Delete(n Notifier)] *)
Definition Delete {N} `{Notifier N} `{Marshaler N} (fuel : nat) (p : publisher)
    (n : N) : M unit :=
  send fuel p n (event p n "deleted") [].

(** [func (p *publisher) Update(n Notifier)] *)
Definition Update {N} `{Notifier N} `{Marshaler N} (fuel : nat) (p : publisher)
    (n : N) : M unit :=
  send fuel p n (event p n "updated") [].

(** [func (p *publisher) Modify(n Notifier, changes interface{})] *)
Definition Modify {N C} `{Notifier N} `{Marshaler N} `{Marshaler C}
    (fuel : nat) (p : publisher) (n : N) (changes : C) : M unit :=
  send fuel p (newModify n changes) (event p n "modified") [].

(** [func (p *publisher) Dispatch(n Notifier, event string)] *)
Definition Dispatch {N} `{Notifier N} `{Marshaler N} (fuel : nat) (p : publisher)
    (n : N) (action : string) : M unit :=
  send fuel p n (event p n action) [].

(** [func (p *publisher) Message(queue, event string, body interface{})] *)
Definition Message {T} `{Marshaler T} (fuel : nat) (p : publisher)
    (queue event : string) (body : T) : M unit :=
  let name := p_env p ++ "-" ++ queue in
  match json_Marshal encode body with
  | inr err =>
      match logger p with
      | Some _ => Println [Error (Context ErrMarshal err)]
      | None => panic nilDereference
      end
  | inl out =>
      let u := sqsURL p ++ name in
      let sqsInput :=
        {| MessageBody := Some out;
           send_MessageAttributes :=
             Some (defaultSQSAttributes event (p_attributes p));
           QueueUrl := Some u |} in
      sendDirectMessage fuel p sqsInput event []
  end.

End Sending.

End Publisher.

(** ** Well-formed attributes *)

(** An attribute is string-valued under [key] when its entry, if there is
    one, is a non-nil pointer to a value whose [StringValue] is not nil. *)
Definition string_valued (m : sqs_Message) (key : string) : Prop :=
  match map_lookup_ok (MessageAttributes m) key with
  | None => True
  | Some None => False
  | Some (Some v) => is_Some (StringValue v)
  end.

(** ** Rounds of a retried send *)

(** One failed attempt of the consumer's direct send: the request, the log
    line and the ten seconds of sleep. *)
Definition consumer_round (input : SendMessageInput) (name : string) (e : error)
  : list event :=
  [EvSendMessage input; EvLog [Error (Context ErrPublish e); name];
   EvSleep (10 * Second)].

(** One failed attempt of the publisher's direct send. *)
Definition direct_round (input : SendMessageInput) : list event :=
  [EvSendMessage input; EvLog [Error ErrPublish]; EvSleep (10 * Second)].

(** One failed attempt of the publisher's fan-out send. *)
Definition publish_round (input : PublishInput) (e : error) : list event :=
  [EvPublish input; EvLog [Error (Context ErrPublish e); " retrying in 10s"];
   EvSleep (10 * Second)].

(** * Concrete inputs *)

Definition always {A} (a : A) : script A := {| upcoming := []; thereafter := a |}.

(** A world whose backend accepts every request, has nothing to deliver and
    never signals completion; its queue holds one message. *)
Definition calm : World :=
  {| queue := ["receipt-1"];
     backend := always None;
     inbox := always (inr []);
     signals := always false;
     trace := [] |}.

Definition string_attribute (s : string) : ptr MessageAttributeValue :=
  Some {| DataType := Some "String"; StringValue := Some s |}.

(** A Binary attribute carries its value in [BinaryValue]; its
    [StringValue] is nil. *)
Definition binary_attribute : ptr MessageAttributeValue :=
  Some {| DataType := Some "Binary"; StringValue := None |}.

Definition raw_message (attrs : attribute_map) : sqs_Message :=
  {| Body := Some "{}"; MessageAttributes := attrs; ReceiptHandle := Some "receipt-1" |}.

(** A message with no attributes at all. *)
Definition bare_message : sqs_Message := raw_message None.

(** A message with a custom attribute and no route. *)
Definition routeless_message : sqs_Message :=
  raw_message (Some {["correlationId" := string_attribute "42"]}).

(** A message routed to [post_created]. *)
Definition post_created_message : sqs_Message :=
  raw_message (Some {["route" := string_attribute "post_created"]}).

(** A message whose route attribute is Binary. *)
Definition binary_route_message : sqs_Message :=
  raw_message (Some {["route" := binary_attribute]}).

(** A routed message with a Binary custom attribute. *)
Definition binary_trace_message : sqs_Message :=
  raw_message (Some (<["trace" := binary_attribute]>
                       {["route" := string_attribute "post_created"]})).

Definition a_consumer : consumer :=
  {| handlers := ∅; env := "dev";
     QueueURL := "http://local.goaws:4100/queue/dev-post-worker";
     VisibilityTimeout := 30; workerPool := 30; extensionLimit := 2;
     attributes := [] |}.

(** A world about to deliver the given batches, one per poll. *)
Definition delivering (batches : list (list sqs_Message)) : World :=
  {| queue := ["receipt-1"];
     backend := always None;
     inbox := {| upcoming := map inr batches; thereafter := inr [] |};
     signals := always false;
     trace := [] |}.

(** Handlers of the package's own tests: one that succeeds, one that fails. *)
Definition test_handler : Handler := fun ctx m => mret None.

Definition err_handler : Handler := fun ctx m =>
  mret (Some (SQSError_error ErrGetMessage)).

Definition post_event_message : sqs_Message :=
  raw_message (Some {["route" := string_attribute "post_event"]}).

Definition no_event_message : sqs_Message :=
  raw_message (Some {["route" := string_attribute "no_event"]}).

(** The consumer of [TestRun], without adapters. *)
Definition test_consumer : consumer :=
  Consumer.RegisterHandler
    (Consumer.RegisterHandler a_consumer "post_published" test_handler [])
    "post_event" err_handler [].

(** Adapters and a handler that leave their names in the log. *)
Definition logging_middleware (name : string) : Adapter :=
  WithMiddleware (fun ctx m => Println [name];; mret None).

Definition logging_recovery (name : string) : Adapter :=
  WithRecovery (fun _ => Println [name];; mret false).

Definition logging_handler : Handler := fun ctx m =>
  Println ["handler"];; mret None.

Definition logging_adapters : list Adapter :=
  [logging_recovery "recovery 1"; logging_middleware "middleware 1";
   logging_recovery "recovery 2"; logging_middleware "middleware 2"].

(** A backend that refuses every request with the same error. *)
Definition refusing (e : error) : World :=
  {| queue := ["receipt-1"];
     backend := always (Some e);
     inbox := always (inr []);
     signals := always false;
     trace := [] |}.

(** A backend that refuses the first [n] requests and accepts the rest. *)
Definition refusing_first (n : nat) (e : error) : World :=
  {| queue := ["receipt-1"];
     backend := {| upcoming := replicate n (Some e); thereafter := None |};
     inbox := always (inr []);
     signals := always false;
     trace := [] |}.

(** A transient failure of the connection. *)
Definition connection_refused : error :=
  errorString "RequestError: send request failed: connection refused".

Definition a_publisher : publisher :=
  {| arn := "arn:aws:sns:local:000000000000:todolist-dev"; p_env := "dev";
     sqsURL := "http://localhost:4100/"; camelCase := false;
     p_attributes := []; logger := None |}.

Definition an_input : SendMessageInput :=
  {| MessageBody := Some "{}";
     send_MessageAttributes := Some (defaultSQSAttributes "test_event" []);
     QueueUrl := Some "http://local.goaws:4100/queue/dev-post-worker" |}.

(** [type sample struct { Val string `json:"val"` }] of the package's tests,
    with the document [encoding/json] makes of it and reads into it. *)
Record sample : Type := { Val : string }.

#[global] Instance sample_Notifier : Notifier sample := fun _ => "sample".

#[global] Instance sample_Marshaler : Marshaler sample := fun s =>
  inl (JObject [("val", JString (Val s))]).

Fixpoint sample_members (members : list (string * json)) (out : sample)
  : sample + error :=
  match members with
  | [] => inl out
  | (key, v) :: rest =>
      match field_for ["val"] key, v with
      | Some _, JString s => sample_members rest {| Val := s |}
      | Some _, JNull => sample_members rest out
      | Some _, _ =>
          inr (errorString "json: cannot unmarshal into Go struct field sample.val of type string")
      | None, _ => sample_members rest out
      end
  end.

#[global] Instance sample_Unmarshaler : Unmarshaler sample := fun j out =>
  match j with
  | JObject members => sample_members members out
  | JNull => inl out
  | _ => inr (errorString "json: cannot unmarshal into Go value of type gosqs.sample")
  end.

(** [map[string]string], the change-set of [TestModify]. *)
#[global] Instance changes_Marshaler : Marshaler (gmap string string) := fun m =>
  inl (JObject (map (fun kv => (fst kv, JString (snd kv))) (map_to_list m))).

Fixpoint changes_members (members : list (string * json)) (out : gmap string string)
  : gmap string string + error :=
  match members with
  | [] => inl out
  | (key, JString s) :: rest => changes_members rest (<[key := s]> out)
  | (key, JNull) :: rest => changes_members rest (<[key := EmptyString]> out)
  | _ :: _ =>
      inr (errorString "json: cannot unmarshal into Go value of type string")
  end.

#[global] Instance changes_Unmarshaler : Unmarshaler (gmap string string) :=
  fun j out =>
  match j with
  | JObject members => changes_members members out
  | JNull => inl out
  | _ => inr (errorString "json: cannot unmarshal into Go value of type map[string]string")
  end.

(** ** A text layer *)

(** The compact text [json.Marshal] writes, for strings without escapes. *)
Definition dquote : ascii := ascii_of_nat 34.

Definition quoted (s : string) : string :=
  String dquote (s ++ String dquote EmptyString).

Fixpoint compact_text (j : json) : string :=
  match j with
  | JNull => "null"
  | JBool true => "true"
  | JBool false => "false"
  | JNumber n => pretty n
  | JString s => quoted s
  | JArray items =>
      "[" ++ (fix commas (l : list json) : string :=
                match l with
                | [] => EmptyString
                | [x] => compact_text x
                | x :: rest => compact_text x ++ "," ++ commas rest
                end) items ++ "]"
  | JObject members =>
      "{" ++ (fix commas (l : list (string * json)) : string :=
                match l with
                | [] => EmptyString
                | [(k, x)] => quoted k ++ ":" ++ compact_text x
                | (k, x) :: rest => quoted k ++ ":" ++ compact_text x ++ "," ++ commas rest
                end) members ++ "}"
  end.

(** A reader for the compact text of documents built from objects, strings
    and null. *)
Fixpoint read_string (s : string) : option (string * string) :=
  match s with
  | EmptyString => None
  | String a rest =>
      if Ascii.eqb a dquote then Some (EmptyString, rest)
      else match read_string rest with
           | Some (str, rest') => Some (String a str, rest')
           | None => None
           end
  end.

Fixpoint read_value (fuel : nat) (s : string) : option (json * string) :=
  match fuel with
  | O => None
  | S fuel' =>
      match s with
      | String "n" (String "u" (String "l" (String "l" rest))) => Some (JNull, rest)
      | String "{" (String "}" rest) => Some (JObject [], rest)
      | String "{" rest =>
          match read_members fuel' rest with
          | Some (members, rest') => Some (JObject members, rest')
          | None => None
          end
      | String a rest =>
          if Ascii.eqb a dquote then
            match read_string rest with
            | Some (str, rest') => Some (JString str, rest')
            | None => None
            end
          else None
      | EmptyString => None
      end
  end
with read_members (fuel : nat) (s : string) : option (list (string * json) * string) :=
  match fuel with
  | O => None
  | S fuel' =>
      match s with
      | String a rest =>
          if Ascii.eqb a dquote then
            match read_string rest with
            | Some (key, String ":" rest1) =>
                match read_value fuel' rest1 with
                | Some (v, String "," rest2) =>
                    match read_members fuel' rest2 with
                    | Some (members, rest3) => Some ((key, v) :: members, rest3)
                    | None => None
                    end
                | Some (v, String "}" rest2) => Some ([(key, v)], rest2)
                | _ => None
                end
            | _ => None
            end
          else None
      | EmptyString => None
      end
  end.

Definition read_text (s : string) : option json :=
  match read_value (String.length s) s with
  | Some (j, EmptyString) => Some j
  | _ => None
  end.

(** What [send] publishes for the sample entity and the given route. *)
Definition sample_publish (name : string) : PublishInput :=
  {| pub_Message := Some (compact_text (JObject [("val", JString "val")]));
     pub_MessageAttributes := Some (defaultSNSAttributes name []);
     TopicArn := Some (arn a_publisher) |}.

(** The message that carries the payload of [TestModify]. *)
Definition modified_message : sqs_Message :=
  {| Body := Some (compact_text
                     (JObject [("body", JObject [("val", JString "val")]);
                               ("changes", JObject [("oldName", JString "newName")])]));
     MessageAttributes := Some {["route" := string_attribute "sample_modified"]};
     ReceiptHandle := Some "receipt-1" |}.

(** * More of the package *)

(** ** src/errs.go: the remaining error values *)

Definition ErrUndefinedPublisher := newSQSErr "sqs publisher is undefined".
Definition ErrInvalidCreds := newSQSErr "invalid aws credentials".
Definition ErrQueueURL := newSQSErr "undefined queueURL".

(** [type Logger interface { Println(v ...interface{}) }]: the package's
    own [*defaultLogger], or a logger of the caller's. *)
Inductive Logger : Type :=
| defaultLogger
| customLogger (name : string).

(** ** src/config.go: the configuration *)

(** A Go value passed as [interface{}], as far as a type assertion to [int]
    or [string] can tell. *)
Inductive go_value : Type :=
| go_int (n : Z)
| go_string (s : string)
| go_other (type_name : string).

(** [type dataType string] and its two constants. *)
Definition dataType : Type := string.
Definition DataTypeNumber : dataType := "Number".
Definition DataTypeString : dataType := "String".

(** [strconv.Itoa] *)
Definition strconv_Itoa (n : Z) : string := pretty n.

Module Cfg.

(** [type Config struct], without the session provider. *)
Record Config : Type := {
  Key : string;
  Secret : string;
  Region : string;
  Hostname : string;
  AWSAccountID : string;
  Env : string;
  TopicPrefix : string;
  TopicARN : string;
  QueueURL : string;
  VisibilityTimeout : Z;
  RetryCount : Z;
  WorkerPool : Z;
  ExtensionLimit : ptr Z;
  Attributes : list customAttribute;
  Logger : ptr Logger
}.

Definition set_Attributes (c : Config) (attrs : list customAttribute) : Config :=
  {| Key := Key c; Secret := Secret c; Region := Region c;
     Hostname := Hostname c; AWSAccountID := AWSAccountID c; Env := Env c;
     TopicPrefix := TopicPrefix c; TopicARN := TopicARN c;
     QueueURL := QueueURL c; VisibilityTimeout := VisibilityTimeout c;
     RetryCount := RetryCount c; WorkerPool := WorkerPool c;
     ExtensionLimit := ExtensionLimit c; Attributes := attrs;
     Logger := Logger c |}.

(** [func (c *Config) NewCustomAttribute(dataType dataType, title string,
    value interface{}) error]: the configuration afterwards and the error. *)
Definition NewCustomAttribute (c : Config) (dt : dataType) (title : string)
    (value : go_value) : Config * option error :=
  if String.eqb dt DataTypeNumber then
    match value with
    | go_int val =>
        (set_Attributes c
           (Attributes c ++
            [{| Title := title; ca_DataType := dt; Value := strconv_Itoa val |}]),
         None)
    | _ => (c, Some (SQSError_error ErrMarshal))
    end
  else
    match value with
    | go_string val =>
        (set_Attributes c
           (Attributes c ++
            [{| Title := title; ca_DataType := dt; Value := val |}]),
         None)
    | _ => (c, Some (SQSError_error ErrMarshal))
    end.

(** [func (r retryer) MaxRetries() int] *)
Definition MaxRetries (retryCount : Z) : Z :=
  if (0 <? retryCount)%Z then retryCount else 10%Z.

End Cfg.

(** ** src/unnamed/part_002: construction, the worker, direct messages *)

(** The fields of [consumer] that [NewConsumer] fills in besides those of
    the record [consumer]: the logger. *)
Record new_consumer : Type := {
  built : consumer;
  built_logger : ptr Logger
}.

(** [func (c *consumer) Logger() Logger] *)
Definition consumer_Logger (l : ptr Logger) : Logger :=
  match l with
  | None => defaultLogger
  | Some x => x
  end.

Module Gosqs.

Section Construction.

(** A session of the AWS SDK, and how one is made of a configuration. *)
Variable session : Type.
Variable newSession : Cfg.Config -> session + error.

(** [sqs.GetQueueUrl]: the response's [QueueUrl], or an error. *)
Variable GetQueueUrl : string -> ptr string + error.

(** [func NewConsumer(c Config, queueName string) (Consumer, error)] *)
Definition NewConsumer (c : Cfg.Config) (queueName : string)
  : outcome (new_consumer + error) :=
  match newSession c with
  | inr err => Done (inr err)
  | inl sess =>
      let logger :=
        match Cfg.Logger c with
        | None => Some defaultLogger
        | Some _ => None
        end in
      let visibilityTimeout :=
        if (Cfg.VisibilityTimeout c =? 0)%Z then 30%Z else Cfg.VisibilityTimeout c in
      let pool :=
        if (Cfg.WorkerPool c =? 0)%Z then 30%Z else Cfg.WorkerPool c in
      let limit :=
        match Cfg.ExtensionLimit c with
        | None => 2%Z
        | Some l => l
        end in
      let finish (url : string) : new_consumer :=
        {| built := {| handlers := ∅; env := Cfg.Env c; QueueURL := url;
                       VisibilityTimeout := visibilityTimeout;
                       workerPool := pool; extensionLimit := limit;
                       attributes := [] |};
           built_logger := logger |} in
      if String.eqb (Cfg.QueueURL c) "" then
        let name := Cfg.Env c ++ "-" ++ queueName in
        match GetQueueUrl name with
        | inr err => Done (inr err)
        | inl o => outcome_bind (deref o) (fun url => Done (inl (finish url)))
        end
      else Done (inl (finish (Cfg.QueueURL c)))
  end.

(** [func NewPublisher(c Config) (Publisher, error)] *)
Definition NewPublisher (c : Cfg.Config) : publisher + error :=
  match newSession c with
  | inr err => inr err
  | inl sess =>
      let arn :=
        if String.eqb (Cfg.TopicARN c) "" then
          "arn:aws:sns:" ++ Cfg.Region c ++ ":" ++ Cfg.AWSAccountID c ++ ":"
            ++ Cfg.TopicPrefix c ++ "-" ++ Cfg.Env c
        else Cfg.TopicARN c in
      let sqsURL :=
        if String.eqb (Cfg.Hostname c) "" then
          "https://sqs." ++ Cfg.Region c ++ ".amazonaws.com/"
            ++ Cfg.AWSAccountID c ++ "/"
        else Cfg.Hostname c ++ "/" in
      inl {| arn := arn; p_env := Cfg.Env c; sqsURL := sqsURL;
             camelCase := false; p_attributes := []; logger := None |}
  end.

(** Text of a document, as in [Publisher]. *)
Variable encode : json -> string.

(** [func (c *consumer) MessageSelf(ctx, event string, body interface{})],
    as the goroutine it starts. *)
Definition MessageSelf {T} `{Marshaler T} (fuel : nat) (c : consumer)
    (ctx : context_Context) (name : string) (payload : T) : M unit :=
  match json_Marshal encode payload with
  | inr err => Println [Error (Context ErrMarshal err); name]
  | inl out =>
      let sqsInput :=
        {| MessageBody := Some out;
           send_MessageAttributes :=
             Some (defaultSQSAttributes name (attributes c));
           QueueUrl := Some (QueueURL c) |} in
      Consumer.sendDirectMessage fuel c ctx sqsInput name
  end.

(** [func (c *consumer) Message(ctx, queue, event string, body interface{})],
    as the goroutine it starts. *)
Definition Message {T} `{Marshaler T} (fuel : nat) (c : consumer)
    (ctx : context_Context) (queue name : string) (payload : T) : M unit :=
  let queueName := env c ++ "-" ++ queue in
  match GetQueueUrl queueName with
  | inr err => Println [Error (Context ErrQueueURL err); queueName]
  | inl queueUrl =>
      match json_Marshal encode payload with
      | inr err => Println [Error (Context ErrMarshal err); name]
      | inl out =>
          let sqsInput :=
            {| MessageBody := Some out;
               send_MessageAttributes :=
                 Some (defaultSQSAttributes name (attributes c));
               QueueUrl := queueUrl |} in
          Consumer.sendDirectMessage fuel c ctx sqsInput name
      end
  end.

End Construction.

End Gosqs.

(** [func (c *consumer) worker(id int, messages <-chan *message)], over the
    messages it receives from the channel. *)
Fixpoint worker (c : consumer) (id : Z) (messages : list message) : M unit :=
  match messages with
  | [] => mret tt
  | m :: rest => Consumer.worker_job c m;; worker c id rest
  end.

(** A series of [RegisterHandler] calls. *)
Definition registration : Type := string * Handler * list Adapter.

Definition register_all (c : consumer) (regs : list registration) : consumer :=
  foldl (fun c reg => Consumer.RegisterHandler c (fst (fst reg)) (snd (fst reg)) (snd reg))
        c regs.

(** ** Lease extension, turn by turn *)

(** The durations of [k] successive extension requests: each adds the lease
    to the one before, in [int64]. *)
Fixpoint leases (extension lease : Z) (k : nat) : list Z :=
  match k with
  | O => []
  | S k' =>
      let extension := wrap64 (extension + lease) in
      extension :: leases extension lease k'
  end.

(** The sleep that opens every turn of the extension loop. *)
Definition extend_sleep (c : consumer) : event :=
  EvSleep (wrap64 (wrap64 (VisibilityTimeout c - 10) * Second)).

(** The turns of the loop that end in an extension request. *)
Definition extend_turns (c : consumer) (m : message) (durations : list Z)
  : list event :=
  concat (map (fun d =>
                 [extend_sleep c;
                  EvChangeMessageVisibility (QueueURL c)
                    (ReceiptHandle (Message m)) d])
              durations).

(** ** More concrete inputs *)

(** A handler that panics, and a deferred function that recovers. *)
Definition panicking_handler : Handler := fun ctx m => panic "boom".

Definition recovering : Recovery := fun p =>
  match p with
  | Some v => Println ["recovered"; v];; mret true
  | None => mret false
  end.

Definition post_published_message : sqs_Message :=
  raw_message (Some {["route" := string_attribute "post_published"]}).

(** A handler that returns, with nil or an error, whatever it is given. *)
Definition returning (h : Handler) : Prop :=
  forall ctx m w, exists r w', h ctx m w = (Done r, w').

(** A world in which the completion signal is seen at the check after [k]
    unsuccessful ones, against an accepting backend. *)
Definition completing_after (k : nat) : World :=
  {| queue := ["receipt-1"];
     backend := always None;
     inbox := always (inr []);
     signals := {| upcoming := replicate k false ++ [true]; thereafter := true |};
     trace := [] |}.

(** A world whose backend accepts [k] requests and refuses the next. *)
Definition refusing_after (k : nat) (e : error) : World :=
  {| queue := ["receipt-1"];
     backend := {| upcoming := replicate k None ++ [Some e]; thereafter := None |};
     inbox := always (inr []);
     signals := always false;
     trace := [] |}.

(** The number of receive requests of a trace. *)
Definition is_receive (e : event) : bool :=
  match e with
  | EvReceiveMessage _ => true
  | _ => false
  end.

Definition receive_count (tr : list event) : nat := length (filter is_receive tr).

(** The workers started by [Consume]: [go c.worker(w, jobs)] for
    [w = 1 .. n]. *)
Definition workers_started (n : nat) : list event :=
  map (fun i => EvGo (GoWorker (Z.of_nat i))) (seq 1 n).

(** What the fan-out send hands to [sns.Publish] for a route and a text. *)
Definition published (p : publisher) (name out : string) : PublishInput :=
  {| pub_Message := Some out;
     pub_MessageAttributes := Some (defaultSNSAttributes name (p_attributes p));
     TopicArn := Some (arn p) |}.

(** A world after one more accepted request. *)
Definition accepted (e : event) (rest : script (option error)) (w : World) : World :=
  {| queue := queue w; backend := rest; inbox := inbox w; signals := signals w;
     trace := trace w ++ [e] |}.

(** Whether a value has the Go type a data type asks for: [int] for
    [Number], [string] for every other data type. *)
Definition agrees (dt : dataType) (value : go_value) : bool :=
  match value with
  | go_int _ => String.eqb dt DataTypeNumber
  | go_string _ => negb (String.eqb dt DataTypeNumber)
  | go_other _ => false
  end.

(** The configurations of [TestNewPublisher] and [TestNewConsumer]. *)
Definition test_config : Cfg.Config :=
  {| Cfg.Key := "key"; Cfg.Secret := "secret"; Cfg.Region := "local";
     Cfg.Hostname := "http://localhost:4100";
     Cfg.AWSAccountID := "000000000000"; Cfg.Env := "dev";
     Cfg.TopicPrefix := "todolist"; Cfg.TopicARN := "";
     Cfg.QueueURL := ""; Cfg.VisibilityTimeout := 0; Cfg.RetryCount := 0;
     Cfg.WorkerPool := 0; Cfg.ExtensionLimit := None;
     Cfg.Attributes :=
       [{| Title := "correlationId"; ca_DataType := "String"; Value := "42" |}];
     Cfg.Logger := Some (customLogger "zap") |}.

(** A session provider that always succeeds, and a resolver of queue names
    in the manner of the emulator. *)
Definition any_session (c : Cfg.Config) : unit + error := inl tt.

Definition local_queue_url (name : string) : ptr string + error :=
  inl (Some ("http://local.goaws:4100/queue/" ++ name)).

(** A middleware that fails: it logs and returns an error. *)
Definition failing_middleware : context_Context -> message -> M (option error) :=
  fun ctx m => Println ["unauthorized"];; mret (Some (errorString "unauthorized")).

(** [ErrInvalidVal] of src/errs.go. *)
Definition ErrInvalidVal :=
  newSQSErr "value type does not match specified datatype".

(** The text [NewCustomAttribute] stores for a value. *)
Definition attribute_text (value : go_value) : string :=
  match value with
  | go_int n => strconv_Itoa n
  | go_string s => s
  | go_other _ => ""
  end.

(** ** src/sqstesting/stubConsumer.go *)

Module Sqstesting.

(** [type StubMessage struct { body []byte; Err error; Endpoint string }] *)
Record StubMessage : Type := {
  sm_body : string;
  sm_Err : option error;
  Endpoint : string
}.

(** The anonymous [struct { Body interface{}; Changes interface{} }] of
    [NewStubModified]: the fields have no tags, so the encoder writes them
    under their own names. *)
Record payload (B C : Type) : Type := {
  p_Body : B;
  p_Changes : C
}.
Arguments p_Body {B C} _.
Arguments p_Changes {B C} _.

#[global] Instance payload_Marshaler {B C} `{Marshaler B} `{Marshaler C}
  : Marshaler (payload B C) := fun s =>
  match MarshalJSON (p_Body s) with
  | inr e => inr e
  | inl b =>
      match MarshalJSON (p_Changes s) with
      | inr e => inr e
      | inl c => inl (JObject [("Body", b); ("Changes", c)])
      end
  end.

Section Text.

Variable encode : json -> string.
Variable decode : string -> option json.

(** [func NewStubMessage(t *testing.T, in interface{}) *StubMessage]: the
    message, or the text [t.Fatalf] ends the test with. *)
Definition NewStubMessage {T} `{Marshaler T} (input : T) : StubMessage + string :=
  match json_Marshal encode input with
  | inr err => inr ("error while marshalling data " ++ Error err)
  | inl data => inl {| sm_body := data; sm_Err := None; Endpoint := "" |}
  end.

(** [func NewStubModified(t *testing.T, in interface{}, changes interface{}) *StubMessage] *)
Definition NewStubModified {B C} `{Marshaler B} `{Marshaler C}
    (input : B) (changes : C) : StubMessage + string :=
  let payload := {| p_Body := input; p_Changes := changes |} in
  match json_Marshal encode payload with
  | inr err => inr ("error while marshalling data " ++ Error err)
  | inl data => inl {| sm_body := data; sm_Err := None; Endpoint := "" |}
  end.

(** [func (sm *StubMessage) Route() string] *)
Definition Route (sm : StubMessage) : string := Endpoint sm.

(** [func (sm *StubMessage) Decode(out interface{}) error] *)
Definition Decode {T} `{Unmarshaler T} (sm : StubMessage) (out : T)
  : option error * T :=
  json_Unmarshal decode (sm_body sm) out.

(** [func (sm *StubMessage) DecodeModified(body interface{}, changes interface{}) error] *)
Definition DecodeModified {B C} `{Unmarshaler B} `{Unmarshaler C}
    (sm : StubMessage) (body : B) (changes : C) : option error * B * C :=
  let s := {| s_Body := body; s_Changes := changes |} in
  let r := Decode sm s in
  (fst r, s_Body (snd r), s_Changes (snd r)).

(** [func (sm *StubMessage) ErrorResponse(ctx context.Context, err error) error]:
    the message afterwards and the result. *)
Definition ErrorResponse (sm : StubMessage) (ctx : context_Context)
    (err : option error) : StubMessage * option error :=
  ({| sm_body := sm_body sm; sm_Err := err; Endpoint := Endpoint sm |}, err).

(** [func (sm *StubMessage) Success(ctx context.Context) error] *)
Definition Success (sm : StubMessage) (ctx : context_Context) : option error := None.

(** [func (sm *StubMessage) Attribute(key string) string] *)
Definition Attribute (sm : StubMessage) (key : string) : string := "".

End Text.

(** [type SentMessage struct { QueueName string; Event string; Body interface{} }],
    over the type [V] of the bodies. *)
Record SentMessage (V : Type) : Type := {
  QueueName : string;
  Event : string;
  sent_Body : V
}.
Arguments QueueName {V} _.
Arguments Event {V} _.
Arguments sent_Body {V} _.

(** [type StubPublisher struct] *)
Record StubPublisher (V : Type) : Type := {
  DirectMessages : list (SentMessage V);
  DispatcherMessages : list (SentMessage V);
  EventList : list string
}.
Arguments DirectMessages {V} _.
Arguments DispatcherMessages {V} _.
Arguments EventList {V} _.

(** [func NewStubDispatcher() *StubPublisher] *)
Definition NewStubDispatcher {V} : StubPublisher V :=
  {| DirectMessages := []; DispatcherMessages := []; EventList := [] |}.

Module Stub.

Section Recording.

Context {V : Type} `{Notifier V}.

(** [func (c *StubPublisher) Create(n gosqs.Notifier)] *)
Definition Create (c : StubPublisher V) (n : V) : StubPublisher V :=
  let sm := {| QueueName := ""; Event := ModelName n ++ "_" ++ "created";
               sent_Body := n |} in
  {| DirectMessages := DirectMessages c;
     DispatcherMessages := DispatcherMessages c ++ [sm];
     EventList := EventList c ++ [Event sm] |}.

(** [func (c *StubPublisher) Delete(n gosqs.Notifier)] *)
Definition Delete (c : StubPublisher V) (n : V) : StubPublisher V :=
  let sm := {| QueueName := ""; Event := ModelName n ++ "_" ++ "deleted";
               sent_Body := n |} in
  {| DirectMessages := DirectMessages c;
     DispatcherMessages := DispatcherMessages c ++ [sm];
     EventList := EventList c ++ [Event sm] |}.

(** [func (c *StubPublisher) Update(n gosqs.Notifier)] *)
Definition Update (c : StubPublisher V) (n : V) : StubPublisher V :=
  let sm := {| QueueName := ""; Event := ModelName n ++ "_" ++ "updated";
               sent_Body := n |} in
  {| DirectMessages := DirectMessages c;
     DispatcherMessages := DispatcherMessages c ++ [sm];
     EventList := EventList c ++ [Event sm] |}.

(** [func (c *StubPublisher) Modify(n gosqs.Notifier, changes interface{})]:
    the changes are not recorded. *)
Definition Modify {C} (c : StubPublisher V) (n : V) (changes : C) : StubPublisher V :=
  let sm := {| QueueName := ""; Event := ModelName n ++ "_" ++ "modified";
               sent_Body := n |} in
  {| DirectMessages := DirectMessages c;
     DispatcherMessages := DispatcherMessages c ++ [sm];
     EventList := EventList c ++ [Event sm] |}.

(** [func (c *StubPublisher) Dispatch(n gosqs.Notifier, event string)] *)
Definition Dispatch (c : StubPublisher V) (n : V) (event : string) : StubPublisher V :=
  let sm := {| QueueName := ""; Event := ModelName n ++ "_" ++ event;
               sent_Body := n |} in
  {| DirectMessages := DirectMessages c;
     DispatcherMessages := DispatcherMessages c ++ [sm];
     EventList := EventList c ++ [Event sm] |}.

(** [func (c *StubPublisher) Message(queue, event string, body interface{})] *)
Definition Message (c : StubPublisher V) (queue event : string) (body : V)
  : StubPublisher V :=
  let sm := {| QueueName := queue; Event := event; sent_Body := body |} in
  {| DirectMessages := DirectMessages c ++ [sm];
     DispatcherMessages := DispatcherMessages c;
     EventList := EventList c ++ [Event sm] |}.

End Recording.

End Stub.

(** [type StubConsumer struct { DirectMessages []SentMessage; EventList []string }] *)
Record StubConsumer (V : Type) : Type := {
  c_DirectMessages : list (SentMessage V);
  c_EventList : list string
}.
Arguments c_DirectMessages {V} _.
Arguments c_EventList {V} _.

(** [func NewStubConsumer() *StubConsumer] *)
Definition NewStubConsumer {V} : StubConsumer V :=
  {| c_DirectMessages := []; c_EventList := [] |}.

Module StubC.

Section Recording.

Context {V : Type}.

(** [func (c *StubConsumer) Consume()] *)
Definition Consume (c : StubConsumer V) : StubConsumer V := c.

(** [func (c *StubConsumer) MessageSelf(ctx context.Context, event string, body interface{})] *)
Definition MessageSelf (c : StubConsumer V) (ctx : context_Context)
    (event : string) (body : V) : StubConsumer V :=
  let sm := {| QueueName := "self"; Event := event; sent_Body := body |} in
  {| c_DirectMessages := c_DirectMessages c ++ [sm];
     c_EventList := c_EventList c ++ [Event sm] |}.

(** [func (c *StubConsumer) Message(ctx context.Context, queue, event string, body interface{})] *)
Definition Message (c : StubConsumer V) (ctx : context_Context)
    (queue event : string) (body : V) : StubConsumer V :=
  let sm := {| QueueName := queue; Event := event; sent_Body := body |} in
  {| c_DirectMessages := c_DirectMessages c ++ [sm];
     c_EventList := c_EventList c ++ [Event sm] |}.

(** [func (c *StubConsumer) RegisterHandler(name string, h gosqs.Handler, a ...gosqs.Adapter)] *)
Definition RegisterHandler (c : StubConsumer V) (name : string) (h : Handler)
    (a : list Adapter) : StubConsumer V := c.

End Recording.

End StubC.

End Sqstesting.

(** One call of the [Publisher] interface, with bodies and change-sets of
    one type. *)
Inductive call (V : Type) : Type :=
| CallCreate (n : V)
| CallDelete (n : V)
| CallUpdate (n : V)
| CallModify (n changes : V)
| CallDispatch (n : V) (action : string)
| CallMessage (queue name : string) (payload : V).
Arguments CallCreate {V} _.
Arguments CallDelete {V} _.
Arguments CallUpdate {V} _.
Arguments CallModify {V} _ _.
Arguments CallDispatch {V} _ _.
Arguments CallMessage {V} _ _ _.

(** The call, made on the stub. *)
Definition stubbed {V} `{Notifier V} (s : Sqstesting.StubPublisher V) (c : call V)
  : Sqstesting.StubPublisher V :=
  match c with
  | CallCreate n => Sqstesting.Stub.Create s n
  | CallDelete n => Sqstesting.Stub.Delete s n
  | CallUpdate n => Sqstesting.Stub.Update s n
  | CallModify n changes => Sqstesting.Stub.Modify s n changes
  | CallDispatch n action => Sqstesting.Stub.Dispatch s n action
  | CallMessage queue name payload => Sqstesting.Stub.Message s queue name payload
  end.

(** The call, made on the publisher. *)
Definition performed {V} `{Notifier V} `{Marshaler V} (encode : json -> string)
    (fuel : nat) (p : publisher) (c : call V) : M unit :=
  match c with
  | CallCreate n => Publisher.Create encode fuel p n
  | CallDelete n => Publisher.Delete encode fuel p n
  | CallUpdate n => Publisher.Update encode fuel p n
  | CallModify n changes => Publisher.Modify encode fuel p n changes
  | CallDispatch n action => Publisher.Dispatch encode fuel p n action
  | CallMessage queue name payload => Publisher.Message encode fuel p queue name payload
  end.

Fixpoint performed_all {V} `{Notifier V} `{Marshaler V} (encode : json -> string)
    (fuel : nat) (p : publisher) (cs : list (call V)) : M unit :=
  match cs with
  | [] => mret tt
  | c :: rest => performed encode fuel p c;; performed_all encode fuel p rest
  end.

(** The route a request carries, and the routes of a trace's requests. *)
Definition route_sent (e : event) : option string :=
  match e with
  | EvPublish input =>
      Some (default "" (map_index (pub_MessageAttributes input) "route"
                          ≫= StringValue))
  | EvSendMessage input =>
      Some (default "" (map_index (send_MessageAttributes input) "route"
                          ≫= StringValue))
  | _ => None
  end.

Definition routes_sent (tr : list event) : list string :=
  omap route_sent tr.

(** ** src/adapters.go: the dispatcher in the context *)

(** A context key: the key's type and its text.  Keys of different types
    are different keys, whatever their text. *)
Record context_key : Type := {
  key_type : string;
  key_text : string
}.

Definition context_key_eqb (a b : context_key) : bool :=
  String.eqb (key_type a) (key_type b) && String.eqb (key_text a) (key_text b).

(** [const dispatcherKey = contextKey("dispatcher")] *)
Definition dispatcherKey : context_key :=
  {| key_type := "gosqs.contextKey"; key_text := "dispatcher" |}.

(** What a context holds under a key, as far as the assertion
    [.(Publisher)] can tell: a publisher, a value of another type, or nil. *)
Inductive context_value (P : Type) : Type :=
| value_publisher (p : P)
| value_other (type_name : string)
| value_nil.
Arguments value_publisher {P} _.
Arguments value_other {P} _.
Arguments value_nil {P}.

(** [context.Context] with the values given to it by [context.WithValue]. *)
Inductive valued_context (P : Type) : Type :=
| ctx_plain (c : context_Context)
| ctx_WithValue (parent : valued_context P) (key : context_key)
    (val : context_value P).
Arguments ctx_plain {P} _.
Arguments ctx_WithValue {P} _ _ _.

(** [ctx.Value(key)]: the value of the nearest ancestor with that key. *)
Fixpoint ctx_Value {P} (ctx : valued_context P) (key : context_key)
  : context_value P :=
  match ctx with
  | ctx_plain _ => value_nil
  | ctx_WithValue parent k val =>
      if context_key_eqb k key then val else ctx_Value parent key
  end.

(** [func WithDispatcher(ctx context.Context, pub Publisher) context.Context];
    [pub] may be the nil interface. *)
Definition WithDispatcher {P} (ctx : valued_context P) (pub : ptr P)
  : valued_context P :=
  ctx_WithValue ctx dispatcherKey
    match pub with
    | Some p => value_publisher p
    | None => value_nil
    end.

(** [func Dispatcher(ctx context.Context) (Publisher, error)] *)
Definition Dispatcher {P} (ctx : valued_context P) : ptr P * option error :=
  match ctx_Value ctx dispatcherKey with
  | value_publisher p => (Some p, None)
  | _ => (None, Some (SQSError_error ErrUndefinedPublisher))
  end.

(** [func MustDispatcher(ctx context.Context) Publisher] *)
Definition MustDispatcher {P} (ctx : valued_context P) : outcome P :=
  match ctx_Value ctx dispatcherKey with
  | value_publisher p => Done p
  | _ => Panicked (Error ErrUndefinedPublisher)
  end.

(** One message sent from within a consumer: to itself or to a queue. *)
Inductive consumer_call (V : Type) : Type :=
| CallMessageSelf (name : string) (payload : V)
| CallMessageTo (queue name : string) (payload : V).
Arguments CallMessageSelf {V} _ _.
Arguments CallMessageTo {V} _ _ _.

(** The call, made on the stub consumer. *)
Definition stubbed_consumer {V} (ctx : context_Context)
    (s : Sqstesting.StubConsumer V) (c : consumer_call V)
  : Sqstesting.StubConsumer V :=
  match c with
  | CallMessageSelf name payload => Sqstesting.StubC.MessageSelf s ctx name payload
  | CallMessageTo queue name payload =>
      Sqstesting.StubC.Message s ctx queue name payload
  end.

(** The call, made on the consumer. *)
Definition messaged {V} `{Marshaler V} (GetQueueUrl : string -> ptr string + error)
    (encode : json -> string) (fuel : nat) (c : consumer) (ctx : context_Context)
    (call : consumer_call V) : M unit :=
  match call with
  | CallMessageSelf name payload => Gosqs.MessageSelf encode fuel c ctx name payload
  | CallMessageTo queue name payload =>
      Gosqs.Message GetQueueUrl encode fuel c ctx queue name payload
  end.

Fixpoint messaged_all {V} `{Marshaler V} (GetQueueUrl : string -> ptr string + error)
    (encode : json -> string) (fuel : nat) (c : consumer) (ctx : context_Context)
    (calls : list (consumer_call V)) : M unit :=
  match calls with
  | [] => mret tt
  | call :: rest =>
      messaged GetQueueUrl encode fuel c ctx call;;
      messaged_all GetQueueUrl encode fuel c ctx rest
  end.

(** The queue a request is sent to. *)
Definition queue_sent (e : event) : option (ptr string) :=
  match e with
  | EvSendMessage input => Some (QueueUrl input)
  | _ => None
  end.

(** A world whose first receive request fails and whose second delivers a
    batch. *)
Definition failing_then_delivering (e : error) (batch : list sqs_Message) : World :=
  {| queue := ["receipt-1"];
     backend := always None;
     inbox := {| upcoming := [inl e; inr batch]; thereafter := inr [] |};
     signals := always false;
     trace := [] |}.
(** * Properties *)

(** ** The monad *)

(** Unfolds the monad's operations, for proofs that follow a computation
    step by step. *)
Ltac unfold_M :=
  unfold mbind, M_bind, mret, M_ret, lift, panic, out_of_fuel, tell, go,
    Println, Sleep.

Lemma bind_ret_l {A B} (a : A) (k : A -> M B) (w : World) :
  (mret a ≫= k) w = k a w.
Proof. reflexivity. Qed.

Lemma bind_ret_r {A} (c : M A) (w : World) :
  (c ≫= mret) w = c w.
Proof. unfold_M. destruct (c w) as [[a|v|] w']; reflexivity. Qed.

Lemma bind_assoc {A B C} (c : M A) (k : A -> M B) (k' : B -> M C) (w : World) :
  ((c ≫= k) ≫= k') w = (c ≫= (fun a => k a ≫= k')) w.
Proof. unfold_M. destruct (c w) as [[a|v|] w']; reflexivity. Qed.

(** A panic cuts the rest of a computation off. *)
Lemma bind_panic {A B} (v : string) (k : A -> M B) (w : World) :
  (panic v ≫= k) w = (Panicked v, w).
Proof. reflexivity. Qed.

(** ** The envelope *)

Lemma Route_defined (m : message) (r : string) :
  Route m = Done r <->
  exists v, map_lookup_ok (MessageAttributes (Message m)) "route" = Some (Some v)
            /\ StringValue v = Some r.
Proof.
  unfold Route, map_index.
  destruct (map_lookup_ok _ _) as [[v|]|]; simpl.
  - destruct (StringValue v) as [s|] eqn:Hs; simpl.
    + split.
      * intros [= <-]. exists v. auto.
      * intros (v' & [= <-] & Hv). rewrite Hv in Hs. congruence.
    + split; [discriminate|]. intros (v' & [= <-] & Hv). congruence.
  - split; [discriminate|]. intros (v' & [=] & _).
  - split; [discriminate|]. intros (v' & [=] & _).
Qed.

Lemma Route_absent (m : message) :
  map_lookup_ok (MessageAttributes (Message m)) "route" = None ->
  Route m = Panicked nilDereference.
Proof. unfold Route, map_index. intros ->. reflexivity. Qed.

Lemma Attribute_absent (m : message) (key : string) :
  map_lookup_ok (MessageAttributes (Message m)) key = None ->
  Attribute m key = Done "".
Proof. unfold Attribute. intros ->. reflexivity. Qed.

Lemma Attribute_present (m : message) (key : string) (v : MessageAttributeValue) :
  map_lookup_ok (MessageAttributes (Message m)) key = Some (Some v) ->
  Attribute m key = deref (StringValue v).
Proof. unfold Attribute. intros ->. reflexivity. Qed.

(** *** The default route *)

Lemma normalize_nil_map (raw : sqs_Message) :
  MessageAttributes raw = None ->
  Consumer.normalize raw =
  Done (Consumer.set_attributes raw (Some (defaultSQSAttributes "" []))).
Proof.
  intros H. unfold Consumer.normalize. rewrite H. reflexivity.
Qed.

Lemma normalize_no_route (raw : sqs_Message) (mp : gmap string (ptr MessageAttributeValue)) :
  MessageAttributes raw = Some mp ->
  mp !! "route" = None ->
  Consumer.normalize raw =
  Done (Consumer.set_attributes raw
          (Some (<["route" := Some {| DataType := Some "String";
                                      StringValue := Some "" |}]> mp))).
Proof.
  intros H Hr. unfold Consumer.normalize. rewrite H. cbn iota. rewrite H.
  simpl. rewrite Hr. reflexivity.
Qed.

Lemma normalize_has_route (raw : sqs_Message) (p : ptr MessageAttributeValue) :
  map_lookup_ok (MessageAttributes raw) "route" = Some p ->
  Consumer.normalize raw = Done raw.
Proof.
  intros H.
  destruct (MessageAttributes raw) as [mp|] eqn:Hm; [|discriminate].
  unfold Consumer.normalize. rewrite Hm. cbn iota. rewrite Hm.
  simpl in *. rewrite H. reflexivity.
Qed.

(** The poll loop never faults on a message, and every message it hands over
    has an entry under ["route"]. *)
Lemma normalize_total (raw : sqs_Message) :
  exists m', Consumer.normalize raw = Done m'
             /\ is_Some (map_lookup_ok (MessageAttributes m') "route")
             /\ Body m' = Body raw
             /\ ReceiptHandle m' = ReceiptHandle raw.
Proof.
  destruct (MessageAttributes raw) as [mp|] eqn:Hm.
  - destruct (mp !! "route") as [p|] eqn:Hr.
    + exists raw. rewrite (normalize_has_route raw p).
      * simpl. rewrite Hm. simpl. rewrite Hr. eauto.
      * rewrite Hm. exact Hr.
    + eexists. rewrite (normalize_no_route raw mp Hm Hr).
      split; [reflexivity|]. simpl. rewrite lookup_insert_eq. eauto.
  - eexists. rewrite (normalize_nil_map raw Hm).
    split; [reflexivity|]. split; [|split; reflexivity].
    unfold defaultSQSAttributes. simpl. rewrite lookup_singleton_eq. eauto.
Qed.

Lemma normalize_default_route (raw : sqs_Message) :
  map_lookup_ok (MessageAttributes raw) "route" = None ->
  exists m', Consumer.normalize raw = Done m'
             /\ map_lookup_ok (MessageAttributes m') "route" =
                Some (Some {| DataType := Some "String"; StringValue := Some "" |})
             /\ (forall key, key <> "route" ->
                   map_lookup_ok (MessageAttributes m') key =
                   map_lookup_ok (MessageAttributes raw) key)
             /\ Body m' = Body raw
             /\ ReceiptHandle m' = ReceiptHandle raw.
Proof.
  intros Hnone.
  destruct (MessageAttributes raw) as [mp|] eqn:Hm.
  - simpl in Hnone. eexists. rewrite (normalize_no_route raw mp Hm Hnone).
    split; [reflexivity|]. simpl. rewrite lookup_insert_eq.
    split; [reflexivity|]. split; [|split; reflexivity].
    intros key Hk. rewrite lookup_insert_ne by congruence. reflexivity.
  - eexists. rewrite (normalize_nil_map raw Hm).
    split; [reflexivity|]. unfold defaultSQSAttributes. simpl.
    rewrite lookup_singleton_eq.
    split; [reflexivity|]. split; [|split; reflexivity].
    intros key Hk. rewrite lookup_singleton_ne by congruence. reflexivity.
Qed.

(** The hand-off of one message. *)
Lemma enqueue_one (raw m' : sqs_Message) (w : World) :
  Consumer.normalize raw = Done m' ->
  Consumer.enqueue [raw] w = (Done tt, emit (EvJob (newMessage m')) w).
Proof.
  intros H. simpl. unfold_M. rewrite H. reflexivity.
Qed.

(** *** Attribute *)

(** C9, as stated, fails: [Attribute] is not total.  On a message that
    carries a Binary attribute under the key, the entry is found and its nil
    [StringValue] is dereferenced. *)
Lemma Attribute_faults_on_binary_attribute :
  Attribute (newMessage binary_trace_message) "trace" = Panicked nilDereference
  /\ ~ (forall m key, exists s, Attribute m key = Done s).
Proof.
  assert (H : Attribute (newMessage binary_trace_message) "trace"
              = Panicked nilDereference) by (vm_compute; reflexivity).
  split; [exact H|].
  intros Htotal.
  destruct (Htotal (newMessage binary_trace_message) "trace") as [s Hs].
  rewrite H in Hs. discriminate.
Qed.

(** C9, amended: on a message whose attribute under [key] is string-valued
    (absent, or present with a [StringValue]), [Attribute] returns: the empty
    string when the key is absent (also in a nil map), the stored string when
    it is present; so an absent key and a key holding the empty string give
    the same answer.  It faults, with a nil dereference, exactly on the
    messages left out. *)
Theorem Attribute_string_valued (m : message) (key : string) :
  string_valued (Message m) key ->
  (exists s, Attribute m key = Done s
     /\ (map_lookup_ok (MessageAttributes (Message m)) key = None -> s = "")
     /\ (forall v, map_lookup_ok (MessageAttributes (Message m)) key = Some (Some v) ->
           StringValue v = Some s))
  /\ (forall m', ~ string_valued (Message m') key ->
        Attribute m' key = Panicked nilDereference)
  /\ (forall m1 m2 v,
        map_lookup_ok (MessageAttributes (Message m1)) key = None ->
        map_lookup_ok (MessageAttributes (Message m2)) key = Some (Some v) ->
        StringValue v = Some "" ->
        Attribute m1 key = Attribute m2 key).
Proof.
  intros Hsv. split; [|split].
  - unfold string_valued in Hsv. unfold Attribute.
    destruct (map_lookup_ok _ key) as [[v|]|]; simpl.
    + destruct Hsv as [s Hs]. exists s. rewrite Hs. simpl.
      split; [reflexivity|]. split; [discriminate|].
      intros v' [= <-]. exact Hs.
    + contradiction.
    + exists "". split; [reflexivity|]. split; [reflexivity|]. discriminate.
  - intros m' Hn. unfold string_valued in Hn. unfold Attribute.
    destruct (map_lookup_ok _ key) as [[v|]|]; simpl.
    + destruct (StringValue v) as [s|]; [|reflexivity].
      exfalso. apply Hn. eauto.
    + reflexivity.
    + exfalso. apply Hn. exact I.
  - intros m1 m2 v H1 H2 Hv.
    rewrite (Attribute_absent m1 key H1), (Attribute_present m2 key v H2), Hv.
    reflexivity.
Qed.

Lemma Attribute_string_valued_witness :
  exists s, Attribute (newMessage routeless_message) "correlationId" = Done s
            /\ StringValue {| DataType := Some "String"; StringValue := Some "42" |}
               = Some s.
Proof.
  assert (Hsv : string_valued (Message (newMessage routeless_message)) "correlationId")
    by (vm_compute; eauto).
  destruct (Attribute_string_valued (newMessage routeless_message) "correlationId" Hsv)
    as [[s [Hs [_ Hv]]] _].
  exists s. split; [exact Hs|]. apply Hv. vm_compute. reflexivity.
Defined.

(** *** The trace *)

Lemma emits_nil (w : World) : emits [] w = w.
Proof. destruct w. unfold emits. simpl. rewrite app_nil_r. reflexivity. Qed.

Lemma emits_emits (es es' : list event) (w : World) :
  emits es' (emits es w) = emits (es ++ es') w.
Proof. unfold emits. simpl. rewrite app_assoc. reflexivity. Qed.

Lemma emit_emits (e : event) (es : list event) (w : World) :
  emits es (emit e w) = emits (e :: es) w.
Proof. unfold emit. rewrite emits_emits. reflexivity. Qed.

(** *** The hand-off to the worker pool *)

(** The poll loop hands over every message of a batch, none is rejected. *)
Lemma enqueue_jobs (msgs : list sqs_Message) (w : World) :
  exists ms,
    Forall2 (fun raw m' => Consumer.normalize raw = Done m') msgs ms
    /\ Consumer.enqueue msgs w = (Done tt, emits (map (fun m' => EvJob (newMessage m')) ms) w).
Proof.
  revert w. induction msgs as [|raw rest IH]; intros w.
  - exists []. split; [constructor|]. simpl. rewrite emits_nil. reflexivity.
  - destruct (normalize_total raw) as (m' & Hn & _).
    destruct (IH (emit (EvJob (newMessage m')) w)) as (ms & Hall & Hrun).
    exists (m' :: ms). split; [constructor; assumption|].
    simpl. unfold_M. rewrite Hn. simpl.
    fold (emit (EvJob (newMessage m')) w).
    rewrite Hrun, emit_emits. reflexivity.
Qed.

Lemma poll_jobs (c : consumer) (w : World) (batch : list sqs_Message)
    (rest : script (error + list sqs_Message)) :
  next (inbox w) = (inr batch, rest) ->
  exists ms,
    Forall2 (fun raw m' => Consumer.normalize raw = Done m') batch ms
    /\ fst (Consumer.poll c w) = Done tt
    /\ trace (snd (Consumer.poll c w)) =
       (trace w ++ EvReceiveMessage (QueueURL c)
                   :: map (fun m' => EvJob (newMessage m')) ms)%list.
Proof.
  intros Hnext.
  unfold Consumer.poll, mbind, M_bind, ReceiveMessage. rewrite Hnext.
  match goal with |- context [Consumer.enqueue batch ?w1] =>
    destruct (enqueue_jobs batch w1) as (ms & Hall & Hrun); rewrite Hrun end.
  exists ms. split; [exact Hall|]. split; [reflexivity|].
  simpl. rewrite <- app_assoc. reflexivity.
Qed.

Lemma Route_after_normalize (raw m' : sqs_Message) :
  string_valued raw "route" ->
  Consumer.normalize raw = Done m' ->
  is_Some (map_lookup_ok (MessageAttributes m') "route")
  /\ exists r, Route (newMessage m') = Done r.
Proof.
  intros Hsv Hn. unfold string_valued in Hsv.
  destruct (map_lookup_ok (MessageAttributes raw) "route") as [[v|]|] eqn:Hl.
  - rewrite (normalize_has_route raw _ Hl) in Hn. injection Hn as <-.
    rewrite Hl. split; [eauto|]. destruct Hsv as [s Hs].
    exists s. apply Route_defined. exists v. auto.
  - contradiction.
  - destruct (normalize_default_route raw Hl) as (m'' & Hn' & Hr & _).
    rewrite Hn in Hn'. injection Hn' as <-. rewrite Hr.
    split; [eauto|]. exists "". apply Route_defined. eexists. split; [exact Hr|reflexivity].
Qed.

(** C7: a polled message without a route attribute (the key is absent, or
    the attribute map is nil) is not rejected: the poll loop hands it to the
    worker pool with the empty-string route, and leaves its other
    attributes, its body and its receipt handle as they were. *)
Theorem poll_assigns_default_route (c : consumer) (w : World)
    (batch : list sqs_Message) (rest : script (error + list sqs_Message))
    (i : nat) (raw : sqs_Message) :
  next (inbox w) = (inr batch, rest) ->
  batch !! i = Some raw ->
  map_lookup_ok (MessageAttributes raw) "route" = None ->
  exists ms m',
    fst (Consumer.poll c w) = Done tt
    /\ trace (snd (Consumer.poll c w)) =
       (trace w ++ EvReceiveMessage (QueueURL c)
                   :: map (fun m' => EvJob (newMessage m')) ms)%list
    /\ length ms = length batch
    /\ ms !! i = Some m'
    /\ Route (newMessage m') = Done ""
    /\ (forall key, key <> "route" ->
          map_lookup_ok (MessageAttributes m') key =
          map_lookup_ok (MessageAttributes raw) key)
    /\ Body m' = Body raw
    /\ ReceiptHandle m' = ReceiptHandle raw.
Proof.
  intros Hnext Hi Hnone.
  destruct (poll_jobs c w batch rest Hnext) as (ms & Hall & Hdone & Htrace).
  destruct (Forall2_lookup_l _ _ _ _ _ Hall Hi) as (m' & Hm' & Hn).
  destruct (normalize_default_route raw Hnone) as (m'' & Hn' & Hr & Hother & Hb & Hh).
  rewrite Hn in Hn'. injection Hn' as <-.
  exists ms, m'. repeat split; try assumption.
  - symmetry. exact (Forall2_length _ _ _ Hall).
  - apply Route_defined. eexists. split; [exact Hr|reflexivity].
Qed.

Lemma poll_assigns_default_route_witness :
  exists ms m',
    trace (snd (Consumer.poll a_consumer
                  (delivering [[post_created_message; routeless_message]]))) =
    (EvReceiveMessage (QueueURL a_consumer)
       :: map (fun m' => EvJob (newMessage m')) ms)%list
    /\ ms !! 1%nat = Some m'
    /\ Route (newMessage m') = Done ""
    /\ Attribute (newMessage m') "correlationId" = Done "42".
Proof.
  destruct (poll_assigns_default_route a_consumer
              (delivering [[post_created_message; routeless_message]])
              [post_created_message; routeless_message] (always (inr []))
              1 routeless_message)
    as (ms & m' & _ & Htrace & _ & Hi & Hroute & Hother & _);
    [reflexivity | reflexivity | vm_compute; reflexivity |].
  exists ms, m'. split; [exact Htrace|]. split; [exact Hi|]. split; [exact Hroute|].
  unfold Attribute. simpl. rewrite (Hother "correlationId") by discriminate.
  vm_compute. reflexivity.
Defined.

(** C10, as stated, fails: the poll loop inserts a route only when the key
    is absent.  A message whose route attribute is Binary has the key, is
    handed over unchanged, and [Route] faults on it in [run]. *)
Lemma Route_faults_on_polled_binary_route :
  Consumer.poll a_consumer (delivering [[binary_route_message]]) =
  (Done tt,
   emits [EvReceiveMessage (QueueURL a_consumer);
          EvJob (newMessage binary_route_message)] (delivering []))
  /\ is_Some (map_lookup_ok (MessageAttributes binary_route_message) "route")
  /\ Route (newMessage binary_route_message) = Panicked nilDereference
  /\ Consumer.run a_consumer (newMessage binary_route_message) calm =
     (Panicked nilDereference, calm).
Proof.
  split; [vm_compute; reflexivity|].
  split; [vm_compute; eauto|].
  split; vm_compute; reflexivity.
Qed.

(** C10, amended: [Route] returns only when the attribute map has an entry
    under ["route"], and faults with a nil dereference when it has none, as
    on a message built directly from a raw backend message without the
    attribute.  The poll loop inserts the entry when it is absent, so every
    message it hands to the worker pool has one; the route lookup of [run]
    does not fault on the polled messages whose route attribute, where the
    backend supplied one, is string-valued. *)
Theorem Route_defined_on_polled_messages (c : consumer) (w : World)
    (batch : list sqs_Message) (rest : script (error + list sqs_Message)) :
  next (inbox w) = (inr batch, rest) ->
  Forall (fun raw => string_valued raw "route") batch ->
  (exists ms,
     fst (Consumer.poll c w) = Done tt
     /\ trace (snd (Consumer.poll c w)) =
        (trace w ++ EvReceiveMessage (QueueURL c)
                    :: map (fun m' => EvJob (newMessage m')) ms)%list
     /\ Forall (fun m' =>
                  is_Some (map_lookup_ok (MessageAttributes m') "route")
                  /\ exists r, Route (newMessage m') = Done r) ms)
  /\ (forall m r, Route m = Done r ->
        is_Some (map_lookup_ok (MessageAttributes (Message m)) "route"))
  /\ (forall raw, map_lookup_ok (MessageAttributes raw) "route" = None ->
        Route (newMessage raw) = Panicked nilDereference).
Proof.
  intros Hnext Hsv. split; [|split].
  - destruct (poll_jobs c w batch rest Hnext) as (ms & Hall & Hdone & Htrace).
    exists ms. split; [exact Hdone|]. split; [exact Htrace|].
    clear Htrace Hdone Hnext.
    induction Hall as [|raw m' batch' ms' Hn Hall IH]; [constructor|].
    inversion Hsv as [|? ? Hraw Hrest]; subst.
    constructor; [|apply IH; assumption].
    exact (Route_after_normalize raw m' Hraw Hn).
  - intros m r Hr. apply Route_defined in Hr. destruct Hr as (v & Hl & _).
    rewrite Hl. eauto.
  - intros raw Hnone. apply Route_absent. exact Hnone.
Qed.

Lemma Route_defined_on_polled_messages_witness :
  exists ms,
    trace (snd (Consumer.poll a_consumer
                  (delivering [[post_created_message; bare_message]]))) =
    (EvReceiveMessage (QueueURL a_consumer)
       :: map (fun m' => EvJob (newMessage m')) ms)%list
    /\ Forall (fun m' => exists r, Route (newMessage m') = Done r) ms.
Proof.
  destruct (Route_defined_on_polled_messages a_consumer
              (delivering [[post_created_message; bare_message]])
              [post_created_message; bare_message] (always (inr [])))
    as [(ms & _ & Htrace & Hroutes) _].
  - reflexivity.
  - repeat constructor; vm_compute; eauto.
  - exists ms. split; [exact Htrace|].
    eapply Forall_impl; [exact Hroutes|]. intros m' [_ Hr]. exact Hr.
Defined.

(** *** The poll loop as a whole *)

(** A turn of the poll loop always completes: a failed receive is logged and
    slept on, a batch is handed over. *)
Lemma poll_completes (c : consumer) (w : World) :
  fst (Consumer.poll c w) = Done tt.
Proof.
  unfold Consumer.poll, ReceiveMessage. unfold_M.
  destruct (next (inbox w)) as [[err|batch] rest] eqn:Hnext.
  - reflexivity.
  - match goal with |- context [Consumer.enqueue batch ?w1] =>
      destruct (enqueue_jobs batch w1) as (ms & _ & Hrun); rewrite Hrun end.
    reflexivity.
Qed.

Lemma poll_loop_never_returns (fuel : nat) (c : consumer) (w : World) :
  fst (Consumer.poll_loop fuel c w) = OutOfFuel.
Proof.
  revert w. induction fuel as [|fuel IH]; intros w; [reflexivity|].
  simpl. unfold_M. pose proof (poll_completes c w) as Hpoll.
  destruct (Consumer.poll c w) as [o w1]. simpl in Hpoll. subst o.
  apply IH.
Qed.

Lemma start_workers_completes (n : nat) (id : Z) (w : World) :
  fst (Consumer.start_workers n id w) = Done tt.
Proof.
  revert id w. induction n as [|n IH]; intros id w; [reflexivity|].
  simpl. unfold_M. apply IH.
Qed.

(** [Consume] never returns, whatever the backend answers: no receive
    failure ends the poll loop. *)
Lemma Consume_never_returns (fuel : nat) (c : consumer) (w : World) :
  fst (Consumer.Consume fuel c w) = OutOfFuel.
Proof.
  unfold Consumer.Consume. unfold_M.
  pose proof (start_workers_completes (Z.to_nat (workerPool c)) 1 w) as Hstart.
  destruct (Consumer.start_workers _ _ w) as [o w1]. simpl in Hstart. subst o.
  apply poll_loop_never_returns.
Qed.

(** ** The run protocol *)

Lemma delete_accepted (c : consumer) (m : message) (w : World)
    (rest : script (option error)) :
  next (backend w) = (None, rest) ->
  Consumer.delete c m w =
  (Done None,
   {| queue := remove_receipt (ReceiptHandle (Message m)) (queue w);
      backend := rest; inbox := inbox w; signals := signals w;
      trace := trace w ++ [EvDeleteMessage (QueueURL c) (ReceiptHandle (Message m))] |}).
Proof.
  intros H. unfold Consumer.delete, mbind, M_bind, DeleteMessage. rewrite H.
  reflexivity.
Qed.

Lemma delete_refused (c : consumer) (m : message) (w : World) (e : error)
    (rest : script (option error)) :
  next (backend w) = (Some e, rest) ->
  Consumer.delete c m w =
  (Done (Some (SQSError_error (Context ErrUnableToDelete e))),
   {| queue := queue w;
      backend := rest; inbox := inbox w; signals := signals w;
      trace := trace w ++ [EvDeleteMessage (QueueURL c) (ReceiptHandle (Message m));
                           EvLog [Error (Context ErrUnableToDelete e)]] |}).
Proof.
  intros H. unfold Consumer.delete, mbind, M_bind, DeleteMessage. rewrite H.
  simpl. unfold mret, M_ret, emit, emits. simpl. rewrite <- app_assoc.
  reflexivity.
Qed.

Lemma remove_receipt_gone (r : string) (q : list string) :
  r ∉ remove_receipt (Some r) q.
Proof.
  simpl. intros Hin. apply list_elem_of_filter in Hin. destruct Hin as [Hne _].
  congruence.
Qed.

Lemma run_unrouted (c : consumer) (m : message) (route : string) (w : World) :
  Route m = Done route ->
  handlers c !! route = None ->
  Consumer.run c m w = Consumer.delete c m w.
Proof.
  intros Hr Hh.
  unfold Consumer.run, mbind, M_bind, lift. rewrite Hr.
  cbn beta iota. unfold Handler in *. rewrite Hh. reflexivity.
Qed.

Lemma run_routed (c : consumer) (m : message) (route : string) (h : Handler)
    (w : World) :
  Route m = Done route ->
  handlers c !! route = Some h ->
  Consumer.run c m w =
  match h context_Background m (emit (EvGo (GoExtend m)) w) with
  | (Done (Some e), w1) => (Done (Some e), emit (EvGo (GoSignal m (Some e))) w1)
  | (Done None, w1) => Consumer.delete c m (emit (EvGo (GoSignal m None)) w1)
  | (Panicked v, w1) => (Panicked v, w1)
  | (OutOfFuel, w1) => (OutOfFuel, w1)
  end.
Proof.
  intros Hr Hh.
  unfold Consumer.run, mbind, M_bind, lift. rewrite Hr.
  cbn beta iota. unfold Handler in *. rewrite Hh. cbn beta iota zeta.
  unfold go, tell. fold (emit (EvGo (GoExtend m)) w).
  destruct (h context_Background m (emit (EvGo (GoExtend m)) w)) as [[[e|]| |] w1];
    reflexivity.
Qed.

(** C1, as stated, fails: when the handler returns an error, [run] returns
    it from inside the [if] and never reaches [c.delete(m)].  With the
    failing handler of [TestRun], no delete request is sent and the message
    is still in the queue. *)
Lemma run_keeps_message_on_handler_error :
  Consumer.run test_consumer (newMessage post_event_message) calm =
  (Done (Some (SQSError_error ErrGetMessage)),
   emits [EvGo (GoExtend (newMessage post_event_message));
          EvGo (GoSignal (newMessage post_event_message)
                  (Some (SQSError_error ErrGetMessage)))] calm)
  /\ ReceiptHandle post_event_message = Some "receipt-1"
  /\ "receipt-1" ∈ queue (snd (Consumer.run test_consumer
                                 (newMessage post_event_message) calm)).
Proof.
  split; [vm_compute; reflexivity|].
  split; [reflexivity|].
  vm_compute. constructor.
Qed.

(** C1, amended: when the registered handler returns an error, [run] starts
    the completion signal carrying that error and returns the error; it
    sends no delete request, so the message stays in the backend queue.
    [run] goes on to delete only when the handler returned nil. *)
Theorem run_handler_error_skips_delete (c : consumer) (m : message)
    (route : string) (h : Handler) (w w1 : World) (e : error) :
  Route m = Done route ->
  handlers c !! route = Some h ->
  h context_Background m (emit (EvGo (GoExtend m)) w) = (Done (Some e), w1) ->
  Consumer.run c m w = (Done (Some e), emit (EvGo (GoSignal m (Some e))) w1)
  /\ queue (snd (Consumer.run c m w)) = queue w1
  /\ trace (snd (Consumer.run c m w)) = (trace w1 ++ [EvGo (GoSignal m (Some e))])%list
  /\ (forall w2,
        h context_Background m (emit (EvGo (GoExtend m)) w) = (Done None, w2) ->
        Consumer.run c m w = Consumer.delete c m (emit (EvGo (GoSignal m None)) w2)).
Proof.
  intros Hr Hh Herr. rewrite (run_routed c m route h w Hr Hh), Herr.
  repeat split. intros w2 Hnil. congruence.
Qed.

Lemma run_handler_error_skips_delete_witness :
  Consumer.run test_consumer (newMessage post_event_message) calm =
  (Done (Some (SQSError_error ErrGetMessage)),
   emit (EvGo (GoSignal (newMessage post_event_message)
                 (Some (SQSError_error ErrGetMessage))))
     (emit (EvGo (GoExtend (newMessage post_event_message))) calm)).
Proof.
  apply (run_handler_error_skips_delete test_consumer
           (newMessage post_event_message) "post_event" err_handler calm).
  - vm_compute. reflexivity.
  - vm_compute. reflexivity.
  - reflexivity.
Defined.

(** C6: for an envelope whose route has no registered handler, [run] is the
    delete operation and nothing else: no handler runs and no
    lease-extension task is started (the only thing [run] adds to the trace
    is the delete request, followed by the log line when it is refused).
    [run] returns the delete's result: nil when the backend accepts the
    request, and then the receipt handle is gone from the queue. *)
Theorem run_without_handler_deletes (c : consumer) (m : message)
    (route : string) (w : World) :
  Route m = Done route ->
  handlers c !! route = None ->
  Consumer.run c m w = Consumer.delete c m w
  /\ (forall rest, next (backend w) = (None, rest) ->
        Consumer.run c m w =
        (Done None,
         {| queue := remove_receipt (ReceiptHandle (Message m)) (queue w);
            backend := rest; inbox := inbox w; signals := signals w;
            trace := trace w ++
                     [EvDeleteMessage (QueueURL c) (ReceiptHandle (Message m))] |})
        /\ forall r, ReceiptHandle (Message m) = Some r ->
                     r ∉ queue (snd (Consumer.run c m w)))
  /\ (forall e rest, next (backend w) = (Some e, rest) ->
        Consumer.run c m w =
        (Done (Some (SQSError_error (Context ErrUnableToDelete e))),
         {| queue := queue w;
            backend := rest; inbox := inbox w; signals := signals w;
            trace := trace w ++
                     [EvDeleteMessage (QueueURL c) (ReceiptHandle (Message m));
                      EvLog [Error (Context ErrUnableToDelete e)]] |})).
Proof.
  intros Hr Hh. rewrite (run_unrouted c m route w Hr Hh).
  split; [reflexivity|]. split.
  - intros rest Hnext. rewrite (delete_accepted c m w rest Hnext).
    split; [reflexivity|]. intros r Hrh. simpl. rewrite Hrh.
    apply remove_receipt_gone.
  - intros e rest Hnext. apply delete_refused. exact Hnext.
Qed.

Lemma run_without_handler_deletes_witness :
  Consumer.run test_consumer (newMessage no_event_message) calm =
  (Done None,
   {| queue := []; backend := always None; inbox := always (inr []);
      signals := always false;
      trace := [EvDeleteMessage (QueueURL test_consumer) (Some "receipt-1")] |}).
Proof.
  destruct (run_without_handler_deletes test_consumer
              (newMessage no_event_message) "no_event" calm)
    as (_ & Haccepted & _).
  - vm_compute. reflexivity.
  - vm_compute. reflexivity.
  - destruct (Haccepted (always None)) as [Hrun _]; [reflexivity|].
    rewrite Hrun. vm_compute. reflexivity.
Defined.

(** *** Registration *)

(** The loop of [RegisterHandler] applies the adapters from the last to the
    first, which nests them in the order they are listed. *)
Lemma wrap_take (adapters : list Adapter) (n : nat) (h : Handler) :
  n <= length adapters ->
  Consumer.wrap adapters n h = foldr (fun a g => a g) h (take n adapters).
Proof.
  revert h. induction n as [|i IH]; intros h Hn.
  - reflexivity.
  - destruct (lookup_lt_is_Some_2 adapters i) as [a Ha]; [lia|].
    rewrite (take_S_r adapters i a Ha), foldr_app.
    simpl. unfold Adapter, Handler in *. rewrite Ha. apply IH. lia.
Qed.

Lemma wrap_foldr (adapters : list Adapter) (h : Handler) :
  Consumer.wrap adapters (length adapters) h = foldr (fun a g => a g) h adapters.
Proof.
  rewrite wrap_take by lia. rewrite firstn_all. reflexivity.
Qed.

Lemma RegisterHandler_lookup (c : consumer) (name : string) (h : Handler)
    (adapters : list Adapter) :
  handlers (Consumer.RegisterHandler c name h adapters) !! name =
  Some (foldr (fun a g => a g) h adapters).
Proof.
  unfold Consumer.RegisterHandler. simpl. rewrite lookup_insert_eq, wrap_foldr.
  reflexivity.
Qed.

Lemma RegisterHandler_lookup_other (c : consumer) (name other : string)
    (h : Handler) (adapters : list Adapter) :
  other <> name ->
  handlers (Consumer.RegisterHandler c other h adapters) !! name =
  handlers c !! name.
Proof.
  intros Hne. unfold Consumer.RegisterHandler. simpl.
  apply lookup_insert_ne. exact Hne.
Qed.

(** C5: after [RegisterHandler name h adapters], running an envelope whose
    route is [name] invokes the handler stored under [name], once, with the
    background context and the envelope; that handler is [h] wrapped in the
    adapters with the first-listed adapter outermost.  Registering other
    routes afterwards does not change it.  For the package's own adapters,
    outermost means: a first-listed [WithMiddleware] runs its function
    before anything else of the chain, and a first-listed [WithRecovery]
    runs its deferred function after everything else of the chain has
    returned. *)
Theorem run_invokes_registered_handler (c : consumer) (name : string)
    (h : Handler) (adapters : list Adapter) (m : message) (w : World) :
  Route m = Done name ->
  handlers (Consumer.RegisterHandler c name h adapters) !! name =
    Some (foldr (fun a g => a g) h adapters)
  /\ Consumer.run (Consumer.RegisterHandler c name h adapters) m w =
     match foldr (fun a g => a g) h adapters context_Background m
             (emit (EvGo (GoExtend m)) w) with
     | (Done (Some e), w1) => (Done (Some e), emit (EvGo (GoSignal m (Some e))) w1)
     | (Done None, w1) =>
         Consumer.delete (Consumer.RegisterHandler c name h adapters) m
           (emit (EvGo (GoSignal m None)) w1)
     | (Panicked v, w1) => (Panicked v, w1)
     | (OutOfFuel, w1) => (OutOfFuel, w1)
     end
  /\ (forall a rest, adapters = a :: rest ->
        foldr (fun a g => a g) h adapters = a (foldr (fun a g => a g) h rest))
  /\ (forall f rest ctx m' w', adapters = WithMiddleware f :: rest ->
        foldr (fun a g => a g) h adapters ctx m' w' =
        (f ctx m';; foldr (fun a g => a g) h rest ctx m') w')
  /\ (forall r rest ctx m' w' res w1,
        adapters = WithRecovery r :: rest ->
        foldr (fun a g => a g) h rest ctx m' w' = (Done res, w1) ->
        foldr (fun a g => a g) h adapters ctx m' w' =
        match r None w1 with
        | (Done _, w2) => (Done res, w2)
        | (Panicked v, w2) => (Panicked v, w2)
        | (OutOfFuel, w2) => (OutOfFuel, w2)
        end)
  /\ (forall other h' adapters', other <> name ->
        handlers (Consumer.RegisterHandler
                    (Consumer.RegisterHandler c name h adapters)
                    other h' adapters') !! name =
        Some (foldr (fun a g => a g) h adapters)).
Proof.
  intros Hr.
  pose proof (RegisterHandler_lookup c name h adapters) as Hl.
  split; [exact Hl|].
  split; [exact (run_routed _ m name _ w Hr Hl)|].
  split; [intros a rest ->; reflexivity|].
  split; [intros f rest ctx m' w' ->; reflexivity|].
  split.
  - intros r rest ctx m' w' res w1 -> Hrest. simpl. unfold WithRecovery.
    rewrite Hrest. reflexivity.
  - intros other h' adapters' Hne.
    rewrite RegisterHandler_lookup_other by exact Hne. exact Hl.
Qed.

Lemma run_invokes_registered_handler_witness :
  Consumer.run
    (Consumer.RegisterHandler a_consumer "post_created" logging_handler
       logging_adapters)
    (newMessage post_created_message) calm =
  (Done None,
   {| queue := []; backend := always None; inbox := always (inr []);
      signals := always false;
      trace := [EvGo (GoExtend (newMessage post_created_message));
                EvLog ["middleware 1"]; EvLog ["middleware 2"];
                EvLog ["handler"];
                EvLog ["recovery 2"]; EvLog ["recovery 1"];
                EvGo (GoSignal (newMessage post_created_message) None);
                EvDeleteMessage (QueueURL a_consumer) (Some "receipt-1")] |}).
Proof.
  destruct (run_invokes_registered_handler a_consumer "post_created"
              logging_handler logging_adapters
              (newMessage post_created_message) calm)
    as (_ & Hrun & _).
  - vm_compute. reflexivity.
  - rewrite Hrun. vm_compute. reflexivity.
Defined.

(** ** Lease extension *)

Lemma wrap64_small (z : Z) :
  (min_int64 <= z <= max_int64)%Z -> wrap64 z = z.
Proof.
  unfold wrap64, min_int64, max_int64. intros H.
  rewrite Z.mod_small by lia. lia.
Qed.

Lemma extensions_app (tr tr' : list event) :
  extensions (tr ++ tr') = (extensions tr ++ extensions tr')%list.
Proof. apply omap_app. Qed.

(** The loop invariant: from the state [(count, original * (count + 1))],
    whatever the fuel, the completion signals and the backend's answers, the
    loop requests the durations [original * (count + 2)],
    [original * (count + 3)], ..., at most [extensionLimit - count] of them. *)
Lemma extend_loop_extensions (fuel : nat) (c : consumer) (m : message) :
  (0 < VisibilityTimeout c)%Z ->
  (VisibilityTimeout c * (extensionLimit c + 1) <= max_int64)%Z ->
  forall (count : Z) (w : World),
    (0 <= count)%Z ->
    exists k : nat,
      (Z.of_nat k <= Z.max 0 (extensionLimit c - count))%Z
      /\ extensions
           (trace (snd (Consumer.extend_loop fuel c m count
                          (VisibilityTimeout c * (count + 1)) w))) =
         (extensions (trace w) ++
          map (fun n => (VisibilityTimeout c * (count + 1 + Z.of_nat n))%Z)
              (seq 1 k))%list.
Proof.
  intros Hpos Hmax.
  induction fuel as [|fuel IH]; intros count w Hcount.
  - exists 0%nat. split; [lia|]. simpl. rewrite app_nil_r. reflexivity.
  - simpl. destruct (extensionLimit c <=? count)%Z eqn:Hlim.
    + exists 0%nat. split; [lia|].
      unfold_M. simpl. rewrite app_nil_r.
      destruct (Route m); simpl; [|reflexivity|reflexivity].
      rewrite extensions_app. simpl. rewrite app_nil_r. reflexivity.
    + apply Z.leb_gt in Hlim.
      unfold_M; unfold select_err. simpl.
      destruct (next (signals w)) as [finished rest] eqn:Hsig.
      destruct finished.
      * exists 0%nat. split; [lia|]. simpl.
        rewrite extensions_app. simpl. rewrite !app_nil_r. reflexivity.
      * assert (Hext : wrap64 (VisibilityTimeout c * (count + 1) + VisibilityTimeout c)
                       = (VisibilityTimeout c * (count + 1 + 1))%Z).
        { rewrite wrap64_small; [lia|]. unfold min_int64, max_int64 in *. nia. }
        rewrite Hext. unfold ChangeMessageVisibility, request. simpl.
        destruct (next (backend w)) as [[e|] rest'] eqn:Hb.
        -- exists 1%nat. split; [lia|]. simpl.
           rewrite !extensions_app. simpl. rewrite !app_nil_r.
           reflexivity.
        -- match goal with |- context [Consumer.extend_loop fuel c m _ _ ?w2] =>
             destruct (IH (count + 1)%Z w2) as (k & Hk & Hcalls); [lia|] end.
           exists (S k). split; [lia|].
           rewrite Hcalls. simpl. rewrite !extensions_app. simpl.
           rewrite !app_nil_r, <- app_assoc. simpl.
           f_equal. f_equal.
           rewrite <- (seq_shift k 1), map_map. apply map_ext. intros n.
           f_equal. lia.
Qed.

Lemma Route_returns_or_panics (m : message) : Route m <> OutOfFuel.
Proof.
  unfold Route.
  destruct (map_index _ _) as [v|]; simpl; [|discriminate].
  destruct (StringValue v); discriminate.
Qed.

(** The loop stops of its own accord within [extensionLimit - count + 1]
    turns. *)
Lemma extend_loop_terminates (fuel : nat) (c : consumer) (m : message)
    (count extension : Z) (w : World) :
  (Z.to_nat (extensionLimit c - count) < fuel)%nat ->
  fst (Consumer.extend_loop fuel c m count extension w) <> OutOfFuel.
Proof.
  revert count extension w. induction fuel as [|fuel IH]; intros count extension w Hfuel.
  - lia.
  - simpl. destruct (extensionLimit c <=? count)%Z eqn:Hlim.
    + unfold_M.
      pose proof (Route_returns_or_panics m) as Hr.
      destruct (Route m); simpl; [discriminate|discriminate|contradiction].
    + apply Z.leb_gt in Hlim.
      unfold_M; unfold select_err. simpl.
      destruct (next (signals w)) as [finished rest].
      destruct finished; [discriminate|].
      unfold ChangeMessageVisibility, request. simpl.
      destruct (next (backend w)) as [[e|] rest']; [discriminate|].
      apply IH. lia.
Qed.

(** C4: whatever the completion signal and the backend do, and however far
    the loop has run (for every fuel), the lease-extension loop has issued at
    most [extensionLimit] extend-lease calls, the n-th of them (from 1)
    requesting [VisibilityTimeout * (n + 1)], so that the requested durations
    strictly increase; and the loop ends within [extensionLimit + 1] turns.
    The lease duration is positive and the largest request fits an [int64]. *)
Theorem extend_requests_bounded_and_increasing (fuel : nat) (c : consumer)
    (ctx : context_Context) (m : message) (w : World) :
  (0 < VisibilityTimeout c)%Z ->
  (VisibilityTimeout c * (extensionLimit c + 1) <= max_int64)%Z ->
  exists calls : list Z,
    extensions (trace (snd (Consumer.extend fuel c ctx m w))) =
      (extensions (trace w) ++ calls)%list
    /\ (Z.of_nat (length calls) <= Z.max 0 (extensionLimit c))%Z
    /\ (forall n d, calls !! n = Some d ->
          d = (VisibilityTimeout c * (Z.of_nat (S n) + 1))%Z)
    /\ (forall i j di dj, (i < j)%nat ->
          calls !! i = Some di -> calls !! j = Some dj -> (di < dj)%Z)
    /\ ((Z.to_nat (extensionLimit c) < fuel)%nat ->
          fst (Consumer.extend fuel c ctx m w) <> OutOfFuel).
Proof.
  intros Hpos Hmax. unfold Consumer.extend.
  destruct (extend_loop_extensions fuel c m Hpos Hmax 0 w) as (k & Hk & Hcalls);
    [lia|].
  rewrite Z.mul_1_r in Hcalls.
  exists (map (fun n => (VisibilityTimeout c * (0 + 1 + Z.of_nat n))%Z) (seq 1 k)).
  assert (Hnth : forall n d,
             map (fun n => (VisibilityTimeout c * (0 + 1 + Z.of_nat n))%Z) (seq 1 k)
               !! n = Some d ->
             d = (VisibilityTimeout c * (Z.of_nat (S n) + 1))%Z).
  { intros n d Hn. rewrite list_lookup_fmap in Hn.
    destruct (seq 1 k !! n) as [x|] eqn:Hx; [|discriminate].
    apply lookup_seq in Hx. destruct Hx as [-> _].
    simpl in Hn. injection Hn as <-. f_equal. lia. }
  split; [exact Hcalls|]. split; [|split; [exact Hnth|split]].
  - rewrite length_map, length_seq. rewrite Z.sub_0_r in Hk. exact Hk.
  - intros i j di dj Hij Hi Hj.
    rewrite (Hnth i di Hi), (Hnth j dj Hj). nia.
  - intros Hfuel. apply extend_loop_terminates. rewrite Z.sub_0_r. exact Hfuel.
Qed.

Lemma extend_requests_bounded_and_increasing_witness :
  exists calls : list Z,
    extensions (trace (snd (Consumer.extend 3 a_consumer context_Background
                              (newMessage post_created_message) calm))) = calls
    /\ (forall n d, calls !! n = Some d -> d = (30 * (Z.of_nat (S n) + 1))%Z)
    /\ fst (Consumer.extend 3 a_consumer context_Background
              (newMessage post_created_message) calm) <> OutOfFuel.
Proof.
  destruct (extend_requests_bounded_and_increasing 3 a_consumer context_Background
              (newMessage post_created_message) calm)
    as (calls & Htrace & _ & Hnth & _ & Hends).
  - simpl. lia.
  - unfold max_int64. simpl. lia.
  - exists calls. split; [exact Htrace|]. split; [exact Hnth|].
    apply Hends. simpl. lia.
Defined.

(** With the default configuration the handler gets three times the lease:
    the loop asks for 60 and 90 seconds and then gives up; a completion
    signal seen at the second check stops it after the first request. *)
Example extend_default :
  extensions (trace (snd (Consumer.extend 3 a_consumer context_Background
                            (newMessage post_created_message) calm)))
  = [60; 90]%Z
  /\ extensions
       (trace (snd (Consumer.extend 3 a_consumer context_Background
                      (newMessage post_created_message)
                      {| queue := ["receipt-1"]; backend := always None;
                         inbox := always (inr []);
                         signals := {| upcoming := [false; true];
                                       thereafter := true |};
                         trace := [] |})))
     = [60]%Z.
Proof. split; vm_compute; reflexivity. Qed.

(** ** The send paths *)

Lemma send_count_app (tr tr' : list event) :
  send_count (tr ++ tr') = (send_count tr + send_count tr')%nat.
Proof. unfold send_count. rewrite filter_app, length_app. reflexivity. Qed.

Lemma sleeps_app (tr tr' : list event) :
  sleeps (tr ++ tr') = (sleeps tr ++ sleeps tr')%list.
Proof. apply omap_app. Qed.

Lemma request_refused (ev : event) (w : World) (e : error) :
  backend w = always (Some e) ->
  request ev w = (Done (Some e), emit ev w).
Proof.
  intros H. unfold request. rewrite H. simpl. unfold emit, emits. rewrite H.
  reflexivity.
Qed.

(** Against a backend that refuses every request, whatever the error, the
    consumer's direct send goes round for as long as it is followed. *)
Lemma consumer_send_never_gives_up (fuel : nat) (c : consumer)
    (ctx : context_Context) (input : SendMessageInput) (event : string)
    (e : error) (w : World) :
  backend w = always (Some e) ->
  Consumer.sendDirectMessage fuel c ctx input event w =
  (OutOfFuel, emits (concat (replicate fuel (consumer_round input event e))) w).
Proof.
  revert w. induction fuel as [|fuel IH]; intros w Hb.
  - simpl. rewrite emits_nil. reflexivity.
  - simpl. unfold_M; unfold SendMessage.
    rewrite (request_refused _ w e Hb). simpl.
    rewrite IH by exact Hb.
    unfold emit. rewrite !emits_emits. reflexivity.
Qed.

(** The consumer's direct send has no fatal branch: it never panics. *)
Lemma consumer_send_never_panics (fuel : nat) (c : consumer)
    (ctx : context_Context) (input : SendMessageInput) (name : string)
    (w : World) (v : string) :
  fst (Consumer.sendDirectMessage fuel c ctx input name w) <> Panicked v.
Proof.
  revert w. induction fuel as [|fuel IH]; intros w.
  - discriminate.
  - simpl. unfold_M; unfold SendMessage, request.
    destruct (next (backend w)) as [[e|] rest]; simpl; [apply IH|discriminate].
Qed.

(** *** The publisher's fan-out send *)

Lemma retrier_never_gives_up (fuel : nat) (p : publisher) (c : Z)
    (snsInput input : PublishInput) (retryCount : Z) (e : error) (w : World) :
  (c <= maxRetryCount)%Z ->
  transient e ->
  backend w = always (Some e) ->
  Publisher.retrier fuel p c snsInput input retryCount w =
  (OutOfFuel, emits (concat (replicate fuel (publish_round snsInput e))) w).
Proof.
  intros Hc He. revert retryCount w.
  induction fuel as [|fuel IH]; intros retryCount w Hb.
  - simpl. rewrite emits_nil. reflexivity.
  - simpl. replace (maxRetryCount <? c)%Z with false by (symmetry; apply Z.ltb_ge; exact Hc).
    unfold_M; unfold Publish.
    rewrite (request_refused _ w e Hb). unfold transient in He. simpl in He.
    rewrite He. simpl.
    rewrite IH by exact Hb.
    unfold emit. rewrite !emits_emits. reflexivity.
Qed.

Lemma retrier_payload_too_large (fuel : nat) (p : publisher) (c : Z)
    (snsInput input : PublishInput) (retryCount : Z) (e : error) (w : World)
    (rest : script (option error)) :
  (c <= maxRetryCount)%Z ->
  String.eqb (Error e) (Error errDataLimit) = true ->
  next (backend w) = (Some e, rest) ->
  Publisher.retrier (S fuel) p c snsInput input retryCount w =
  (Panicked (Error (Context ErrBodyOverflow e)),
   {| queue := queue w; backend := rest; inbox := inbox w; signals := signals w;
      trace := trace w ++ [EvPublish snsInput] |}).
Proof.
  intros Hc He Hb. simpl.
  replace (maxRetryCount <? c)%Z with false by (symmetry; apply Z.ltb_ge; exact Hc).
  unfold_M; unfold Publish, request. simpl in He. rewrite Hb, He.
  reflexivity.
Qed.

Lemma send_marshalled {T} `{Marshaler T} (encode : json -> string) (fuel : nat)
    (p : publisher) (payload : T) (name out : string) (w : World) :
  json_Marshal encode payload = inl out ->
  Publisher.send encode fuel p payload name [] w =
  Publisher.retrier fuel p 0
    {| pub_Message := Some out;
       pub_MessageAttributes := Some (defaultSNSAttributes name (p_attributes p));
       TopicArn := Some (arn p) |}
    {| pub_Message := Some out;
       pub_MessageAttributes := Some (defaultSNSAttributes name (p_attributes p));
       TopicArn := Some (arn p) |}
    0 w.
Proof.
  intros Hm. unfold Publisher.send. rewrite Hm. reflexivity.
Qed.

(** *** The publisher's direct send *)

Lemma direct_send_entry (fuel : nat) (p : publisher) (input : SendMessageInput)
    (name : string) (w : World) :
  Publisher.sendDirectMessage fuel p input name [] w =
  Publisher.sendDirectMessage fuel p input name [0%Z] w.
Proof. destruct fuel; reflexivity. Qed.

Lemma direct_send_payload_too_large (fuel : nat) (p : publisher)
    (input : SendMessageInput) (name : string) (c : Z) (e : error) (w : World)
    (rest : script (option error)) :
  (c <= maxRetryCount)%Z ->
  String.eqb (Error e) (Error errDataLimit) = true ->
  next (backend w) = (Some e, rest) ->
  Publisher.sendDirectMessage (S fuel) p input name [c] w =
  (Panicked (Error (Context ErrBodyOverflow e)),
   {| queue := queue w; backend := rest; inbox := inbox w; signals := signals w;
      trace := trace w ++ [EvSendMessage input] |}).
Proof.
  intros Hc He Hb. simpl.
  replace (maxRetryCount <? c)%Z with false by (symmetry; apply Z.ltb_ge; exact Hc).
  unfold_M; unfold SendMessage, request. simpl in He. rewrite Hb, He.
  reflexivity.
Qed.

(** Against a backend that keeps refusing with a transient error, the
    publisher's direct send makes one attempt for each value [c], [c + 1],
    ..., [maxRetryCount] of its counter and then returns. *)
Lemma direct_send_gives_up (fuel : nat) (p : publisher)
    (input : SendMessageInput) (name : string) (e : error) :
  transient e ->
  forall (c : Z) (w : World),
    (min_int64 <= c)%Z ->
    (Z.to_nat (maxRetryCount + 1 - c) < fuel)%nat ->
    backend w = always (Some e) ->
    Publisher.sendDirectMessage fuel p input name [c] w =
    (Done tt,
     emits (concat (replicate (Z.to_nat (maxRetryCount + 1 - c)) (direct_round input))) w).
Proof.
  intros He. induction fuel as [|fuel IH]; intros c w Hmin Hfuel Hb; [lia|].
  simpl. destruct (maxRetryCount <? c)%Z eqn:Hc.
  - apply Z.ltb_lt in Hc.
    replace (Z.to_nat (maxRetryCount + 1 - c)) with 0%nat by lia.
    simpl. rewrite emits_nil. reflexivity.
  - apply Z.ltb_ge in Hc. unfold maxRetryCount in *.
    unfold_M; unfold SendMessage.
    rewrite (request_refused _ w e Hb). unfold transient in He. simpl in He.
    rewrite He. simpl.
    rewrite wrap64_small by (unfold min_int64, max_int64 in *; lia).
    rewrite IH; [|unfold min_int64 in *; lia|lia|exact Hb].
    replace (Z.to_nat (5 + 1 - c)) with (S (Z.to_nat (5 + 1 - (c + 1)))) by lia.
    simpl. unfold emit. rewrite !emits_emits. reflexivity.
Qed.

(** Whatever the backend does, the publisher's direct send makes at most
    [maxRetryCount + 1 - c] requests from the counter value [c], sleeps ten
    seconds at a time, and ends within that many turns and one more. *)
Lemma direct_send_bounded (fuel : nat) (p : publisher)
    (input : SendMessageInput) (name : string) :
  forall (c : Z) (w : World),
    (min_int64 <= c)%Z ->
    exists added : list event,
      trace (snd (Publisher.sendDirectMessage fuel p input name [c] w)) =
        (trace w ++ added)%list
      /\ (send_count added <= Z.to_nat (maxRetryCount + 1 - c))%nat
      /\ Forall (fun d => d = (10 * Second)%Z) (sleeps added)
      /\ ((Z.to_nat (maxRetryCount + 1 - c) < fuel)%nat ->
          fst (Publisher.sendDirectMessage fuel p input name [c] w) <> OutOfFuel).
Proof.
  induction fuel as [|fuel IH]; intros c w Hmin.
  - exists []. simpl. rewrite app_nil_r.
    split; [reflexivity|]. split; [unfold send_count; simpl; lia|].
    split; [constructor|lia].
  - simpl. destruct (maxRetryCount <? c)%Z eqn:Hc.
    + exists []. simpl. rewrite app_nil_r.
      split; [reflexivity|]. split; [unfold send_count; simpl; lia|].
      split; [constructor|discriminate].
    + apply Z.ltb_ge in Hc. unfold maxRetryCount in *.
      unfold_M; unfold SendMessage, request.
      destruct (next (backend w)) as [[e|] rest] eqn:Hb.
      * destruct (String.eqb (Error e) (Error errDataLimit)) eqn:He.
        -- exists [EvSendMessage input]. simpl in He. rewrite He. simpl.
           split; [reflexivity|].
           replace (send_count [EvSendMessage input]) with 1%nat by reflexivity.
           split; [lia|]. split; [constructor|discriminate].
        -- simpl in He. rewrite He. simpl.
           rewrite wrap64_small by (unfold min_int64, max_int64 in *; lia).
           match goal with
           | |- context [Publisher.sendDirectMessage fuel p input name _ ?w3] =>
               destruct (IH (c + 1)%Z w3) as (added & Htrace & Hcount & Hsleeps & Hends);
                 [unfold min_int64 in *; lia|]
           end.
           exists (direct_round input ++ added)%list.
           split; [|split; [|split]].
           ++ rewrite Htrace. simpl. rewrite <- !app_assoc. reflexivity.
           ++ rewrite send_count_app.
              replace (send_count (direct_round input)) with 1%nat by reflexivity.
              lia.
           ++ rewrite sleeps_app. apply Forall_app.
              split; [repeat constructor|exact Hsleeps].
           ++ intros Hfuel. apply Hends. lia.
      * exists [EvSendMessage input]. simpl.
        split; [reflexivity|].
        replace (send_count [EvSendMessage input]) with 1%nat by reflexivity.
        split; [lia|]. split; [constructor|discriminate].
Qed.

(** C2, at its failing inputs: against a backend that refuses every request
    with a transient error, the fan-out send and the consumer's direct send
    never give up.  However long they are followed, they have made one
    request per turn, ten seconds apart, and have not returned: the closure
    [retrier] tests [send]'s counter [c], which stays 0, instead of its own
    [retryCount]; the consumer's [sendDirectMessage] has no counter.  Only
    the publisher's direct send stops, after its sixth request. *)
Theorem send_retries_without_cap (fuel : nat) :
  Publisher.send compact_text fuel a_publisher {| Val := "val" |}
    "sample_created" [] (refusing connection_refused) =
  (OutOfFuel,
   emits (concat (replicate fuel
                    (publish_round (sample_publish "sample_created")
                       connection_refused)))
     (refusing connection_refused))
  /\ Consumer.sendDirectMessage fuel a_consumer context_TODO an_input
       "test_event" (refusing connection_refused) =
     (OutOfFuel,
      emits (concat (replicate fuel
                       (consumer_round an_input "test_event" connection_refused)))
        (refusing connection_refused))
  /\ Publisher.sendDirectMessage (7 + fuel) a_publisher an_input "test_event" []
       (refusing connection_refused) =
     (Done tt,
      emits (concat (replicate 6 (direct_round an_input)))
        (refusing connection_refused)).
Proof.
  split; [|split].
  - rewrite (send_marshalled compact_text fuel a_publisher _ _
               (compact_text (JObject [("val", JString "val")]))) by reflexivity.
    apply retrier_never_gives_up; [unfold maxRetryCount; lia|reflexivity|reflexivity].
  - apply consumer_send_never_gives_up. reflexivity.
  - rewrite direct_send_entry.
    rewrite (direct_send_gives_up (7 + fuel) a_publisher an_input "test_event"
               connection_refused);
      [reflexivity|reflexivity|unfold min_int64; lia
      |unfold maxRetryCount; lia|reflexivity].
Qed.

(** The same on a backend that recovers: when the first seven requests fail
    and the eighth is accepted, the fan-out send and the consumer's direct
    send make all eight, past the cap, while the publisher's direct send
    has given up after six. *)
Example sends_past_the_cap :
  fst (Publisher.send compact_text 10 a_publisher {| Val := "val" |}
         "sample_created" [] (refusing_first 7 connection_refused)) = Done tt
  /\ send_count
       (trace (snd (Publisher.send compact_text 10 a_publisher {| Val := "val" |}
                      "sample_created" [] (refusing_first 7 connection_refused))))
     = 8%nat
  /\ fst (Consumer.sendDirectMessage 10 a_consumer context_TODO an_input
            "test_event" (refusing_first 7 connection_refused)) = Done tt
  /\ send_count
       (trace (snd (Consumer.sendDirectMessage 10 a_consumer context_TODO an_input
                      "test_event" (refusing_first 7 connection_refused))))
     = 8%nat
  /\ fst (Publisher.sendDirectMessage 10 a_publisher an_input "test_event" []
            (refusing_first 7 connection_refused)) = Done tt
  /\ send_count
       (trace (snd (Publisher.sendDirectMessage 10 a_publisher an_input
                      "test_event" [] (refusing_first 7 connection_refused))))
     = 6%nat.
Proof. repeat split; vm_compute; reflexivity. Qed.

(** C3, at its failing input: the consumer's direct send does not tell the
    payload-too-large failure from any other.  Against a backend that
    answers every request with [errDataLimit] it logs, sleeps ten seconds
    and sends again, for as long as it is followed, and it never panics,
    whatever the backend.  Both publisher paths panic with [ErrBodyOverflow]
    on the first such answer, after a single request. *)
Theorem consumer_send_retries_payload_too_large (fuel : nat) :
  Consumer.sendDirectMessage fuel a_consumer context_TODO an_input
    "test_event" (refusing errDataLimit) =
  (OutOfFuel,
   emits (concat (replicate fuel
                    (consumer_round an_input "test_event" errDataLimit)))
     (refusing errDataLimit))
  /\ (forall w v,
        fst (Consumer.sendDirectMessage fuel a_consumer context_TODO an_input
               "test_event" w) <> Panicked v)
  /\ Publisher.sendDirectMessage (S fuel) a_publisher an_input "test_event" []
       (refusing errDataLimit) =
     (Panicked (Error (Context ErrBodyOverflow errDataLimit)),
      emit (EvSendMessage an_input) (refusing errDataLimit))
  /\ Publisher.send compact_text (S fuel) a_publisher {| Val := "val" |}
       "sample_created" [] (refusing errDataLimit) =
     (Panicked (Error (Context ErrBodyOverflow errDataLimit)),
      emit (EvPublish (sample_publish "sample_created")) (refusing errDataLimit)).
Proof.
  split; [|split; [|split]].
  - apply consumer_send_never_gives_up. reflexivity.
  - intros w v. apply consumer_send_never_panics.
  - rewrite direct_send_entry.
    rewrite (direct_send_payload_too_large fuel a_publisher an_input "test_event"
               0 errDataLimit (refusing errDataLimit) (always (Some errDataLimit)));
      [reflexivity|unfold maxRetryCount; lia|reflexivity|reflexivity].
  - rewrite (send_marshalled compact_text (S fuel) a_publisher _ _
               (compact_text (JObject [("val", JString "val")]))) by reflexivity.
    rewrite (retrier_payload_too_large fuel a_publisher 0 _ _ 0 errDataLimit
               (refusing errDataLimit) (always (Some errDataLimit)));
      [reflexivity|unfold maxRetryCount; lia|reflexivity|reflexivity].
Qed.


(** The publisher's direct send is capped: called as [Message] calls it,
    and whatever the backend answers, it makes at most [maxRetryCount + 1]
    = 6 requests, every sleep between them lasts ten seconds, and it ends
    within seven turns. *)
Theorem publisher_direct_send_capped (fuel : nat) (p : publisher)
    (input : SendMessageInput) (name : string) (w : World) :
  exists added : list event,
    trace (snd (Publisher.sendDirectMessage fuel p input name [] w)) =
      (trace w ++ added)%list
    /\ (send_count added <= 6)%nat
    /\ Forall (fun d => d = (10 * Second)%Z) (sleeps added)
    /\ ((6 < fuel)%nat ->
        fst (Publisher.sendDirectMessage fuel p input name [] w) <> OutOfFuel).
Proof.
  rewrite direct_send_entry.
  destruct (direct_send_bounded fuel p input name 0 w)
    as (added & Htrace & Hcount & Hsleeps & Hends); [unfold min_int64; lia|].
  exists added. split; [exact Htrace|]. split; [exact Hcount|].
  split; [exact Hsleeps|]. exact Hends.
Qed.

(** On both publisher paths the payload-too-large failure is fatal: the
    first answer whose text is [errDataLimit]'s makes the path panic with
    [ErrBodyOverflow], after that one request and without sleeping. *)
Theorem publisher_payload_too_large_is_fatal {T} `{Marshaler T}
    (encode : json -> string) (fuel : nat) (p : publisher)
    (input : SendMessageInput) (payload : T) (name out : string) (e : error)
    (w : World) (rest : script (option error)) :
  String.eqb (Error e) (Error errDataLimit) = true ->
  next (backend w) = (Some e, rest) ->
  json_Marshal encode payload = inl out ->
  Publisher.sendDirectMessage (S fuel) p input name [] w =
  (Panicked (Error (Context ErrBodyOverflow e)),
   {| queue := queue w; backend := rest; inbox := inbox w; signals := signals w;
      trace := trace w ++ [EvSendMessage input] |})
  /\ Publisher.send encode (S fuel) p payload name [] w =
     (Panicked (Error (Context ErrBodyOverflow e)),
      {| queue := queue w; backend := rest; inbox := inbox w; signals := signals w;
         trace := trace w ++
                  [EvPublish
                     {| pub_Message := Some out;
                        pub_MessageAttributes :=
                          Some (defaultSNSAttributes name (p_attributes p));
                        TopicArn := Some (arn p) |}] |}).
Proof.
  intros He Hb Hm. split.
  - rewrite direct_send_entry.
    apply direct_send_payload_too_large; [unfold maxRetryCount; lia|exact He|exact Hb].
  - rewrite (send_marshalled encode (S fuel) p payload name out w Hm).
    apply retrier_payload_too_large; [unfold maxRetryCount; lia|exact He|exact Hb].
Qed.

Lemma publisher_payload_too_large_is_fatal_witness :
  Publisher.sendDirectMessage 1 a_publisher an_input "test_event" []
    (refusing errDataLimit) =
  (Panicked (Error (Context ErrBodyOverflow errDataLimit)),
   emit (EvSendMessage an_input) (refusing errDataLimit)).
Proof.
  apply (publisher_payload_too_large_is_fatal compact_text 0 a_publisher an_input
           {| Val := "val" |} "test_event"
           (compact_text (JObject [("val", JString "val")]))
           errDataLimit (refusing errDataLimit) (always (Some errDataLimit)));
    reflexivity.
Defined.

(** ** Modify and DecodeModified *)

Lemma decode_modified_document {B C} `{Unmarshaler B} `{Unmarshaler C}
    (jb jc : json) (b0 b : B) (c0 c : C) :
  UnmarshalJSON jb b0 = inl b ->
  UnmarshalJSON jc c0 = inl c ->
  UnmarshalJSON (JObject [("body", jb); ("changes", jc)])
    {| s_Body := b0; s_Changes := c0 |} =
  inl {| s_Body := b; s_Changes := c |}.
Proof.
  intros Hb Hc.
  unfold UnmarshalJSON at 1. unfold modified_Unmarshaler, decode_members.
  unfold decode_member at 1.
  change (field_for ["Body"; "Changes"] (fst ("body", jb))) with (Some "Body").
  cbn [fst snd s_Body s_Changes]. rewrite Hb.
  unfold decode_member.
  change (field_for ["Body"; "Changes"] (fst ("changes", jc))) with (Some "Changes").
  cbn [fst snd s_Body s_Changes]. rewrite Hc. reflexivity.
Qed.

(** C8: [Modify] publishes one composite document, the entity under
    ["body"] and the change-set under ["changes"]; [DecodeModified], applied
    to a message that carries this payload, recovers both: the body
    destination ends up equal to the entity and the changes destination
    equal to the change-set.  [encoding/json] is taken to do its part: the
    entity and the change-set have documents, the documents read back into
    the caller's destinations, and the text of the payload parses. *)
Theorem Modify_DecodeModified_round_trip {N C}
    `{Notifier N} `{Marshaler N} `{Marshaler C} `{Unmarshaler N} `{Unmarshaler C}
    (encode : json -> string) (decode : string -> option json)
    (fuel : nat) (p : publisher) (n n0 : N) (changes c0 : C) (jn jc : json)
    (w : World) (rest : script (option error)) :
  MarshalJSON n = inl jn ->
  MarshalJSON changes = inl jc ->
  UnmarshalJSON jn n0 = inl n ->
  UnmarshalJSON jc c0 = inl changes ->
  decode (encode (JObject [("body", jn); ("changes", jc)])) =
    Some (JObject [("body", jn); ("changes", jc)]) ->
  next (backend w) = (None, rest) ->
  Publisher.Modify encode (S fuel) p n changes w =
  (Done tt,
   {| queue := queue w; backend := rest; inbox := inbox w; signals := signals w;
      trace := trace w ++
               [EvPublish
                  {| pub_Message :=
                       Some (encode (JObject [("body", jn); ("changes", jc)]));
                     pub_MessageAttributes :=
                       Some (defaultSNSAttributes
                               (Publisher.event p n "modified") (p_attributes p));
                     TopicArn := Some (arn p) |}] |})
  /\ forall m : message,
       Body (Message m) = Some (encode (JObject [("body", jn); ("changes", jc)])) ->
       DecodeModified decode m n0 c0 = Done (None, n, changes).
Proof.
  intros Hn Hc Hn' Hc' Htext Hbackend. split.
  - unfold Publisher.Modify.
    rewrite (send_marshalled encode (S fuel) p _ _
               (encode (JObject [("body", jn); ("changes", jc)]))).
    + simpl. unfold_M; unfold Publish, request. rewrite Hbackend. reflexivity.
    + unfold json_Marshal, MarshalJSON at 1, modify_Marshaler, newModify. simpl.
      rewrite Hn, Hc. reflexivity.
  - intros m Hbody.
    unfold DecodeModified, Decode, body. rewrite Hbody. simpl.
    unfold json_Unmarshal. rewrite Htext.
    rewrite (decode_modified_document jn jc n0 n c0 changes Hn' Hc').
    reflexivity.
Qed.

(** The round trip of [TestModify]. *)
Lemma Modify_DecodeModified_round_trip_witness :
  DecodeModified read_text (newMessage modified_message) {| Val := EmptyString |}
    (∅ : gmap string string) =
  Done (None, {| Val := "val" |}, {["oldName" := "newName"]}).
Proof.
  destruct (Modify_DecodeModified_round_trip compact_text read_text 0 a_publisher
              {| Val := "val" |} {| Val := EmptyString |}
              ({["oldName" := "newName"]} : gmap string string) ∅
              (JObject [("val", JString "val")])
              (JObject [("oldName", JString "newName")])
              calm (always None))
    as [_ Hdecode]; [vm_compute; reflexivity ..|].
  apply Hdecode. vm_compute. reflexivity.
Defined.

(** * More properties *)

(** ** The run protocol, continued *)

(** When the handler returns nil, [run] starts the success signal and then
    asks the backend once to delete the message.  An accepted request makes
    [run] return nil with the receipt handle gone from the queue; a refused
    one is logged and returned inside [ErrUnableToDelete], the message
    staying where it was. *)
Theorem run_success_deletes_once (c : consumer) (m : message) (route : string)
    (h : Handler) (w w1 : World) :
  Route m = Done route ->
  handlers c !! route = Some h ->
  h context_Background m (emit (EvGo (GoExtend m)) w) = (Done None, w1) ->
  (forall rest, next (backend w1) = (None, rest) ->
     Consumer.run c m w =
     (Done None,
      {| queue := remove_receipt (ReceiptHandle (Message m)) (queue w1);
         backend := rest; inbox := inbox w1; signals := signals w1;
         trace := trace w1 ++
                  [EvGo (GoSignal m None);
                   EvDeleteMessage (QueueURL c) (ReceiptHandle (Message m))] |})
     /\ forall r, ReceiptHandle (Message m) = Some r ->
                  r ∉ queue (snd (Consumer.run c m w)))
  /\ (forall e rest, next (backend w1) = (Some e, rest) ->
        Consumer.run c m w =
        (Done (Some (SQSError_error (Context ErrUnableToDelete e))),
         {| queue := queue w1;
            backend := rest; inbox := inbox w1; signals := signals w1;
            trace := trace w1 ++
                     [EvGo (GoSignal m None);
                      EvDeleteMessage (QueueURL c) (ReceiptHandle (Message m));
                      EvLog [Error (Context ErrUnableToDelete e)]] |})).
Proof.
  intros Hr Hh Hnil. rewrite (run_routed c m route h w Hr Hh), Hnil. split.
  - intros rest Hnext.
    rewrite (delete_accepted c m (emit (EvGo (GoSignal m None)) w1) rest Hnext).
    simpl. rewrite <- app_assoc. split; [reflexivity|].
    intros r Hrh. simpl. rewrite Hrh. apply remove_receipt_gone.
  - intros e rest Hnext.
    rewrite (delete_refused c m (emit (EvGo (GoSignal m None)) w1) e rest Hnext).
    simpl. rewrite <- app_assoc. reflexivity.
Qed.

Lemma run_success_deletes_once_witness :
  Consumer.run test_consumer
    (newMessage (raw_message (Some {["route" := string_attribute "post_published"]})))
    calm =
  (Done None,
   {| queue := []; backend := always None; inbox := always (inr []);
      signals := always false;
      trace :=
        [EvGo (GoExtend (newMessage (raw_message
                 (Some {["route" := string_attribute "post_published"]}))));
         EvGo (GoSignal (newMessage (raw_message
                 (Some {["route" := string_attribute "post_published"]}))) None);
         EvDeleteMessage (QueueURL test_consumer) (Some "receipt-1")] |}).
Proof.
  destruct (run_success_deletes_once test_consumer
              (newMessage (raw_message
                 (Some {["route" := string_attribute "post_published"]})))
              "post_published" test_handler calm
              (emit (EvGo (GoExtend (newMessage (raw_message
                 (Some {["route" := string_attribute "post_published"]}))))) calm))
    as [Haccepted _]; [vm_compute; reflexivity ..|].
  destruct (Haccepted (always None)) as [Hrun _]; [reflexivity|].
  rewrite Hrun. vm_compute. reflexivity.
Defined.

(** *** Panics *)

(** A handler panic that the first-listed [WithRecovery] recovers from is
    taken for a success: the wrapper returns nil, so [run] signals success
    and deletes the message.  A panic that is not recovered leaves [run]
    as a panic: no completion signal is started and no delete request is
    sent. *)
Theorem recovered_panic_deletes_message (c : consumer) (name : string)
    (h : Handler) (rest : list Adapter) (r : Recovery) (m : message)
    (v : string) (w w1 w2 : World) :
  Route m = Done name ->
  foldr (fun a g => a g) h rest context_Background m
    (emit (EvGo (GoExtend m)) w) = (Panicked v, w1) ->
  (r (Some v) w1 = (Done true, w2) ->
   Consumer.run (Consumer.RegisterHandler c name h (WithRecovery r :: rest)) m w =
   Consumer.delete (Consumer.RegisterHandler c name h (WithRecovery r :: rest)) m
     (emit (EvGo (GoSignal m None)) w2))
  /\ (r (Some v) w1 = (Done false, w2) ->
      Consumer.run (Consumer.RegisterHandler c name h (WithRecovery r :: rest)) m w =
      (Panicked v, w2))
  /\ Consumer.run (Consumer.RegisterHandler c name h rest) m w = (Panicked v, w1).
Proof.
  intros Hr Hpanic. split; [|split].
  - intros Hrec.
    rewrite (run_routed _ m name _ w Hr (RegisterHandler_lookup c name h _)).
    simpl. unfold WithRecovery at 1. rewrite Hpanic, Hrec. reflexivity.
  - intros Hrec.
    rewrite (run_routed _ m name _ w Hr (RegisterHandler_lookup c name h _)).
    simpl. unfold WithRecovery at 1. rewrite Hpanic, Hrec. reflexivity.
  - rewrite (run_routed _ m name _ w Hr (RegisterHandler_lookup c name h _)).
    rewrite Hpanic. reflexivity.
Qed.

Lemma recovered_panic_deletes_message_witness :
  Consumer.run
    (Consumer.RegisterHandler a_consumer "post_published" panicking_handler
       [WithRecovery recovering])
    (newMessage post_published_message) calm =
  (Done None,
   {| queue := []; backend := always None; inbox := always (inr []);
      signals := always false;
      trace := [EvGo (GoExtend (newMessage post_published_message));
                EvLog ["recovered"; "boom"];
                EvGo (GoSignal (newMessage post_published_message) None);
                EvDeleteMessage (QueueURL a_consumer) (Some "receipt-1")] |}).
Proof.
  destruct (recovered_panic_deletes_message a_consumer "post_published"
              panicking_handler [] recovering
              (newMessage post_published_message) "boom" calm
              (emit (EvGo (GoExtend (newMessage post_published_message))) calm)
              (emit (EvLog ["recovered"; "boom"])
                 (emit (EvGo (GoExtend (newMessage post_published_message))) calm)))
    as (Hrecovered & _ & _); [vm_compute; reflexivity ..|].
  rewrite Hrecovered by reflexivity. vm_compute. reflexivity.
Defined.

(** ** The worker *)

Lemma worker_app (c : consumer) (id : Z) (first later : list message) (w : World) :
  worker c id (first ++ later) w = (worker c id first;; worker c id later) w.
Proof.
  revert w. induction first as [|m first IH]; intros w; [reflexivity|].
  simpl. unfold_M. destruct (Consumer.worker_job c m w) as [[[]|v|] w1];
    [apply IH|reflexivity|reflexivity].
Qed.

Lemma delete_returns (c : consumer) (m : message) (w : World) :
  exists r w', Consumer.delete c m w = (Done r, w').
Proof.
  destruct (next (backend w)) as [[e|] rest] eqn:Hnext.
  - rewrite (delete_refused c m w e rest Hnext). eauto.
  - rewrite (delete_accepted c m w rest Hnext). eauto.
Qed.

Lemma worker_job_returns (c : consumer) (m : message) (route : string) (w : World) :
  Route m = Done route ->
  (forall h, handlers c !! route = Some h -> returning h) ->
  exists w', Consumer.worker_job c m w = (Done tt, w').
Proof.
  intros Hr Hh. unfold Consumer.worker_job. unfold_M.
  assert (Hrun : exists r w1, Consumer.run c m w = (Done r, w1)).
  { destruct (handlers c !! route) as [h|] eqn:Hl.
    - rewrite (run_routed c m route h w Hr Hl).
      destruct (Hh h eq_refl context_Background m (emit (EvGo (GoExtend m)) w))
        as ([e|] & w1 & Hcall); rewrite Hcall; [eauto|apply delete_returns].
    - rewrite (run_unrouted c m route w Hr Hl). apply delete_returns. }
  destruct Hrun as ([e|] & w1 & Hrun); rewrite Hrun; eauto.
Qed.



(** ** Lease extension, turn by turn *)

Lemma extend_turns_cons (c : consumer) (m : message) (d : Z) (ds : list Z) :
  extend_turns c m (d :: ds) =
  (extend_sleep c
   :: EvChangeMessageVisibility (QueueURL c) (ReceiptHandle (Message m)) d
   :: extend_turns c m ds)%list.
Proof. reflexivity. Qed.

(** While the backend accepts and no completion signal is seen, every turn
    sleeps and extends; the turn that sees the signal sleeps and ends the
    loop. *)
Lemma extend_loop_until_signal (c : consumer) (m : message) (k : nat) :
  forall (fuel : nat) (count extension : Z) (w : World) (later : list bool)
         (after : bool),
    (k < fuel)%nat ->
    (count + Z.of_nat k < extensionLimit c)%Z ->
    signals w = {| upcoming := replicate k false ++ true :: later;
                   thereafter := after |} ->
    backend w = always None ->
    Consumer.extend_loop fuel c m count extension w =
    (Done tt,
     {| queue := queue w; backend := backend w; inbox := inbox w;
        signals := {| upcoming := later; thereafter := after |};
        trace := trace w ++
                 extend_turns c m (leases extension (VisibilityTimeout c) k) ++
                 [extend_sleep c] |}).
Proof.
  induction k as [|k IH]; intros fuel count extension w later after Hfuel Hlim Hs Hb;
    (destruct fuel as [|fuel]; [lia|]); simpl Consumer.extend_loop;
    replace (extensionLimit c <=? count)%Z with false
      by (symmetry; apply Z.leb_gt; lia);
    unfold_M; unfold tell, select_err, next; simpl; rewrite Hs; simpl.
  - reflexivity.
  - unfold ChangeMessageVisibility, request, next. simpl. rewrite Hb. simpl.
    rewrite (IH fuel (count + 1)%Z _ _ later after); [|lia|lia|reflexivity|reflexivity].
    simpl. rewrite <- !app_assoc. reflexivity.
Qed.

(** While no completion signal is seen, the loop extends until the backend
    refuses a request; it then logs the failure and ends, without asking
    again. *)
Lemma extend_loop_until_refusal (c : consumer) (m : message) (k : nat) :
  forall (fuel : nat) (count extension : Z) (w : World) (e : error)
         (later : list (option error)) (after : option error),
    (k < fuel)%nat ->
    (count + Z.of_nat k < extensionLimit c)%Z ->
    signals w = always false ->
    backend w = {| upcoming := replicate k None ++ Some e :: later;
                   thereafter := after |} ->
    Consumer.extend_loop fuel c m count extension w =
    (Done tt,
     {| queue := queue w;
        backend := {| upcoming := later; thereafter := after |};
        inbox := inbox w; signals := signals w;
        trace := trace w ++
                 extend_turns c m (leases extension (VisibilityTimeout c) (S k)) ++
                 [EvLog [Error ErrUnableToExtend; Error e]] |}).
Proof.
  induction k as [|k IH]; intros fuel count extension w e later after Hfuel Hlim Hs Hb;
    (destruct fuel as [|fuel]; [lia|]); simpl Consumer.extend_loop;
    replace (extensionLimit c <=? count)%Z with false
      by (symmetry; apply Z.leb_gt; lia);
    unfold_M; unfold tell, select_err, next; simpl; rewrite Hs; simpl;
    unfold ChangeMessageVisibility, request, next; simpl; rewrite Hb; simpl.
  - unfold emit, emits. simpl. rewrite <- !app_assoc. reflexivity.
  - rewrite (IH fuel (count + 1)%Z _ _ e later after); [|lia|lia|reflexivity|reflexivity].
    simpl. rewrite <- !app_assoc. reflexivity.
Qed.

(** With no completion signal and an accepting backend the loop extends
    until its counter reaches the limit, then logs that the processing time
    is exceeded, with the route, and ends. *)
Lemma extend_loop_until_limit (c : consumer) (m : message) (route : string) :
  Route m = Done route ->
  forall (fuel : nat) (count extension : Z) (w : World),
    (Z.to_nat (extensionLimit c - count) < fuel)%nat ->
    signals w = always false ->
    backend w = always None ->
    Consumer.extend_loop fuel c m count extension w =
    (Done tt,
     emits (extend_turns c m
              (leases extension (VisibilityTimeout c)
                 (Z.to_nat (extensionLimit c - count))) ++
            [EvLog [Error ErrMessageProcessing; route]]) w).
Proof.
  intros Hr. induction fuel as [|fuel IH]; intros count extension w Hfuel Hs Hb; [lia|].
  simpl Consumer.extend_loop.
  destruct (extensionLimit c <=? count)%Z eqn:Hlim.
  - apply Z.leb_le in Hlim.
    replace (Z.to_nat (extensionLimit c - count)) with 0%nat by lia.
    unfold_M. rewrite Hr. reflexivity.
  - apply Z.leb_gt in Hlim.
    replace (Z.to_nat (extensionLimit c - count))
      with (S (Z.to_nat (extensionLimit c - (count + 1)))) by lia.
    unfold_M; unfold tell, select_err, next; simpl; rewrite Hs; simpl.
    unfold ChangeMessageVisibility, request, next; simpl; rewrite Hb; simpl.
    rewrite IH; [|lia|reflexivity|reflexivity].
    unfold emits. simpl. rewrite Hs, Hb, <- !app_assoc. reflexivity.
Qed.

Lemma extensions_extend_turns (c : consumer) (m : message) (ds : list Z) :
  extensions (extend_turns c m ds) = ds.
Proof.
  induction ds as [|d ds IH]; [reflexivity|].
  rewrite extend_turns_cons.
  change (extensions
            ([extend_sleep c;
              EvChangeMessageVisibility (QueueURL c) (ReceiptHandle (Message m)) d]
             ++ extend_turns c m ds) = d :: ds).
  rewrite extensions_app, IH. reflexivity.
Qed.

(** Once the handler has completed, the lease is extended no further: if
    the completion signal is seen at the check that follows [k] extensions
    (below the limit, all accepted), the loop ends there, having sent
    exactly those [k] requests and logged nothing. *)
Theorem extend_stops_at_completion (fuel : nat) (c : consumer)
    (ctx : context_Context) (m : message) (k : nat) (w : World)
    (later : list bool) (after : bool) :
  (k < fuel)%nat ->
  (Z.of_nat k < extensionLimit c)%Z ->
  signals w = {| upcoming := replicate k false ++ true :: later;
                 thereafter := after |} ->
  backend w = always None ->
  Consumer.extend fuel c ctx m w =
  (Done tt,
   {| queue := queue w; backend := backend w; inbox := inbox w;
      signals := {| upcoming := later; thereafter := after |};
      trace := trace w ++
               extend_turns c m
                 (leases (VisibilityTimeout c) (VisibilityTimeout c) k) ++
               [extend_sleep c] |})
  /\ extensions (trace (snd (Consumer.extend fuel c ctx m w))) =
     (extensions (trace w)
      ++ leases (VisibilityTimeout c) (VisibilityTimeout c) k)%list.
Proof.
  intros Hfuel Hlim Hs Hb. unfold Consumer.extend.
  rewrite (extend_loop_until_signal c m k fuel 0 _ w later after Hfuel);
    [|lia|exact Hs|exact Hb].
  split; [reflexivity|]. simpl.
  rewrite !extensions_app, extensions_extend_turns. simpl.
  rewrite app_nil_r. reflexivity.
Qed.

Lemma extend_stops_at_completion_witness :
  extensions (trace (snd (Consumer.extend 3 a_consumer context_Background
                            (newMessage post_created_message)
                            (completing_after 1)))) = [60%Z].
Proof.
  destruct (extend_stops_at_completion 3 a_consumer context_Background
              (newMessage post_created_message) 1 (completing_after 1) [] true)
    as [_ Hext]; [lia|simpl; lia|reflexivity|reflexivity|].
  rewrite Hext. reflexivity.
Defined.

(** A refused extension is not retried: when the backend refuses the request
    that follows [k] accepted ones, the loop logs [ErrUnableToExtend] with
    the backend's error and ends; no further request is sent, although the
    handler has not completed and the limit is not reached. *)
Theorem extend_gives_up_on_refusal (fuel : nat) (c : consumer)
    (ctx : context_Context) (m : message) (k : nat) (w : World) (e : error)
    (later : list (option error)) (after : option error) :
  (k < fuel)%nat ->
  (Z.of_nat k < extensionLimit c)%Z ->
  signals w = always false ->
  backend w = {| upcoming := replicate k None ++ Some e :: later;
                 thereafter := after |} ->
  Consumer.extend fuel c ctx m w =
  (Done tt,
   {| queue := queue w;
      backend := {| upcoming := later; thereafter := after |};
      inbox := inbox w; signals := signals w;
      trace := trace w ++
               extend_turns c m
                 (leases (VisibilityTimeout c) (VisibilityTimeout c) (S k)) ++
               [EvLog [Error ErrUnableToExtend; Error e]] |})
  /\ length (extensions (trace (snd (Consumer.extend fuel c ctx m w)))) =
     (length (extensions (trace w)) + S k)%nat.
Proof.
  intros Hfuel Hlim Hs Hb. unfold Consumer.extend.
  rewrite (extend_loop_until_refusal c m k fuel 0 _ w e later after Hfuel);
    [|lia|exact Hs|exact Hb].
  split; [reflexivity|]. cbn [snd trace].
  rewrite !extensions_app, extensions_extend_turns, !length_app.
  assert (Hlen : forall ext n, length (leases ext (VisibilityTimeout c) n) = n).
  { intros ext n. revert ext. induction n as [|n IH]; intros ext; [reflexivity|].
    simpl. rewrite IH. reflexivity. }
  rewrite Hlen. simpl. lia.
Qed.

Lemma extend_gives_up_on_refusal_witness :
  Consumer.extend 3 a_consumer context_Background
    (newMessage post_created_message) (refusing_after 0 connection_refused) =
  (Done tt,
   {| queue := ["receipt-1"]; backend := always None; inbox := always (inr []);
      signals := always false;
      trace := [extend_sleep a_consumer;
                EvChangeMessageVisibility (QueueURL a_consumer)
                  (Some "receipt-1") 60;
                EvLog [Error ErrUnableToExtend; Error connection_refused]] |}).
Proof.
  destruct (extend_gives_up_on_refusal 3 a_consumer context_Background
              (newMessage post_created_message) 0
              (refusing_after 0 connection_refused) connection_refused [] None)
    as [Hrun _]; [lia|simpl; lia|reflexivity|reflexivity|].
  rewrite Hrun. reflexivity.
Defined.

(** When the handler does not complete and the backend accepts every
    request, the loop sends exactly [extensionLimit] requests (none for a
    limit of zero or less), then logs [ErrMessageProcessing] with the route
    and ends: the lease is not extended again, however long the handler
    runs. *)
Theorem extend_exhausts_limit (fuel : nat) (c : consumer)
    (ctx : context_Context) (m : message) (route : string) (w : World) :
  Route m = Done route ->
  (Z.to_nat (extensionLimit c) < fuel)%nat ->
  signals w = always false ->
  backend w = always None ->
  Consumer.extend fuel c ctx m w =
  (Done tt,
   emits (extend_turns c m
            (leases (VisibilityTimeout c) (VisibilityTimeout c)
               (Z.to_nat (extensionLimit c))) ++
          [EvLog [Error ErrMessageProcessing; route]]) w)
  /\ length (extensions (trace (snd (Consumer.extend fuel c ctx m w)))) =
     (length (extensions (trace w)) + Z.to_nat (extensionLimit c))%nat.
Proof.
  intros Hr Hfuel Hs Hb. unfold Consumer.extend.
  rewrite (extend_loop_until_limit c m route Hr fuel 0 _ w);
    [|rewrite Z.sub_0_r; exact Hfuel|exact Hs|exact Hb].
  rewrite Z.sub_0_r. split; [reflexivity|]. cbn [snd trace emits].
  rewrite !extensions_app, extensions_extend_turns, !length_app.
  assert (Hlen : forall ext n, length (leases ext (VisibilityTimeout c) n) = n).
  { intros ext n. revert ext. induction n as [|n IH]; intros ext; [reflexivity|].
    simpl. rewrite IH. reflexivity. }
  rewrite Hlen. simpl. lia.
Qed.

Lemma extend_exhausts_limit_witness :
  Consumer.extend 3 a_consumer context_Background
    (newMessage post_created_message) calm =
  (Done tt,
   emits [extend_sleep a_consumer;
          EvChangeMessageVisibility (QueueURL a_consumer) (Some "receipt-1") 60;
          extend_sleep a_consumer;
          EvChangeMessageVisibility (QueueURL a_consumer) (Some "receipt-1") 90;
          EvLog [Error ErrMessageProcessing; "post_created"]] calm).
Proof.
  destruct (extend_exhausts_limit 3 a_consumer context_Background
              (newMessage post_created_message) "post_created" calm)
    as [Hrun _]; [vm_compute; reflexivity|simpl; lia|reflexivity|reflexivity|].
  rewrite Hrun. reflexivity.
Defined.

(** ** Consume *)

Lemma receive_count_app (tr tr' : list event) :
  receive_count (tr ++ tr') = (receive_count tr + receive_count tr')%nat.
Proof. unfold receive_count. rewrite filter_app, length_app. reflexivity. Qed.

Lemma receive_count_jobs (ms : list sqs_Message) :
  receive_count (map (fun m' => EvJob (newMessage m')) ms) = 0%nat.
Proof.
  induction ms as [|m ms IH]; [reflexivity|].
  change (receive_count ([EvJob (newMessage m)]
                         ++ map (fun m' => EvJob (newMessage m')) ms) = 0%nat).
  rewrite receive_count_app, IH. reflexivity.
Qed.

Lemma receive_count_workers (n first : nat) :
  receive_count (map (fun i => EvGo (GoWorker (Z.of_nat i))) (seq first n)) = 0%nat.
Proof.
  revert first. induction n as [|n IH]; intros first; [reflexivity|].
  change (receive_count ([EvGo (GoWorker (Z.of_nat first))]
                         ++ map (fun i => EvGo (GoWorker (Z.of_nat i)))
                              (seq (S first) n)) = 0%nat).
  rewrite receive_count_app, IH. reflexivity.
Qed.

(** One turn of the poll loop sends one receive request and completes. *)
Lemma poll_turn (c : consumer) (w : World) :
  exists w' added,
    Consumer.poll c w = (Done tt, w')
    /\ trace w' = (trace w ++ added)%list
    /\ receive_count added = 1%nat.
Proof.
  unfold Consumer.poll, ReceiveMessage. unfold_M.
  destruct (next (inbox w)) as [[err|batch] rest] eqn:Hnext.
  - eexists _, [EvReceiveMessage (QueueURL c); _; _]. split; [reflexivity|].
    simpl. rewrite <- !app_assoc. split; reflexivity.
  - match goal with |- context [Consumer.enqueue batch ?w1] =>
      destruct (enqueue_jobs batch w1) as (ms & _ & Hrun); rewrite Hrun end.
    eexists _, (EvReceiveMessage (QueueURL c)
                  :: map (fun m' => EvJob (newMessage m')) ms).
    split; [reflexivity|]. simpl. rewrite <- app_assoc. split; [reflexivity|].
    change (receive_count ([EvReceiveMessage (QueueURL c)]
                           ++ map (fun m' => EvJob (newMessage m')) ms) = 1%nat).
    rewrite receive_count_app, receive_count_jobs. reflexivity.
Qed.

Lemma poll_loop_turns (fuel : nat) (c : consumer) (w : World) :
  exists w' added,
    Consumer.poll_loop fuel c w = (OutOfFuel, w')
    /\ trace w' = (trace w ++ added)%list
    /\ receive_count added = fuel.
Proof.
  revert w. induction fuel as [|fuel IH]; intros w.
  - exists w, []. rewrite app_nil_r. repeat split.
  - destruct (poll_turn c w) as (w1 & added1 & Hpoll & Htrace1 & Hcount1).
    destruct (IH w1) as (w2 & added2 & Hloop & Htrace2 & Hcount2).
    exists w2, (added1 ++ added2)%list. simpl. unfold_M. rewrite Hpoll, Hloop.
    split; [reflexivity|]. split.
    + rewrite Htrace2, Htrace1, app_assoc. reflexivity.
    + rewrite receive_count_app. lia.
Qed.

Lemma start_workers_trace (n : nat) (id : Z) (w : World) :
  Consumer.start_workers n id w =
  (Done tt,
   emits (map (fun i => EvGo (GoWorker (id + Z.of_nat i))) (seq 0 n)) w).
Proof.
  revert id w. induction n as [|n IH]; intros id w.
  - simpl. rewrite emits_nil. reflexivity.
  - cbn [Consumer.start_workers]. unfold_M. unfold tell. cbn beta iota.
    rewrite IH.
    unfold emit. rewrite emits_emits. f_equal. f_equal.
    cbn [seq map app]. rewrite Z.add_0_r. f_equal.
    rewrite <- seq_shift, map_map. apply map_ext. intros i. do 2 f_equal. lia.
Qed.

Lemma workers_started_from_one (n : nat) :
  map (fun i => EvGo (GoWorker (1 + Z.of_nat i))) (seq 0 n) = workers_started n.
Proof.
  unfold workers_started. rewrite <- seq_shift, map_map. apply map_ext.
  intros i. do 2 f_equal. lia.
Qed.


(** ** Registration, continued *)

Lemma RegisterHandler_dom (c : consumer) (name : string) (h : Handler)
    (adapters : list Adapter) :
  dom (handlers (Consumer.RegisterHandler c name h adapters)) =
  {[name]} ∪ dom (handlers c).
Proof. unfold Consumer.RegisterHandler. simpl. apply dom_insert_L. Qed.

Lemma register_all_snoc (c : consumer) (regs : list registration)
    (reg : registration) :
  register_all c (regs ++ [reg]) =
  Consumer.RegisterHandler (register_all c regs) (fst (fst reg)) (snd (fst reg))
    (snd reg).
Proof. unfold register_all. rewrite foldl_snoc. reflexivity. Qed.

(** After any series of registrations the routes that have a handler are
    those the consumer had and those registered since; a route registered
    more than once keeps its last registration, adapters included; the
    consumer's configuration is untouched. *)
Theorem register_all_routes (c : consumer) (regs : list registration) :
  dom (handlers (register_all c regs)) =
    dom (handlers c) ∪ list_to_set (map (fun reg => fst (fst reg)) regs)
  /\ (forall name h adapters,
        handlers (register_all c (regs ++ [(name, h, adapters)])) !! name =
        Some (foldr (fun a g => a g) h adapters))
  /\ QueueURL (register_all c regs) = QueueURL c
  /\ VisibilityTimeout (register_all c regs) = VisibilityTimeout c
  /\ extensionLimit (register_all c regs) = extensionLimit c
  /\ workerPool (register_all c regs) = workerPool c.
Proof.
  split; [|split].
  - induction regs as [|reg regs IH] using rev_ind.
    + simpl. rewrite (right_id_L ∅ (∪)). reflexivity.
    + rewrite register_all_snoc, RegisterHandler_dom, IH, map_app, list_to_set_app_L.
      simpl. rewrite (right_id_L ∅ (∪)).
      rewrite (comm_L (∪) {[reg.1.1]}), (assoc_L (∪)). reflexivity.
  - intros name h adapters. rewrite register_all_snoc. simpl.
    apply RegisterHandler_lookup.
  - induction regs as [|reg regs IH] using rev_ind; [repeat split|].
    rewrite register_all_snoc. simpl. exact IH.
Qed.

(** ** Attributes of outbound messages *)

Lemma attributes_fold_dom (ca : list customAttribute)
    (base : gmap string (ptr MessageAttributeValue)) :
  dom (foldl (fun m attr =>
                <[Title attr :=
                    Some {| DataType := Some (ca_DataType attr);
                            StringValue := Some (Value attr) |}]> m) base ca) =
  dom base ∪ list_to_set (map Title ca).
Proof.
  revert base. induction ca as [|a ca IH]; intros base.
  - simpl. rewrite (right_id_L ∅ (∪)). reflexivity.
  - simpl. rewrite IH, dom_insert_L.
    rewrite (comm_L (∪) {[Title a]}), (assoc_L (∪)). reflexivity.
Qed.

Lemma attributes_fold_other (ca : list customAttribute) (key : string)
    (base : gmap string (ptr MessageAttributeValue)) :
  Forall (fun a => Title a <> key) ca ->
  foldl (fun m attr =>
           <[Title attr :=
               Some {| DataType := Some (ca_DataType attr);
                       StringValue := Some (Value attr) |}]> m) base ca !! key =
  base !! key.
Proof.
  intros Hca. revert base. induction Hca as [|a ca Ha _ IH]; intros base.
  - reflexivity.
  - simpl. rewrite IH. apply lookup_insert_ne. exact Ha.
Qed.

Lemma default_route_entry (name : string) (ca : list customAttribute) :
  Forall (fun a => Title a <> "route") ca ->
  defaultSQSAttributes name ca !! "route" =
  Some (Some {| DataType := Some "String"; StringValue := Some name |}).
Proof.
  intros Hca. unfold defaultSQSAttributes.
  rewrite attributes_fold_other by exact Hca. apply lookup_singleton_eq.
Qed.

(** The attributes of every outbound message: the keys are ["route"] and
    the titles of the custom attributes.  The route entry is the String
    attribute holding the event, unless a custom attribute is itself titled
    ["route"]: the attributes are written after the route, a later one over
    an earlier one of the same title, so the last attribute of a list is
    always found under its title, ["route"] included. *)
Theorem outbound_attributes (name : string) (ca : list customAttribute) :
  dom (defaultSQSAttributes name ca) = {["route"]} ∪ list_to_set (map Title ca)
  /\ (Forall (fun a => Title a <> "route") ca ->
      defaultSQSAttributes name ca !! "route" =
      Some (Some {| DataType := Some "String"; StringValue := Some name |}))
  /\ (forall a,
        defaultSQSAttributes name (ca ++ [a]) !! Title a =
        Some (Some {| DataType := Some (ca_DataType a);
                      StringValue := Some (Value a) |})).
Proof.
  split; [|split].
  - unfold defaultSQSAttributes.
    rewrite attributes_fold_dom, dom_singleton_L. reflexivity.
  - apply default_route_entry.
  - intros a. unfold defaultSQSAttributes. rewrite foldl_snoc.
    apply lookup_insert_eq.
Qed.

(** ** The publisher's operations *)

Lemma retrier_accepted (fuel : nat) (p : publisher) (c : Z)
    (snsInput input : PublishInput) (retryCount : Z) (w : World)
    (rest : script (option error)) :
  (c <= maxRetryCount)%Z ->
  next (backend w) = (None, rest) ->
  Publisher.retrier (S fuel) p c snsInput input retryCount w =
  (Done tt, accepted (EvPublish snsInput) rest w).
Proof.
  intros Hc Hb. simpl.
  replace (maxRetryCount <? c)%Z with false by (symmetry; apply Z.ltb_ge; exact Hc).
  unfold_M; unfold Publish, request. rewrite Hb. reflexivity.
Qed.

Lemma send_accepted {T} `{Marshaler T} (encode : json -> string) (fuel : nat)
    (p : publisher) (payload : T) (name : string) (j : json) (w : World)
    (rest : script (option error)) :
  MarshalJSON payload = inl j ->
  next (backend w) = (None, rest) ->
  Publisher.send encode (S fuel) p payload name [] w =
  (Done tt, accepted (EvPublish (published p name (encode j))) rest w).
Proof.
  intros Hm Hb.
  rewrite (send_marshalled encode (S fuel) p payload name (encode j) w)
    by (unfold json_Marshal; rewrite Hm; reflexivity).
  apply retrier_accepted; [unfold maxRetryCount; lia|exact Hb].
Qed.

(** The fan-out operations of a publisher that is not in camel case publish
    the entity's document to the topic, routed by the model's name, an
    underscore and the action: [created], [deleted], [updated], or the
    action given to [Dispatch]; the route attribute of what is published is
    that name, as long as no custom attribute is titled ["route"]. *)
Theorem fan_out_routes {N} `{Notifier N} `{Marshaler N}
    (encode : json -> string) (fuel : nat) (p : publisher) (n : N) (j : json)
    (w : World) (rest : script (option error)) :
  camelCase p = false ->
  Forall (fun a => Title a <> "route") (p_attributes p) ->
  MarshalJSON n = inl j ->
  next (backend w) = (None, rest) ->
  Publisher.Create encode (S fuel) p n w =
    (Done tt,
     accepted (EvPublish (published p (ModelName n ++ "_created") (encode j))) rest w)
  /\ Publisher.Delete encode (S fuel) p n w =
    (Done tt,
     accepted (EvPublish (published p (ModelName n ++ "_deleted") (encode j))) rest w)
  /\ Publisher.Update encode (S fuel) p n w =
    (Done tt,
     accepted (EvPublish (published p (ModelName n ++ "_updated") (encode j))) rest w)
  /\ (forall action,
        Publisher.Dispatch encode (S fuel) p n action w =
        (Done tt,
         accepted (EvPublish (published p (ModelName n ++ "_" ++ action) (encode j)))
           rest w))
  /\ (forall name out,
        map_index (pub_MessageAttributes (published p name out)) "route" =
        Some {| DataType := Some "String"; StringValue := Some name |}).
Proof.
  intros Hcase Hattrs Hm Hb.
  assert (Hevent : forall action,
             Publisher.event p n action = ModelName n ++ "_" ++ action).
  { intros action. unfold Publisher.event. rewrite Hcase. reflexivity. }
  unfold Publisher.Create, Publisher.Delete, Publisher.Update, Publisher.Dispatch.
  rewrite !Hevent.
  repeat split; try (intros action; rewrite Hevent);
    try (apply send_accepted; assumption).
  intros name out. unfold map_index, map_lookup_ok, published. simpl.
  unfold defaultSNSAttributes.
  rewrite (default_route_entry name (p_attributes p) Hattrs). reflexivity.
Qed.

Lemma fan_out_routes_witness :
  Publisher.Create compact_text 1 a_publisher {| Val := "val" |} calm =
  (Done tt,
   accepted (EvPublish (sample_publish "sample_created")) (always None) calm).
Proof.
  destruct (fan_out_routes compact_text 0 a_publisher {| Val := "val" |}
              (JObject [("val", JString "val")]) calm (always None))
    as (Hcreate & _); [reflexivity|constructor|reflexivity|reflexivity|].
  rewrite Hcreate. reflexivity.
Defined.

(** [Message] sends straight to one queue: the queue's URL is the
    publisher's base URL followed by the environment, a dash and the queue
    name, and the event is the route as given, with no model name put in
    front.  A body that cannot be encoded is never sent: the failure is
    logged, or, for a publisher without a logger, the call panics on the nil
    logger. *)
Theorem direct_message_route {T} `{Marshaler T} (encode : json -> string)
    (fuel : nat) (p : publisher) (queue name : string) (payload : T) (j : json)
    (w : World) (rest : script (option error)) :
  MarshalJSON payload = inl j ->
  next (backend w) = (None, rest) ->
  Publisher.Message encode (S fuel) p queue name payload w =
    (Done tt,
     accepted
       (EvSendMessage
          {| MessageBody := Some (encode j);
             send_MessageAttributes :=
               Some (defaultSQSAttributes name (p_attributes p));
             QueueUrl := Some (sqsURL p ++ p_env p ++ "-" ++ queue) |})
       rest w)
  /\ (Forall (fun a => Title a <> "route") (p_attributes p) ->
      defaultSQSAttributes name (p_attributes p) !! "route" =
      Some (Some {| DataType := Some "String"; StringValue := Some name |}))
  /\ (forall (U : Type) (HU : Marshaler U) (unsendable : U) (err : error) (w' : World),
        MarshalJSON unsendable = inr err ->
        Publisher.Message encode fuel p queue name unsendable w' =
        match logger p with
        | Some _ => (Done tt, emit (EvLog [Error (Context ErrMarshal err)]) w')
        | None => (Panicked nilDereference, w')
        end).
Proof.
  intros Hm Hb. split; [|split].
  - unfold Publisher.Message, json_Marshal. rewrite Hm.
    rewrite direct_send_entry. simpl.
    unfold_M; unfold SendMessage, request. rewrite Hb. reflexivity.
  - apply default_route_entry.
  - intros U HU unsendable err w' Herr.
    unfold Publisher.Message, json_Marshal. rewrite Herr.
    destruct (logger p); reflexivity.
Qed.

Lemma direct_message_route_witness :
  Publisher.Message compact_text 1 a_publisher "post-worker" "some_event"
    {| Val := "val" |} calm =
  (Done tt,
   accepted
     (EvSendMessage
        {| MessageBody := Some (compact_text (JObject [("val", JString "val")]));
           send_MessageAttributes := Some {["route" := string_attribute "some_event"]};
           QueueUrl := Some "http://localhost:4100/dev-post-worker" |})
     (always None) calm).
Proof.
  destruct (direct_message_route compact_text 0 a_publisher "post-worker"
              "some_event" {| Val := "val" |} (JObject [("val", JString "val")])
              calm (always None))
    as (Hsend & _); [reflexivity|reflexivity|].
  rewrite Hsend. reflexivity.
Defined.

(** ** Construction *)

(** A publisher made by [NewPublisher] carries neither the configuration's
    custom attributes nor its logger, and is never in camel case: what it
    publishes has the route as its only attribute, its event names are in
    snake case, and a direct message whose body cannot be encoded panics on
    the nil logger.  Its topic is the configured ARN or, without one, the
    ARN put together from region, account, prefix and environment; its
    queues are looked for under the configured host or, without one, under
    the region's SQS endpoint. *)
Theorem NewPublisher_keeps_route_only (session : Type)
    (newSession : Cfg.Config -> session + error) (c : Cfg.Config) (sess : session) :
  newSession c = inl sess ->
  exists p,
    Gosqs.NewPublisher session newSession c = inl p
    /\ (forall name out,
          pub_MessageAttributes (published p name out) =
          Some {["route" := Some {| DataType := Some "String";
                                    StringValue := Some name |}]})
    /\ (forall (N : Type) (HN : Notifier N) (n : N) action,
          Publisher.event p n action = ModelName n ++ "_" ++ action)
    /\ (forall (U : Type) (HU : Marshaler U) encode fuel queue name (unsendable : U) err w,
          MarshalJSON unsendable = inr err ->
          Publisher.Message encode fuel p queue name unsendable w =
          (Panicked nilDereference, w))
    /\ arn p = (if String.eqb (Cfg.TopicARN c) "" then
                  "arn:aws:sns:" ++ Cfg.Region c ++ ":" ++ Cfg.AWSAccountID c
                    ++ ":" ++ Cfg.TopicPrefix c ++ "-" ++ Cfg.Env c
                else Cfg.TopicARN c)
    /\ (forall queue,
          sqsURL p ++ p_env p ++ "-" ++ queue =
          (if String.eqb (Cfg.Hostname c) "" then
             "https://sqs." ++ Cfg.Region c ++ ".amazonaws.com/"
               ++ Cfg.AWSAccountID c ++ "/"
           else Cfg.Hostname c ++ "/") ++ Cfg.Env c ++ "-" ++ queue).
Proof.
  intros Hs. unfold Gosqs.NewPublisher. rewrite Hs. eexists. split; [reflexivity|].
  split; [reflexivity|]. split; [reflexivity|]. split.
  - intros U HU encode fuel queue name unsendable err w Herr.
    unfold Publisher.Message, json_Marshal. rewrite Herr. reflexivity.
  - split; reflexivity.
Qed.

Lemma NewPublisher_keeps_route_only_witness :
  exists p,
    Gosqs.NewPublisher unit any_session test_config = inl p
    /\ arn p = "arn:aws:sns:local:000000000000:todolist-dev"
    /\ pub_MessageAttributes (published p "sample_created" "{}") =
       Some {["route" := string_attribute "sample_created"]}.
Proof.
  destruct (NewPublisher_keeps_route_only unit any_session test_config tt eq_refl)
    as (p & Hnew & Hattrs & _ & _ & Harn & _).
  exists p. split; [exact Hnew|]. split; [rewrite Harn; reflexivity|].
  apply Hattrs.
Defined.

(** ** Middleware *)

(** A middleware cannot stop a message: [WithMiddleware] drops what the
    middleware returns, so when the first-listed middleware returns, with
    nil or with an error, [run] goes on with the rest of the chain and the
    handler from the world the middleware left, and signals and deletes by
    the handler's result alone.  Only a panic of the middleware keeps the
    handler from running. *)
Theorem middleware_cannot_veto (c : consumer) (name : string) (h : Handler)
    (f : context_Context -> message -> M (option error)) (rest : list Adapter)
    (m : message) (r : option error) (w w1 : World) :
  Route m = Done name ->
  f context_Background m (emit (EvGo (GoExtend m)) w) = (Done r, w1) ->
  Consumer.run (Consumer.RegisterHandler c name h (WithMiddleware f :: rest)) m w =
  match foldr (fun a g => a g) h rest context_Background m w1 with
  | (Done (Some e), w2) => (Done (Some e), emit (EvGo (GoSignal m (Some e))) w2)
  | (Done None, w2) =>
      Consumer.delete (Consumer.RegisterHandler c name h (WithMiddleware f :: rest))
        m (emit (EvGo (GoSignal m None)) w2)
  | (Panicked v, w2) => (Panicked v, w2)
  | (OutOfFuel, w2) => (OutOfFuel, w2)
  end.
Proof.
  intros Hr Hf.
  rewrite (run_routed _ m name _ w Hr (RegisterHandler_lookup c name h _)).
  simpl. unfold WithMiddleware at 1. unfold_M. rewrite Hf. reflexivity.
Qed.

Lemma middleware_cannot_veto_witness :
  Consumer.run
    (Consumer.RegisterHandler a_consumer "post_published" test_handler
       [WithMiddleware failing_middleware])
    (newMessage post_published_message) calm =
  (Done None,
   {| queue := []; backend := always None; inbox := always (inr []);
      signals := always false;
      trace := [EvGo (GoExtend (newMessage post_published_message));
                EvLog ["unauthorized"];
                EvGo (GoSignal (newMessage post_published_message) None);
                EvDeleteMessage (QueueURL a_consumer) (Some "receipt-1")] |}).
Proof.
  rewrite (middleware_cannot_veto a_consumer "post_published" test_handler
             failing_middleware [] (newMessage post_published_message)
             (Some (errorString "unauthorized")) calm
             (emit (EvLog ["unauthorized"])
                (emit (EvGo (GoExtend (newMessage post_published_message))) calm)));
    [|vm_compute; reflexivity|vm_compute; reflexivity].
  vm_compute. reflexivity.
Defined.

(** A consumer made by [NewConsumer] starts without handlers and without
    custom attributes, whatever the configuration lists, and its [Logger()]
    is the package's default logger even when the configuration names
    another.  A zero visibility timeout or worker pool means the default of
    30, an absent extension limit the default of 2, and no other value is
    checked.  The queue URL is the configured one; without one it is what the
    backend answers for the environment, a dash and the queue name, and the
    backend's error is the constructor's. *)
Theorem NewConsumer_defaults (session : Type)
    (newSession : Cfg.Config -> session + error)
    (GetQueueUrl : string -> ptr string + error)
    (c : Cfg.Config) (queueName : string) (sess : session) (url : string) :
  newSession c = inl sess ->
  (if String.eqb (Cfg.QueueURL c) "" then
     GetQueueUrl (Cfg.Env c ++ "-" ++ queueName) = inl (Some url)
   else Cfg.QueueURL c = url) ->
  exists nc,
    Gosqs.NewConsumer session newSession GetQueueUrl c queueName = Done (inl nc)
    /\ QueueURL (built nc) = url
    /\ env (built nc) = Cfg.Env c
    /\ handlers (built nc) = ∅
    /\ attributes (built nc) = []
    /\ consumer_Logger (built_logger nc) = defaultLogger
    /\ VisibilityTimeout (built nc) =
       (if (Cfg.VisibilityTimeout c =? 0)%Z then 30%Z else Cfg.VisibilityTimeout c)
    /\ workerPool (built nc) =
       (if (Cfg.WorkerPool c =? 0)%Z then 30%Z else Cfg.WorkerPool c)
    /\ extensionLimit (built nc) = default 2%Z (Cfg.ExtensionLimit c)
    /\ VisibilityTimeout (built nc) <> 0%Z
    /\ workerPool (built nc) <> 0%Z.
Proof.
  intros Hs Hurl.
  assert (Hv : (if (Cfg.VisibilityTimeout c =? 0)%Z then 30%Z
                else Cfg.VisibilityTimeout c) <> 0%Z).
  { destruct (Cfg.VisibilityTimeout c =? 0)%Z eqn:Hv; [discriminate|].
    apply Z.eqb_neq. exact Hv. }
  assert (Hp : (if (Cfg.WorkerPool c =? 0)%Z then 30%Z
                else Cfg.WorkerPool c) <> 0%Z).
  { destruct (Cfg.WorkerPool c =? 0)%Z eqn:Hp; [discriminate|].
    apply Z.eqb_neq. exact Hp. }
  assert (Hl : consumer_Logger
                 match Cfg.Logger c with
                 | None => Some defaultLogger
                 | Some _ => None
                 end = defaultLogger)
    by (destruct (Cfg.Logger c); reflexivity).
  assert (He : match Cfg.ExtensionLimit c with
               | None => 2%Z
               | Some l => l
               end = default 2%Z (Cfg.ExtensionLimit c))
    by (destruct (Cfg.ExtensionLimit c); reflexivity).
  unfold Gosqs.NewConsumer. rewrite Hs.
  destruct (String.eqb (Cfg.QueueURL c) "") eqn:Hq.
  - rewrite Hurl. simpl. eexists. split; [reflexivity|]. simpl.
    split; [reflexivity|]. do 3 (split; [reflexivity|]).
    split; [exact Hl|]. do 2 (split; [reflexivity|]).
    split; [exact He|]. split; [exact Hv|exact Hp].
  - eexists. split; [reflexivity|]. simpl.
    split; [exact Hurl|]. do 3 (split; [reflexivity|]).
    split; [exact Hl|]. do 2 (split; [reflexivity|]).
    split; [exact He|]. split; [exact Hv|exact Hp].
Qed.

Lemma NewConsumer_defaults_witness :
  exists nc,
    Gosqs.NewConsumer unit any_session local_queue_url test_config "post-worker" =
    Done (inl nc)
    /\ built nc = a_consumer
    /\ consumer_Logger (built_logger nc) = defaultLogger.
Proof.
  destruct (NewConsumer_defaults unit any_session local_queue_url test_config
              "post-worker" tt "http://local.goaws:4100/queue/dev-post-worker"
              eq_refl eq_refl)
    as (nc & Hnew & Hurl & Henv & Hh & Ha & Hl & Hv & Hp & He & _).
  exists nc. split; [exact Hnew|]. split; [|exact Hl].
  destruct nc as [[hs e u v p l a] lg]. simpl in *.
  rewrite Hurl, Henv, Hh, Ha, Hv, Hp, He. reflexivity.
Defined.

(** What keeps the constructors from returning: the session provider's
    error is returned as it is by both, and so is the backend's error when
    [NewConsumer] asks for the queue URL; an answer without a queue URL is
    dereferenced all the same, and panics. *)
Theorem construction_failures (session : Type)
    (newSession : Cfg.Config -> session + error)
    (GetQueueUrl : string -> ptr string + error)
    (c : Cfg.Config) (queueName : string) :
  (forall err, newSession c = inr err ->
     Gosqs.NewConsumer session newSession GetQueueUrl c queueName = Done (inr err)
     /\ Gosqs.NewPublisher session newSession c = inr err)
  /\ (forall sess, newSession c = inl sess -> Cfg.QueueURL c = "" ->
        (forall err, GetQueueUrl (Cfg.Env c ++ "-" ++ queueName) = inr err ->
           Gosqs.NewConsumer session newSession GetQueueUrl c queueName =
           Done (inr err))
        /\ (GetQueueUrl (Cfg.Env c ++ "-" ++ queueName) = inl None ->
            Gosqs.NewConsumer session newSession GetQueueUrl c queueName =
            Panicked nilDereference)).
Proof.
  split.
  - intros err Hs. unfold Gosqs.NewConsumer, Gosqs.NewPublisher. rewrite Hs.
    split; reflexivity.
  - intros sess Hs Hq. unfold Gosqs.NewConsumer. rewrite Hs, Hq. simpl. split.
    + intros err Hu. rewrite Hu. reflexivity.
    + intros Hu. rewrite Hu. reflexivity.
Qed.

(** ** Custom attributes *)

(** [NewCustomAttribute] checks the value against the data type and nothing
    else: a [Number] wants an [int], every other data type, whatever its
    name, a [string].  A value that agrees is appended after the attributes
    already there, as text, and the rest of the configuration is kept; sent
    with a message, the new attribute is found under its title with that
    type and text.  A value that does not agree leaves the configuration as
    it was, and the error is [ErrMarshal], not [ErrInvalidVal]. *)
Theorem NewCustomAttribute_checks_value (c : Cfg.Config) (dt : dataType)
    (title : string) (value : go_value) :
  (agrees dt value = true ->
     Cfg.NewCustomAttribute c dt title value =
     (Cfg.set_Attributes c
        (Cfg.Attributes c ++
         [{| Title := title; ca_DataType := dt; Value := attribute_text value |}]),
      None)
     /\ forall name,
          defaultSQSAttributes name
            (Cfg.Attributes (fst (Cfg.NewCustomAttribute c dt title value)))
            !! title =
          Some (Some {| DataType := Some dt;
                        StringValue := Some (attribute_text value) |}))
  /\ (agrees dt value = false ->
        Cfg.NewCustomAttribute c dt title value =
        (c, Some (SQSError_error ErrMarshal))
        /\ Error (SQSError_error ErrMarshal) <> Error (SQSError_error ErrInvalidVal)).
Proof.
  split.
  - intros Hok.
    assert (Hnew : Cfg.NewCustomAttribute c dt title value =
                   (Cfg.set_Attributes c
                      (Cfg.Attributes c ++
                       [{| Title := title; ca_DataType := dt;
                           Value := attribute_text value |}]),
                    None)).
    { unfold Cfg.NewCustomAttribute, agrees in *.
      destruct value as [n|s|t]; destruct (String.eqb dt DataTypeNumber);
        try discriminate; reflexivity. }
    split; [exact Hnew|]. intros name. rewrite Hnew. simpl.
    unfold defaultSQSAttributes. rewrite foldl_snoc. apply lookup_insert_eq.
  - intros Hbad. split; [|discriminate].
    unfold Cfg.NewCustomAttribute, agrees in *.
    destruct value as [n|s|t]; destruct (String.eqb dt DataTypeNumber);
      try discriminate; reflexivity.
Qed.

(** ** The consumer's own messages *)

Lemma consumer_send_accepted (fuel : nat) (c : consumer) (ctx : context_Context)
    (input : SendMessageInput) (name : string) (w : World)
    (rest : script (option error)) :
  next (backend w) = (None, rest) ->
  Consumer.sendDirectMessage (S fuel) c ctx input name w =
  (Done tt, accepted (EvSendMessage input) rest w).
Proof.
  intros Hb. simpl. unfold_M; unfold SendMessage, request. rewrite Hb. reflexivity.
Qed.

(** [MessageSelf] sends to the consumer's own queue and [Message] to the
    queue the backend resolves for the environment, a dash and the queue
    name; both carry the event as the route.  When the queue cannot be
    resolved, [Message] logs and sends nothing, and a body that cannot be
    encoded is logged and not sent by either. *)
Theorem consumer_messages (GetQueueUrl : string -> ptr string + error)
    {T} `{Marshaler T} (encode : json -> string) (fuel : nat) (c : consumer)
    (ctx : context_Context) (name : string) (payload : T) (j : json)
    (w : World) (rest : script (option error)) :
  MarshalJSON payload = inl j ->
  next (backend w) = (None, rest) ->
  Gosqs.MessageSelf encode (S fuel) c ctx name payload w =
    (Done tt,
     accepted
       (EvSendMessage
          {| MessageBody := Some (encode j);
             send_MessageAttributes := Some (defaultSQSAttributes name (attributes c));
             QueueUrl := Some (QueueURL c) |})
       rest w)
  /\ (forall queue url,
        GetQueueUrl (env c ++ "-" ++ queue) = inl url ->
        Gosqs.Message GetQueueUrl encode (S fuel) c ctx queue name payload w =
        (Done tt,
         accepted
           (EvSendMessage
              {| MessageBody := Some (encode j);
                 send_MessageAttributes :=
                   Some (defaultSQSAttributes name (attributes c));
                 QueueUrl := url |})
           rest w))
  /\ (forall queue err,
        GetQueueUrl (env c ++ "-" ++ queue) = inr err ->
        Gosqs.Message GetQueueUrl encode (S fuel) c ctx queue name payload w =
        (Done tt,
         emit (EvLog [Error (Context ErrQueueURL err); env c ++ "-" ++ queue]) w))
  /\ (forall (U : Type) (HU : Marshaler U) (unsendable : U) err queue url,
        MarshalJSON unsendable = inr err ->
        GetQueueUrl (env c ++ "-" ++ queue) = inl url ->
        Gosqs.MessageSelf encode fuel c ctx name unsendable w =
        (Done tt, emit (EvLog [Error (Context ErrMarshal err); name]) w)
        /\ Gosqs.Message GetQueueUrl encode fuel c ctx queue name unsendable w =
           (Done tt, emit (EvLog [Error (Context ErrMarshal err); name]) w)).
Proof.
  intros Hm Hb. split; [|split; [|split]].
  - unfold Gosqs.MessageSelf, json_Marshal. rewrite Hm.
    apply consumer_send_accepted. exact Hb.
  - intros queue url Hu. unfold Gosqs.Message, json_Marshal. rewrite Hu, Hm.
    apply consumer_send_accepted. exact Hb.
  - intros queue err Hu. unfold Gosqs.Message. rewrite Hu. reflexivity.
  - intros U HU unsendable err queue url Herr Hu.
    unfold Gosqs.MessageSelf, Gosqs.Message, json_Marshal. rewrite Hu, Herr.
    split; reflexivity.
Qed.

Lemma consumer_messages_witness :
  Gosqs.Message local_queue_url compact_text 1 a_consumer context_Background
    "mail-worker" "send_mail" {| Val := "val" |} calm =
  (Done tt,
   accepted
     (EvSendMessage
        {| MessageBody := Some (compact_text (JObject [("val", JString "val")]));
           send_MessageAttributes := Some {["route" := string_attribute "send_mail"]};
           QueueUrl := Some "http://local.goaws:4100/queue/dev-mail-worker" |})
     (always None) calm).
Proof.
  destruct (consumer_messages local_queue_url compact_text 0 a_consumer
              context_Background "send_mail" {| Val := "val" |}
              (JObject [("val", JString "val")]) calm (always None))
    as (_ & Hmessage & _); [reflexivity|reflexivity|].
  rewrite (Hmessage "mail-worker"
             (Some "http://local.goaws:4100/queue/dev-mail-worker") eq_refl).
  reflexivity.
Defined.

(** ** From sender to receiver *)

(** The route written by the senders is the route read by the receiver: a
    message that arrives with the attributes of [defaultSQSAttributes] has
    the event as its [Route], as long as no custom attribute is itself
    titled ["route"]; the custom attribute listed last is read back by
    [Attribute] under its title, and a key that is neither the route nor a
    title reads as the empty string.  A consumer with a handler registered
    under the event therefore runs it on the message [MessageSelf] sent. *)
Theorem route_survives_delivery (name : string) (ca : list customAttribute)
    (m : sqs_Message) :
  MessageAttributes m = Some (defaultSQSAttributes name ca) ->
  Forall (fun a => Title a <> "route") ca ->
  Route (newMessage m) = Done name
  /\ (forall a earlier, ca = (earlier ++ [a])%list ->
        Attribute (newMessage m) (Title a) = Done (Value a))
  /\ (forall key, key <> "route" -> Forall (fun a => Title a <> key) ca ->
        Attribute (newMessage m) key = Done "")
  /\ (forall (c : consumer) (h : Handler) (w : World),
        handlers c !! name = Some h ->
        Consumer.run c (newMessage m) w =
        match h context_Background (newMessage m)
                (emit (EvGo (GoExtend (newMessage m))) w) with
        | (Done (Some e), w1) =>
            (Done (Some e), emit (EvGo (GoSignal (newMessage m) (Some e))) w1)
        | (Done None, w1) =>
            Consumer.delete c (newMessage m)
              (emit (EvGo (GoSignal (newMessage m) None)) w1)
        | (Panicked v, w1) => (Panicked v, w1)
        | (OutOfFuel, w1) => (OutOfFuel, w1)
        end).
Proof.
  intros Hattrs Hca.
  assert (Hroute : Route (newMessage m) = Done name).
  { apply Route_defined. eexists. split.
    - simpl. rewrite Hattrs. simpl. apply default_route_entry. exact Hca.
    - reflexivity. }
  split; [exact Hroute|]. split; [|split].
  - intros a earlier ->. unfold Attribute. simpl. rewrite Hattrs. simpl.
    unfold defaultSQSAttributes. rewrite foldl_snoc, lookup_insert_eq.
    reflexivity.
  - intros key Hkey Hother. unfold Attribute. simpl. rewrite Hattrs. simpl.
    unfold defaultSQSAttributes.
    rewrite attributes_fold_other by exact Hother.
    rewrite lookup_singleton_ne by (intros Heq; apply Hkey; symmetry; exact Heq).
    reflexivity.
  - intros c h w Hh. apply (run_routed c (newMessage m) name h w Hroute Hh).
Qed.

Lemma route_survives_delivery_witness :
  Route (newMessage
           (raw_message
              (Some (defaultSQSAttributes "post_published"
                       [{| Title := "correlationId"; ca_DataType := "String";
                           Value := "42" |}])))) = Done "post_published"
  /\ Attribute (newMessage
                  (raw_message
                     (Some (defaultSQSAttributes "post_published"
                              [{| Title := "correlationId"; ca_DataType := "String";
                                  Value := "42" |}])))) "correlationId" = Done "42".
Proof.
  destruct (route_survives_delivery "post_published"
              [{| Title := "correlationId"; ca_DataType := "String"; Value := "42" |}]
              (raw_message
                 (Some (defaultSQSAttributes "post_published"
                          [{| Title := "correlationId"; ca_DataType := "String";
                              Value := "42" |}]))))
    as (Hroute & Hlast & _).
  - reflexivity.
  - repeat constructor; discriminate.
  - split; [exact Hroute|].
    exact (Hlast {| Title := "correlationId"; ca_DataType := "String";
                    Value := "42" |} [] eq_refl).
Defined.

(** ** Decoding *)

Lemma field_for_Body (key : string) :
  equalFold key "Body" = true ->
  field_for ["Body"; "Changes"] key = Some "Body".
Proof.
  intros Hfold. unfold field_for. simpl.
  destruct (String.eqb key "Body") eqn:Hb; [reflexivity|].
  destruct (String.eqb key "Changes") eqn:Hc.
  - apply String.eqb_eq in Hc. subst key. discriminate Hfold.
  - rewrite Hfold. reflexivity.
Qed.

Lemma field_for_Changes (key : string) :
  equalFold key "Changes" = true ->
  field_for ["Body"; "Changes"] key = Some "Changes".
Proof.
  intros Hfold. unfold field_for. simpl.
  destruct (String.eqb key "Body") eqn:Hb.
  - apply String.eqb_eq in Hb. subst key. discriminate Hfold.
  - destruct (String.eqb key "Changes") eqn:Hc; [reflexivity|].
    assert (Hother : equalFold key "Body" = false).
    { unfold equalFold in *. apply String.eqb_eq in Hfold. rewrite Hfold.
      reflexivity. }
    rewrite Hother, Hfold. reflexivity.
Qed.

Lemma decode_member_Body {B C} `{Unmarshaler B} `{Unmarshaler C}
    (key : string) (jb : json) (b0 b : B) (c0 : C) :
  equalFold key "Body" = true ->
  UnmarshalJSON jb b0 = inl b ->
  decode_member {| s_Body := b0; s_Changes := c0 |} (key, jb) =
  inl {| s_Body := b; s_Changes := c0 |}.
Proof.
  intros Hkey Hb. unfold decode_member. cbn [fst snd].
  rewrite (field_for_Body key Hkey). cbn [s_Body s_Changes]. rewrite Hb.
  reflexivity.
Qed.

Lemma decode_member_Changes {B C} `{Unmarshaler B} `{Unmarshaler C}
    (key : string) (jc : json) (b0 : B) (c0 c : C) :
  equalFold key "Changes" = true ->
  UnmarshalJSON jc c0 = inl c ->
  decode_member {| s_Body := b0; s_Changes := c0 |} (key, jc) =
  inl {| s_Body := b0; s_Changes := c |}.
Proof.
  intros Hkey Hc. unfold decode_member. cbn [fst snd].
  rewrite (field_for_Changes key Hkey). cbn [s_Body s_Changes]. rewrite Hc.
  reflexivity.
Qed.

Lemma DecodeModified_document {B C} `{Unmarshaler B} `{Unmarshaler C}
    (decode : string -> option json) (m : message) (text : string)
    (members : list (string * json)) (b0 b : B) (c0 c : C) :
  Body (Message m) = Some text ->
  decode text = Some (JObject members) ->
  decode_members {| s_Body := b0; s_Changes := c0 |} members =
    inl {| s_Body := b; s_Changes := c |} ->
  DecodeModified decode m b0 c0 = Done (None, b, c).
Proof.
  intros Hbody Htext Hmembers.
  unfold DecodeModified, Decode, body. rewrite Hbody. simpl.
  unfold json_Unmarshal. rewrite Htext.
  unfold UnmarshalJSON, modified_Unmarshaler. rewrite Hmembers. reflexivity.
Qed.

(** [DecodeModified] finds the entity and the change-set under the names of
    its struct's fields, [Body] and [Changes], in any letter case and in
    either order.  A payload without a
    change-set is no error: the changes destination is left as it was.  A
    text that is no document is an error that leaves both destinations as
    they were, and a message without body makes the call panic. *)
Theorem DecodeModified_reads_any_case {B C} `{Unmarshaler B} `{Unmarshaler C}
    (decode : string -> option json) (m : message) (text : string)
    (kb kc : string) (jb jc : json) (b0 b : B) (c0 c : C) :
  equalFold kb "Body" = true ->
  equalFold kc "Changes" = true ->
  UnmarshalJSON jb b0 = inl b ->
  UnmarshalJSON jc c0 = inl c ->
  Body (Message m) = Some text ->
  (decode text = Some (JObject [(kb, jb); (kc, jc)]) ->
   DecodeModified decode m b0 c0 = Done (None, b, c))
  /\ (decode text = Some (JObject [(kc, jc); (kb, jb)]) ->
      DecodeModified decode m b0 c0 = Done (None, b, c))
  /\ (decode text = Some (JObject [(kb, jb)]) ->
      DecodeModified decode m b0 c0 = Done (None, b, c0))
  /\ (decode text = None ->
      exists err, DecodeModified decode m b0 c0 = Done (Some err, b0, c0))
  /\ (forall m' : message,
        Body (Message m') = None ->
        DecodeModified decode m' b0 c0 = Panicked nilDereference).
Proof.
  intros Hkb Hkc Hb Hc Hbody.
  split; [|split; [|split; [|split]]].
  - intros Htext. apply (DecodeModified_document decode m text _ _ _ _ _ Hbody Htext).
    simpl. rewrite (decode_member_Body kb jb b0 b c0 Hkb Hb).
    rewrite (decode_member_Changes kc jc b c0 c Hkc Hc). reflexivity.
  - intros Htext. apply (DecodeModified_document decode m text _ _ _ _ _ Hbody Htext).
    simpl. rewrite (decode_member_Changes kc jc b0 c0 c Hkc Hc).
    rewrite (decode_member_Body kb jb b0 b c Hkb Hb). reflexivity.
  - intros Htext. apply (DecodeModified_document decode m text _ _ _ _ _ Hbody Htext).
    simpl. rewrite (decode_member_Body kb jb b0 b c0 Hkb Hb). reflexivity.
  - intros Htext. eexists.
    unfold DecodeModified, Decode, body. rewrite Hbody. simpl.
    unfold json_Unmarshal. rewrite Htext. reflexivity.
  - intros m' Hnil. unfold DecodeModified, Decode, body. rewrite Hnil. reflexivity.
Qed.

Lemma DecodeModified_reads_any_case_witness :
  DecodeModified read_text
    (newMessage
       {| Body := Some (compact_text
                          (JObject [("CHANGES", JObject [("oldName", JString "newName")]);
                                    ("Body", JObject [("val", JString "val")])]));
          MessageAttributes := None; ReceiptHandle := None |})
    {| Val := EmptyString |} (∅ : gmap string string) =
  Done (None, {| Val := "val" |}, {["oldName" := "newName"]}).
Proof.
  destruct (DecodeModified_reads_any_case read_text
              (newMessage
                 {| Body := Some (compact_text
                                    (JObject [("CHANGES", JObject [("oldName", JString "newName")]);
                                              ("Body", JObject [("val", JString "val")])]));
                    MessageAttributes := None; ReceiptHandle := None |})
              (compact_text
                 (JObject [("CHANGES", JObject [("oldName", JString "newName")]);
                           ("Body", JObject [("val", JString "val")])]))
              "Body" "CHANGES"
              (JObject [("val", JString "val")])
              (JObject [("oldName", JString "newName")])
              {| Val := EmptyString |} {| Val := "val" |}
              (∅ : gmap string string) {["oldName" := "newName"]})
    as (_ & Hswapped & _); [vm_compute; reflexivity ..|].
  apply Hswapped. vm_compute. reflexivity.
Defined.

(** ** The testing stubs *)

(** A stub message made by [NewStubModified] of an entity and a change-set
    gives both back through its [DecodeModified]; the same payload, carried by
    a message of the consumer, is read by the consumer's [DecodeModified]
    too, although its keys are [Body] and [Changes] where the publisher
    writes [body] and [changes].  The stub message has no route and no
    recorded error.  [encoding/json] is taken to do its part, as for the
    publisher's round trip. *)
Theorem stub_modified_round_trip {B C}
    `{Marshaler B} `{Marshaler C} `{Unmarshaler B} `{Unmarshaler C}
    (encode : json -> string) (decode : string -> option json)
    (n n0 : B) (changes c0 : C) (jn jc : json) :
  MarshalJSON n = inl jn ->
  MarshalJSON changes = inl jc ->
  UnmarshalJSON jn n0 = inl n ->
  UnmarshalJSON jc c0 = inl changes ->
  decode (encode (JObject [("Body", jn); ("Changes", jc)])) =
    Some (JObject [("Body", jn); ("Changes", jc)]) ->
  exists sm,
    Sqstesting.NewStubModified encode n changes = inl sm
    /\ Sqstesting.sm_body sm = encode (JObject [("Body", jn); ("Changes", jc)])
    /\ Sqstesting.DecodeModified decode sm n0 c0 = (None, n, changes)
    /\ (forall m : message,
          Body (Message m) = Some (Sqstesting.sm_body sm) ->
          DecodeModified decode m n0 c0 = Done (None, n, changes))
    /\ Sqstesting.Route sm = ""
    /\ Sqstesting.sm_Err sm = None.
Proof.
  intros Hn Hc Hn' Hc' Htext.
  assert (Hmembers : decode_members {| s_Body := n0; s_Changes := c0 |}
                       [("Body", jn); ("Changes", jc)] =
                     inl {| s_Body := n; s_Changes := changes |}).
  { simpl. rewrite (decode_member_Body "Body" jn n0 n c0 eq_refl Hn').
    rewrite (decode_member_Changes "Changes" jc n c0 changes eq_refl Hc').
    reflexivity. }
  unfold Sqstesting.NewStubModified, json_Marshal.
  unfold MarshalJSON at 1. unfold Sqstesting.payload_Marshaler. simpl.
  rewrite Hn, Hc. eexists. split; [reflexivity|]. simpl.
  split; [reflexivity|]. split; [|split; [|split; reflexivity]].
  - unfold Sqstesting.DecodeModified, Sqstesting.Decode, json_Unmarshal. simpl.
    rewrite Htext. unfold UnmarshalJSON, modified_Unmarshaler.
    rewrite Hmembers. reflexivity.
  - intros m Hbody.
    apply (DecodeModified_document decode m _ _ _ _ _ _ Hbody Htext Hmembers).
Qed.

Lemma stub_modified_round_trip_witness :
  exists sm,
    Sqstesting.NewStubModified compact_text {| Val := "val" |}
      ({["oldName" := "newName"]} : gmap string string) = inl sm
    /\ Sqstesting.DecodeModified read_text sm {| Val := EmptyString |}
         (∅ : gmap string string) =
       (None, {| Val := "val" |}, {["oldName" := "newName"]}).
Proof.
  destruct (stub_modified_round_trip compact_text read_text
              {| Val := "val" |} {| Val := EmptyString |}
              ({["oldName" := "newName"]} : gmap string string) ∅
              (JObject [("val", JString "val")])
              (JObject [("oldName", JString "newName")]))
    as (sm & Hnew & _ & Hdecode & _); [vm_compute; reflexivity ..|].
  exists sm. split; [exact Hnew|exact Hdecode].
Defined.

Lemma performed_all_app {V} `{Notifier V} `{Marshaler V} (encode : json -> string)
    (fuel : nat) (p : publisher) (first later : list (call V)) (w : World) :
  performed_all encode fuel p (first ++ later) w =
  (performed_all encode fuel p first;; performed_all encode fuel p later) w.
Proof.
  revert w. induction first as [|c first IH]; intros w; [reflexivity|].
  simpl. unfold_M. destruct (performed encode fuel p c w) as [[[]|v|] w1];
    [apply IH|reflexivity|reflexivity].
Qed.

Lemma route_sent_published (p : publisher) (name out : string) :
  Forall (fun a => Title a <> "route") (p_attributes p) ->
  route_sent (EvPublish (published p name out)) = Some name.
Proof.
  intros Hattrs. unfold route_sent, map_index, map_lookup_ok, published. simpl.
  unfold defaultSNSAttributes.
  rewrite (default_route_entry name (p_attributes p) Hattrs). reflexivity.
Qed.

Lemma performed_route {V} `{Notifier V} `{Marshaler V} (encode : json -> string)
    (fuel : nat) (p : publisher) (c : call V) (s : Sqstesting.StubPublisher V)
    (w : World) (rest : script (option error)) :
  camelCase p = false ->
  Forall (fun a => Title a <> "route") (p_attributes p) ->
  (forall v : V, exists j, MarshalJSON v = inl j) ->
  next (backend w) = (None, rest) ->
  exists e name,
    performed encode (S fuel) p c w = (Done tt, accepted e rest w)
    /\ route_sent e = Some name
    /\ Sqstesting.EventList (stubbed s c) = (Sqstesting.EventList s ++ [name])%list.
Proof.
  intros Hcase Hattrs Hm Hb.
  assert (Hevent : forall (n : V) action,
             Publisher.event p n action = ModelName n ++ "_" ++ action).
  { intros n action. unfold Publisher.event. rewrite Hcase. reflexivity. }
  destruct c as [n|n|n|n changes|n action|queue name payload]; simpl.
  - destruct (Hm n) as [j Hj]. eexists. eexists. split; [|split].
    + unfold Publisher.Create. apply (send_accepted encode fuel p n _ j w rest Hj Hb).
    + rewrite route_sent_published by exact Hattrs. rewrite Hevent. reflexivity.
    + reflexivity.
  - destruct (Hm n) as [j Hj]. eexists. eexists. split; [|split].
    + unfold Publisher.Delete. apply (send_accepted encode fuel p n _ j w rest Hj Hb).
    + rewrite route_sent_published by exact Hattrs. rewrite Hevent. reflexivity.
    + reflexivity.
  - destruct (Hm n) as [j Hj]. eexists. eexists. split; [|split].
    + unfold Publisher.Update. apply (send_accepted encode fuel p n _ j w rest Hj Hb).
    + rewrite route_sent_published by exact Hattrs. rewrite Hevent. reflexivity.
    + reflexivity.
  - destruct (Hm n) as [j Hj]. destruct (Hm changes) as [jc Hjc].
    eexists. eexists. split; [|split].
    + unfold Publisher.Modify.
      apply (send_accepted encode fuel p (newModify n changes) _
               (JObject [("body", j); ("changes", jc)]) w rest); [|exact Hb].
      unfold MarshalJSON at 1. unfold modify_Marshaler, newModify. simpl.
      rewrite Hj, Hjc. reflexivity.
    + rewrite route_sent_published by exact Hattrs. rewrite Hevent. reflexivity.
    + reflexivity.
  - destruct (Hm n) as [j Hj]. eexists. eexists. split; [|split].
    + unfold Publisher.Dispatch. apply (send_accepted encode fuel p n _ j w rest Hj Hb).
    + rewrite route_sent_published by exact Hattrs. rewrite Hevent. reflexivity.
    + reflexivity.
  - destruct (Hm payload) as [j Hj]. eexists. eexists. split; [|split].
    + unfold Publisher.Message, json_Marshal. rewrite Hj.
      rewrite direct_send_entry. simpl.
      unfold_M; unfold SendMessage, request. rewrite Hb. reflexivity.
    + unfold route_sent, map_index, map_lookup_ok. simpl.
      rewrite (default_route_entry name (p_attributes p) Hattrs). reflexivity.
    + reflexivity.
Qed.



(** ** The dispatcher in the context *)

(** [Dispatcher] gives back the publisher of the nearest [WithDispatcher]
    above it: a later one hides an earlier one, also when it was given the
    nil publisher, and values under other keys, the plain string
    ["dispatcher"] included, hide nothing.  Without a publisher the result
    is [ErrUndefinedPublisher].  [MustDispatcher] returns the same publisher
    and panics with that error's text where [Dispatcher] returns the
    error. *)
Theorem Dispatcher_nearest {P : Type} (ctx : valued_context P) :
  (forall p, Dispatcher (WithDispatcher ctx (Some p)) = (Some p, None))
  /\ Dispatcher (WithDispatcher ctx None) =
     (None, Some (SQSError_error ErrUndefinedPublisher))
  /\ (forall key val, context_key_eqb key dispatcherKey = false ->
        Dispatcher (ctx_WithValue ctx key val) = Dispatcher ctx)
  /\ (forall val,
        Dispatcher
          (ctx_WithValue ctx {| key_type := "string"; key_text := "dispatcher" |} val) =
        Dispatcher ctx)
  /\ (forall c, Dispatcher (ctx_plain c : valued_context P) =
                (None, Some (SQSError_error ErrUndefinedPublisher)))
  /\ MustDispatcher ctx =
     match Dispatcher ctx with
     | (Some p, _) => Done p
     | (None, _) => Panicked "sqs publisher is undefined"
     end.
Proof.
  split; [|split; [|split; [|split; [|split]]]].
  - reflexivity.
  - reflexivity.
  - intros key val Hkey. unfold Dispatcher. simpl. rewrite Hkey. reflexivity.
  - reflexivity.
  - reflexivity.
  - unfold MustDispatcher, Dispatcher.
    destruct (ctx_Value ctx dispatcherKey); reflexivity.
Qed.

Lemma messaged_all_app {V} `{Marshaler V}
    (GetQueueUrl : string -> ptr string + error) (encode : json -> string)
    (fuel : nat) (c : consumer) (ctx : context_Context)
    (first later : list (consumer_call V)) (w : World) :
  messaged_all GetQueueUrl encode fuel c ctx (first ++ later) w =
  (messaged_all GetQueueUrl encode fuel c ctx first;;
   messaged_all GetQueueUrl encode fuel c ctx later) w.
Proof.
  revert w. induction first as [|call first IH]; intros w; [reflexivity|].
  simpl. unfold_M.
  destruct (messaged GetQueueUrl encode fuel c ctx call w) as [[[]|v|] w1];
    [apply IH|reflexivity|reflexivity].
Qed.

Lemma messaged_route {V} `{Marshaler V}
    (GetQueueUrl : string -> ptr string + error) (encode : json -> string)
    (fuel : nat) (c : consumer) (ctx : context_Context) (call : consumer_call V)
    (s : Sqstesting.StubConsumer V) (w : World) (rest : script (option error)) :
  Forall (fun a => Title a <> "route") (attributes c) ->
  (forall v : V, exists j, MarshalJSON v = inl j) ->
  (forall name, exists url, GetQueueUrl name = inl url) ->
  next (backend w) = (None, rest) ->
  exists input name,
    messaged GetQueueUrl encode (S fuel) c ctx call w =
    (Done tt, accepted (EvSendMessage input) rest w)
    /\ route_sent (EvSendMessage input) = Some name
    /\ Sqstesting.c_EventList (stubbed_consumer ctx s call) =
       (Sqstesting.c_EventList s ++ [name])%list
    /\ map Sqstesting.Event
         (Sqstesting.c_DirectMessages (stubbed_consumer ctx s call)) =
       (map Sqstesting.Event (Sqstesting.c_DirectMessages s) ++ [name])%list.
Proof.
  intros Hattrs Hm Hu Hb.
  destruct call as [name payload|queue name payload]; simpl.
  - destruct (Hm payload) as [j Hj]. eexists. exists name. split; [|split; [|split]].
    + unfold Gosqs.MessageSelf, json_Marshal. rewrite Hj.
      apply consumer_send_accepted. exact Hb.
    + unfold route_sent, map_index, map_lookup_ok. simpl.
      rewrite (default_route_entry name (attributes c) Hattrs). reflexivity.
    + reflexivity.
    + rewrite map_app. reflexivity.
  - destruct (Hm payload) as [j Hj].
    destruct (Hu (env c ++ "-" ++ queue)) as [url Hurl].
    eexists. exists name. split; [|split; [|split]].
    + unfold Gosqs.Message, json_Marshal. rewrite Hurl, Hj.
      apply consumer_send_accepted. exact Hb.
    + unfold route_sent, map_index, map_lookup_ok. simpl.
      rewrite (default_route_entry name (attributes c) Hattrs). reflexivity.
    + reflexivity.
    + rewrite map_app. reflexivity.
Qed.



(** ** Polling, when the backend fails *)

(** A failed receive request costs one turn of the loop and nothing else:
    the failure is logged, with the format string as it stands since the
    logger's [Println] does not format, the loop sleeps ten seconds and hands
    no job to the workers.  The turn after it receives again, and a batch
    that is delivered then reaches the workers. *)
Theorem poll_receive_failure (c : consumer) (w : World) (err : error)
    (rest : script (error + list sqs_Message)) :
  next (inbox w) = (inl err, rest) ->
  Consumer.poll c w =
    (Done tt,
     {| queue := queue w; backend := backend w; inbox := rest;
        signals := signals w;
        trace := trace w ++
                 [EvReceiveMessage (QueueURL c);
                  EvLog ["%s , retrying in 10s";
                         ("unable to retrieve message: " ++ Error err)%string];
                  EvSleep 10000000000] |})
  /\ forall batch rest',
       next rest = (inr batch, rest') ->
       exists ms,
         Forall2 (fun raw m' => Consumer.normalize raw = Done m') batch ms
         /\ fst ((Consumer.poll c;; Consumer.poll c) w) = Done tt
         /\ trace (snd ((Consumer.poll c;; Consumer.poll c) w)) =
            (trace w ++
             [EvReceiveMessage (QueueURL c);
              EvLog ["%s , retrying in 10s";
                     ("unable to retrieve message: " ++ Error err)%string];
              EvSleep 10000000000;
              EvReceiveMessage (QueueURL c)] ++
             map (fun m' => EvJob (newMessage m')) ms)%list.
Proof.
  intros Hnext.
  assert (Hpoll : Consumer.poll c w =
            (Done tt,
             {| queue := queue w; backend := backend w; inbox := rest;
                signals := signals w;
                trace := trace w ++
                         [EvReceiveMessage (QueueURL c);
                          EvLog ["%s , retrying in 10s";
                                 ("unable to retrieve message: " ++ Error err)%string];
                          EvSleep 10000000000] |})).
  { unfold Consumer.poll, ReceiveMessage. unfold_M. rewrite Hnext.
    unfold tell, emit, emits. simpl. repeat rewrite <- app_assoc. reflexivity. }
  split; [exact Hpoll|].
  intros batch rest' Hnext'. unfold mbind, M_bind. rewrite Hpoll.
  match goal with |- context [Consumer.poll c ?w1] =>
    destruct (poll_jobs c w1 batch rest' Hnext') as (ms & Hall & Hdone & Htrace)
  end.
  exists ms. split; [exact Hall|]. split; [exact Hdone|].
  rewrite Htrace. simpl. rewrite <- app_assoc. reflexivity.
Qed.

Lemma poll_receive_failure_witness :
  trace (snd ((Consumer.poll a_consumer;; Consumer.poll a_consumer)
                (failing_then_delivering connection_refused [post_published_message]))) =
  [EvReceiveMessage (QueueURL a_consumer);
   EvLog ["%s , retrying in 10s";
          "unable to retrieve message: RequestError: send request failed: connection refused"];
   EvSleep 10000000000;
   EvReceiveMessage (QueueURL a_consumer);
   EvJob (newMessage post_published_message)].
Proof.
  destruct (poll_receive_failure a_consumer
              (failing_then_delivering connection_refused [post_published_message])
              connection_refused
              {| upcoming := [inr [post_published_message]]; thereafter := inr [] |}
              eq_refl)
    as [_ Hnext].
  destruct (Hnext [post_published_message] (always (inr [])) eq_refl)
    as (ms & Hall & _ & Htrace).
  rewrite Htrace.
  inversion Hall as [|raw m' batch ms' Hn Hrest]; subst.
  inversion Hrest; subst. vm_compute in Hn. injection Hn as <-. reflexivity.
Defined.

(** A stub message made by [NewStubMessage] gives its entity back through
    [Decode], as does a message of the consumer with the same body.  An
    entity that cannot be encoded makes no stub message: the test is ended
    with the marshalling error.  [ErrorResponse] keeps the error on the
    stub, leaving body and route alone, and returns it; the stub answers the
    empty string for every attribute. *)
Theorem stub_message_round_trip {T} `{Marshaler T} `{Unmarshaler T}
    (encode : json -> string) (decode : string -> option json)
    (n n0 : T) (j : json) :
  MarshalJSON n = inl j ->
  UnmarshalJSON j n0 = inl n ->
  decode (encode j) = Some j ->
  exists sm,
    Sqstesting.NewStubMessage encode n = inl sm
    /\ Sqstesting.Decode decode sm n0 = (None, n)
    /\ (forall m : message,
          Body (Message m) = Some (Sqstesting.sm_body sm) ->
          Decode decode m n0 = Done (None, n))
    /\ (forall ctx err,
          Sqstesting.ErrorResponse sm ctx err =
          ({| Sqstesting.sm_body := encode j; Sqstesting.sm_Err := err;
              Sqstesting.Endpoint := "" |}, err))
    /\ (forall key, Sqstesting.Attribute sm key = "")
    /\ (forall (U : Type) (HU : Marshaler U) (unsendable : U) (err : error),
          MarshalJSON unsendable = inr err ->
          Sqstesting.NewStubMessage encode unsendable =
          inr ("error while marshalling data " ++ Error err)).
Proof.
  intros Hm Hu Htext.
  unfold Sqstesting.NewStubMessage at 1. unfold json_Marshal. rewrite Hm.
  eexists. split; [reflexivity|]. split; [|split; [|split; [|split]]].
  - unfold Sqstesting.Decode, json_Unmarshal. simpl. rewrite Htext, Hu.
    reflexivity.
  - intros m Hbody. unfold Decode, body. rewrite Hbody. simpl.
    unfold json_Unmarshal. rewrite Htext, Hu. reflexivity.
  - reflexivity.
  - reflexivity.
  - intros U HU unsendable err Herr.
    unfold Sqstesting.NewStubMessage, json_Marshal. rewrite Herr. reflexivity.
Qed.

Lemma stub_message_round_trip_witness :
  exists sm,
    Sqstesting.NewStubMessage compact_text {| Val := "val" |} = inl sm
    /\ Sqstesting.Decode read_text sm {| Val := EmptyString |} =
       (None, {| Val := "val" |}).
Proof.
  destruct (stub_message_round_trip compact_text read_text
              {| Val := "val" |} {| Val := EmptyString |}
              (JObject [("val", JString "val")]))
    as (sm & Hnew & Hdecode & _); [vm_compute; reflexivity ..|].
  exists sm. split; [exact Hnew|exact Hdecode].
Defined.
